(** * Snap & Speak: the response interpreter, the analysis state machine,
      the camera capture view and the speech announcer.

    Shallow embedding of
      - types.ts                      (AnalysisResult, ProcessingStatus)
      - services/chromeAiService.ts   (getMockAIResponse, prompt, analyzeImage)
      - utils/speech.ts               (speak)
      - components/ImageAnalyzer.tsx  (processAnalysis, resetState, ...)
      - components/CameraCapture.tsx  (stopCamera, the isOpen effect, handleCapture)

    JavaScript strings are sequences of UTF-16 code units.  Handlers run in
    a state-and-exception monad over the browser's [window] and the
    component's React state.  [processAnalysis] and [startCamera] are cut at
    their [await]; [analyzeImage] runs whole at the moment its promise
    settles, against the answers [window.ai] gives. *)

From Stdlib Require Import List NArith ZArith Bool String Ascii Lia.
Import ListNotations.

Set Implicit Arguments.
Set Warnings "-register-all".
Local Open Scope N_scope.

(* ================================================================== *)
(** ** JavaScript strings *)

(** A string is its sequence of UTF-16 code units. *)
Definition JsString := list N.

(** An ASCII literal as a JavaScript string. *)
Definition js (s : string) : JsString :=
  map N_of_ascii (list_ascii_of_string s).

(** The double quote, and a double-quoted literal. *)
Definition dq : JsString := [34].
Definition quoted (s : string) : JsString := dq ++ js s ++ dq.

Fixpoint jseq (a b : JsString) : bool :=
  match a, b with
  | [], [] => true
  | x :: a', y :: b' => N.eqb x y && jseq a' b'
  | _, _ => false
  end.

(** [String.prototype.startsWith]. *)
Fixpoint startsWith (s p : JsString) : bool :=
  match p, s with
  | [], _ => true
  | x :: p', y :: s' => N.eqb x y && startsWith s' p'
  | _ :: _, [] => false
  end.

(** [s.split(',')[1]]: the segment between the first and the second comma,
    [undefined] ([None]) when [s] has no comma. *)
Fixpoint upto_comma (s : JsString) : JsString :=
  match s with
  | [] => []
  | c :: s' => if N.eqb c 44 then [] else c :: upto_comma s'
  end.

Fixpoint split_comma_1 (s : JsString) : option JsString :=
  match s with
  | [] => None
  | c :: s' => if N.eqb c 44 then Some (upto_comma s') else split_comma_1 s'
  end.

(** A template literal's [${x}] for a value that is a string or [undefined]. *)
Definition interpolate (x : option JsString) : JsString :=
  match x with
  | Some s => s
  | None => js "undefined"
  end.

(* ================================================================== *)
(** ** JavaScript values, as [JSON.parse] and object literals build them *)

(** A JSON number literal denotes a decimal, [(-1)^neg * mantissa * 10^exp10];
    the engine keeps the double nearest to it. *)
Record Decimal := mkDecimal { neg : bool; mantissa : N; exp10 : Z }.

Inductive JsValue :=
| JUndefined
| JNull
| JBool (b : bool)
| JNumber (d : Decimal)
| JString (s : JsString)
| JArray (items : list JsValue)
| JObject (props : list (JsString * JsValue)).

(** The nearest double is [+0] or [-0] exactly when the decimal is zero or
    at most half the least subnormal, 2^-1075 (the tie goes to the even 0). *)
Definition rounds_to_zero (d : Decimal) : bool :=
  N.eqb (mantissa d) 0
  || (Z.ltb (exp10 d) 0
      && Z.leb (Z.of_N (mantissa d) * 2 ^ 1075) (10 ^ (- exp10 d))).

(** [ToBoolean]: what [!x] negates. *)
Definition ToBoolean (v : JsValue) : bool :=
  match v with
  | JUndefined | JNull => false
  | JBool b => b
  | JNumber d => negb (rounds_to_zero d)
  | JString s => match s with [] => false | _ => true end
  | JArray _ | JObject _ => true
  end.

Definition Array_isArray (v : JsValue) : bool :=
  match v with
  | JArray _ => true
  | _ => false
  end.

(** Own properties are kept in insertion order, one entry per key. *)
Fixpoint lookup_prop (k : JsString) (props : list (JsString * JsValue))
  : option JsValue :=
  match props with
  | [] => None
  | (k', v) :: rest => if jseq k k' then Some v else lookup_prop k rest
  end.

Fixpoint set_prop (k : JsString) (v : JsValue)
         (props : list (JsString * JsValue)) : list (JsString * JsValue) :=
  match props with
  | [] => [(k, v)]
  | (k', v') :: rest =>
      if jseq k k' then (k', v) :: rest else (k', v') :: set_prop k v rest
  end.

(** [v.k] for a key [k] that no prototype defines ([description],
    [keywords]): [None] is the TypeError of reading a property of [null] or
    [undefined]; primitives and arrays have no such property. *)
Definition get_member (v : JsValue) (k : JsString) : option JsValue :=
  match v with
  | JUndefined | JNull => None
  | JObject props =>
      match lookup_prop k props with
      | Some x => Some x
      | None => Some JUndefined
      end
  | _ => Some JUndefined
  end.

(* ================================================================== *)
(** ** [JSON.parse] *)

Inductive Parsed (A : Type) :=
| Got (a : A) (rest : JsString)
| Bad
| OutOfFuel.
Arguments Bad {A}.
Arguments OutOfFuel {A}.

(** JSON white space: tab, line feed, carriage return, space. *)
Definition is_json_ws (c : N) : bool :=
  N.eqb c 9 || N.eqb c 10 || N.eqb c 13 || N.eqb c 32.

Fixpoint skip_json_ws (s : JsString) : JsString :=
  match s with
  | c :: s' => if is_json_ws c then skip_json_ws s' else s
  | [] => []
  end.

Definition is_digit (c : N) : bool := N.leb 48 c && N.leb c 57.

Definition hex_value (c : N) : option N :=
  if N.leb 48 c && N.leb c 57 then Some (c - 48)
  else if N.leb 65 c && N.leb c 70 then Some (c - 55)
  else if N.leb 97 c && N.leb c 102 then Some (c - 87)
  else None.

(** One escape, after the backslash. *)
Definition parse_escape (s : JsString) : option (N * JsString) :=
  match s with
  | c :: r =>
      if N.eqb c 34 then Some (34, r)
      else if N.eqb c 92 then Some (92, r)
      else if N.eqb c 47 then Some (47, r)
      else if N.eqb c 98 then Some (8, r)
      else if N.eqb c 102 then Some (12, r)
      else if N.eqb c 110 then Some (10, r)
      else if N.eqb c 114 then Some (13, r)
      else if N.eqb c 116 then Some (9, r)
      else if N.eqb c 117 then
        match r with
        | h1 :: h2 :: h3 :: h4 :: r' =>
            match hex_value h1, hex_value h2, hex_value h3, hex_value h4 with
            | Some a, Some b, Some c', Some d =>
                Some (((a * 16 + b) * 16 + c') * 16 + d, r')
            | _, _, _, _ => None
            end
        | _ => None
        end
      else None
  | [] => None
  end.

(** The characters of a string after its opening quote, up to and including
    the closing one.  [fuel] bounds the characters read. *)
Fixpoint parse_chars (fuel : nat) (s : JsString) : option (JsString * JsString) :=
  match fuel with
  | O => None
  | S n =>
      match s with
      | [] => None
      | c :: r =>
          if N.eqb c 34 then Some ([], r)
          else if N.eqb c 92 then
            match parse_escape r with
            | Some (u, r') =>
                match parse_chars n r' with
                | Some (str, rest) => Some (u :: str, rest)
                | None => None
                end
            | None => None
            end
          else if N.ltb c 32 then None
          else
            match parse_chars n r with
            | Some (str, rest) => Some (c :: str, rest)
            | None => None
            end
      end
  end.

Definition parse_string (s : JsString) : option (JsString * JsString) :=
  parse_chars (List.length s) s.

(** A run of digits read into an accumulator; also counts them. *)
Fixpoint parse_digits (acc : N) (count : nat) (s : JsString) : N * nat * JsString :=
  match s with
  | c :: r =>
      if is_digit c then parse_digits (acc * 10 + (c - 48)) (S count) r
      else (acc, count, s)
  | [] => (acc, count, [])
  end.

(** [int]: a single 0, or a non-zero digit followed by digits. *)
Definition parse_int (s : JsString) : option (N * JsString) :=
  match s with
  | c :: r =>
      if N.eqb c 48 then Some (0, r)
      else if is_digit c then
        let '(m, _, r') := parse_digits (c - 48) 1 r in Some (m, r')
      else None
  | [] => None
  end.

(** [frac]: an optional dot followed by at least one digit. *)
Definition parse_frac (m : N) (s : JsString) : option (N * nat * JsString) :=
  match s with
  | c :: r =>
      if N.eqb c 46 then
        let '(m', k, r') := parse_digits m 0 r in
        match k with
        | O => None
        | S _ => Some (m', k, r')
        end
      else Some (m, O, s)
  | [] => Some (m, O, [])
  end.

(** [exp]: an optional e or E, an optional sign, at least one digit. *)
Definition parse_exp (s : JsString) : option (Z * JsString) :=
  match s with
  | c :: r =>
      if N.eqb c 101 || N.eqb c 69 then
        let '(sign, r1) :=
          match r with
          | c' :: r' =>
              if N.eqb c' 45 then (true, r')
              else if N.eqb c' 43 then (false, r')
              else (false, r)
          | [] => (false, r)
          end in
        let '(e, k, r2) := parse_digits 0 0 r1 in
        match k with
        | O => None
        | S _ => Some (if sign then (- Z.of_N e)%Z else Z.of_N e, r2)
        end
      else Some (0%Z, s)
  | [] => Some (0%Z, [])
  end.

Definition parse_number (s : JsString) : option (Decimal * JsString) :=
  let '(sign, s1) :=
    match s with
    | c :: r => if N.eqb c 45 then (true, r) else (false, s)
    | [] => (false, s)
    end in
  match parse_int s1 with
  | Some (m, s2) =>
      match parse_frac m s2 with
      | Some (m', k, s3) =>
          match parse_exp s3 with
          | Some (e, s4) => Some (mkDecimal sign m' (e - Z.of_nat k), s4)
          | None => None
          end
      | None => None
      end
  | None => None
  end.

(** [true], [false] and [null]. *)
Definition parse_literal (s : JsString) : option (JsValue * JsString) :=
  if startsWith s (js "true") then Some (JBool true, skipn 4 s)
  else if startsWith s (js "false") then Some (JBool false, skipn 5 s)
  else if startsWith s (js "null") then Some (JNull, skipn 4 s)
  else None.

(** A value, the elements of an array after its opening bracket, and the
    members of an object after its opening brace. *)
Fixpoint parse_value (fuel : nat) (s : JsString) : Parsed JsValue :=
  match fuel with
  | O => OutOfFuel
  | S n =>
      match skip_json_ws s with
      | [] => Bad
      | c :: r =>
          if N.eqb c 123 then
            match skip_json_ws r with
            | c' :: r' =>
                if N.eqb c' 125 then Got (JObject []) r'
                else parse_members n [] (c' :: r')
            | [] => Bad
            end
          else if N.eqb c 91 then
            match skip_json_ws r with
            | c' :: r' =>
                if N.eqb c' 93 then Got (JArray []) r'
                else parse_elements n [] (c' :: r')
            | [] => Bad
            end
          else if N.eqb c 34 then
            match parse_string r with
            | Some (str, rest) => Got (JString str) rest
            | None => Bad
            end
          else if N.eqb c 45 || is_digit c then
            match parse_number (c :: r) with
            | Some (d, rest) => Got (JNumber d) rest
            | None => Bad
            end
          else
            match parse_literal (c :: r) with
            | Some (v, rest) => Got v rest
            | None => Bad
            end
      end
  end
with parse_elements (fuel : nat) (acc : list JsValue) (s : JsString)
  : Parsed JsValue :=
  match fuel with
  | O => OutOfFuel
  | S n =>
      match parse_value n s with
      | Got v r =>
          match skip_json_ws r with
          | c :: r' =>
              if N.eqb c 44 then parse_elements n (v :: acc) r'
              else if N.eqb c 93 then Got (JArray (rev (v :: acc))) r'
              else Bad
          | [] => Bad
          end
      | Bad => Bad
      | OutOfFuel => OutOfFuel
      end
  end
with parse_members (fuel : nat) (acc : list (JsString * JsValue)) (s : JsString)
  : Parsed JsValue :=
  match fuel with
  | O => OutOfFuel
  | S n =>
      match skip_json_ws s with
      | c :: r =>
          if N.eqb c 34 then
            match parse_string r with
            | Some (k, r1) =>
                match skip_json_ws r1 with
                | c1 :: r2 =>
                    if N.eqb c1 58 then
                      match parse_value n r2 with
                      | Got v r3 =>
                          match skip_json_ws r3 with
                          | c3 :: r4 =>
                              if N.eqb c3 44 then parse_members n (set_prop k v acc) r4
                              else if N.eqb c3 125 then Got (JObject (set_prop k v acc)) r4
                              else Bad
                          | [] => Bad
                          end
                      | Bad => Bad
                      | OutOfFuel => OutOfFuel
                      end
                    else Bad
                | [] => Bad
                end
            | None => Bad
            end
          else Bad
      | [] => Bad
      end
  end.

(** [JSON.parse(text)]: the value, or [None] for the SyntaxError it throws.
    The fuel is enough for every text (see [parse_value_fuel]). *)
Definition JSON_parse (text : JsString) : option JsValue :=
  match parse_value (2 * List.length text + 1)%nat text with
  | Got v rest =>
      match skip_json_ws rest with
      | [] => Some v
      | _ :: _ => None
      end
  | Bad => None
  | OutOfFuel => None
  end.

(* ================================================================== *)
(** ** Regular expressions: the fragment [jsonRegex] is written in *)

(** A pattern is a sequence of items; the parentheses of capture group 1
    are items of their own. *)
Inductive Item :=
| Lit (c : N)                  (* a literal code unit *)
| Greedy (cls : N -> bool)     (* cls*  : as many as possible first *)
| Lazy (cls : N -> bool)       (* cls*? : as few as possible first *)
| Open                         (* ( *)
| Close.                       (* ) *)

(** The group's state while matching: whether it is open, and the code
    units it has taken so far, last first. *)
Definition Group := (bool * JsString)%type.

Definition consume (x : N) (g : Group) : Group :=
  if fst g then (true, x :: snd g) else g.

(** [cls*] followed by [k]: take code units of the class while they
    last, then give back one at a time until [k] matches. *)
Fixpoint greedy_star (cls : N -> bool) (k : Group -> JsString -> option JsString)
         (g : Group) (s : JsString) {struct s} : option JsString :=
  match s with
  | x :: s' =>
      if cls x then
        match greedy_star cls k (consume x g) s' with
        | Some r => Some r
        | None => k g s
        end
      else k g s
  | [] => k g []
  end.

(** [cls*?] followed by [k]: try [k] first, take one more code unit of the
    class each time it fails. *)
Fixpoint lazy_star (cls : N -> bool) (k : Group -> JsString -> option JsString)
         (g : Group) (s : JsString) {struct s} : option JsString :=
  match k g s with
  | Some r => Some r
  | None =>
      match s with
      | x :: s' => if cls x then lazy_star cls k (consume x g) s' else None
      | [] => None
      end
  end.

(** The backtracking matcher, anchored at the start of [s]: the first way
    to match in the order the alternatives are tried; it answers with the
    text of group 1. *)
Fixpoint match_here (re : list Item) (g : Group) (s : JsString) {struct re}
  : option JsString :=
  match re with
  | [] => Some (rev (snd g))
  | Lit c :: re' =>
      match s with
      | x :: s' => if N.eqb x c then match_here re' (consume x g) s' else None
      | [] => None
      end
  | Greedy cls :: re' => greedy_star cls (match_here re') g s
  | Lazy cls :: re' => lazy_star cls (match_here re') g s
  | Open :: re' => match_here re' (true, []) s
  | Close :: re' => match_here re' (false, snd g) s
  end.

(** [s.match(re)] for a pattern without the g flag: the leftmost start at
    which the pattern matches; [Some m] stands for the match array, of which
    only [m[1]] is kept. *)
Fixpoint regex_match (re : list Item) (s : JsString) : option JsString :=
  match match_here re (false, []) s with
  | Some r => Some r
  | None =>
      match s with
      | _ :: s' => regex_match re s'
      | [] => None
      end
  end.

(** [\s]: WhiteSpace and LineTerminator code units. *)
Definition is_space (c : N) : bool :=
  (N.leb 9 c && N.leb c 13) || N.eqb c 32 || N.eqb c 160 || N.eqb c 5760
  || (N.leb 8192 c && N.leb c 8202) || N.eqb c 8232 || N.eqb c 8233
  || N.eqb c 8239 || N.eqb c 8287 || N.eqb c 12288 || N.eqb c 65279.

(** [[\s\S]]: any code unit. *)
Definition any_unit (c : N) : bool := is_space c || negb (is_space c).

Definition lits (s : JsString) : list Item := map Lit s.

(** [/```json\s*([\s\S]*?)\s*```/] *)
Definition jsonRegex : list Item :=
  lits (js "```json") ++ [Greedy is_space; Open; Lazy any_unit; Close; Greedy is_space]
  ++ lits (js "```").

(** [const match = responseText.match(jsonRegex);
     const cleanText = match ? match[1] : responseText;] *)
Definition cleanText (responseText : JsString) : JsString :=
  match regex_match jsonRegex responseText with
  | Some m1 => m1
  | None => responseText
  end.

(* ================================================================== *)
(** ** Exceptions and effects *)

Inductive ErrorClass :=
| Error
| SyntaxError
| TypeError
| DOMException (name : JsString).

Record JsError := mkError { cls : ErrorClass; message : JsString }.

(** What a [throw] or a rejected promise carries. *)
Inductive Thrown :=
| ThrownError (e : JsError)
| ThrownValue (v : JsValue).

(** [new Error(msg)] *)
Definition new_Error (msg : JsString) : Thrown := ThrownError (mkError Error msg).

(** [err instanceof Error]: every error class derives from [Error]. *)
Definition instanceof_Error (t : Thrown) : bool :=
  match t with
  | ThrownError _ => true
  | ThrownValue _ => false
  end.

Definition instanceof_SyntaxError (t : Thrown) : bool :=
  match t with
  | ThrownError (mkError SyntaxError _) => true
  | _ => false
  end.

Definition instanceof_DOMException (t : Thrown) : option JsString :=
  match t with
  | ThrownError (mkError (DOMException name) _) => Some name
  | _ => None
  end.

(** How a call ends, or how a promise settles. *)
Inductive Outcome (A : Type) :=
| Ok (a : A)
| Threw (e : Thrown).
Arguments Threw {A}.

(** Handlers: state passing with exceptions; the state survives a throw. *)
Definition M (S A : Type) := S -> Outcome A * S.

Definition ret {S A} (a : A) : M S A := fun s => (Ok a, s).
Definition throw {S A} (e : Thrown) : M S A := fun s => (Threw e, s).
Definition bind {S A B} (m : M S A) (k : A -> M S B) : M S B :=
  fun s =>
    match m s with
    | (Ok a, s') => k a s'
    | (Threw e, s') => (Threw e, s')
    end.
Definition try_catch {S A} (body : M S A) (handler : Thrown -> M S A) : M S A :=
  fun s =>
    match body s with
    | (Ok a, s') => (Ok a, s')
    | (Threw e, s') => handler e s'
    end.
Definition get {S} : M S S := fun s => (Ok s, s).
Definition modify {S} (f : S -> S) : M S unit := fun s => (Ok tt, f s).
(** [await p] for a promise that settles as [o]. *)
Definition await {S A} (o : Outcome A) : M S A := fun s => (o, s).

Declare Scope js_scope.
Delimit Scope js_scope with js.
Notation "x <- m ;; k" := (bind m (fun x => k))
  (at level 61, m at next level, right associativity) : js_scope.
Notation "m ;; k" := (bind m (fun _ => k))
  (at level 61, right associativity) : js_scope.
Local Open Scope js_scope.

(* ================================================================== *)
(** ** The browser's [window] *)

(** [window.ai]: both calls answer with a promise. *)
Record AI := mkAI {
  ai_prompt : JsString -> Outcome JsString;
  ai_canCreateTextSession : Outcome JsString
}.

Record Utterance := mkUtterance {
  u_text : JsString; u_lang : JsString; u_rate : Decimal; u_pitch : Decimal
}.

Inductive ConsoleEntry :=
| Warn (msg : JsString)                       (* console.warn(msg) *)
| ErrorWith (label : JsString) (e : Thrown)   (* console.error(label, e) *)
| ErrorOf (e : Thrown).                       (* console.error(e) *)

(** A media stream is the list of its tracks. *)
Definition MediaStream := list nat.

Record Window := mkWindow {
  ai : option AI;                             (* window.ai *)
  speechSynthesis : option (list Utterance);  (* its utterance queue *)
  mediaDevices : bool;                        (* navigator.mediaDevices.getUserMedia *)
  isMobile : bool;                            (* /Mobi/i.test(navigator.userAgent) *)
  (* texts the engine words itself *)
  syntaxErrorMessage : JsString -> JsString;  (* JSON.parse's SyntaxError, by text *)
  nullReadMessage : JsString -> JsString;     (* reading a property of null, by key *)
  undefinedReadMessage : JsString -> JsString;
  (* what the page has done so far *)
  console : list ConsoleEntry;                (* oldest first *)
  timers : list N;                            (* delays of the timeouts waited for *)
  revoked : list JsString;                    (* URL.revokeObjectURL calls *)
  liveTracks : list nat                       (* camera tracks still capturing *)
}.

Definition console_log (e : ConsoleEntry) : M Window unit :=
  modify (fun w =>
    mkWindow (ai w) (speechSynthesis w) (mediaDevices w) (isMobile w)
             (syntaxErrorMessage w) (nullReadMessage w) (undefinedReadMessage w)
             (console w ++ [e]) (timers w) (revoked w) (liveTracks w)).

(** [new Promise(resolve => setTimeout(() => resolve(v), ms))], awaited. *)
Definition after_timeout {A} (ms : N) (v : A) : M Window A :=
  modify (fun w =>
    mkWindow (ai w) (speechSynthesis w) (mediaDevices w) (isMobile w)
             (syntaxErrorMessage w) (nullReadMessage w) (undefinedReadMessage w)
             (console w) (timers w ++ [ms]) (revoked w) (liveTracks w)) ;;
  ret v.

Definition URL_revokeObjectURL (url : JsString) : M Window unit :=
  modify (fun w =>
    mkWindow (ai w) (speechSynthesis w) (mediaDevices w) (isMobile w)
             (syntaxErrorMessage w) (nullReadMessage w) (undefinedReadMessage w)
             (console w) (timers w) (revoked w ++ [url]) (liveTracks w)).

Definition set_speech (q : option (list Utterance)) (w : Window) : Window :=
  mkWindow (ai w) q (mediaDevices w) (isMobile w)
           (syntaxErrorMessage w) (nullReadMessage w) (undefinedReadMessage w)
           (console w) (timers w) (revoked w) (liveTracks w).

Definition set_liveTracks (l : list nat) (w : Window) : Window :=
  mkWindow (ai w) (speechSynthesis w) (mediaDevices w) (isMobile w)
           (syntaxErrorMessage w) (nullReadMessage w) (undefinedReadMessage w)
           (console w) (timers w) (revoked w) l.

(** [window.speechSynthesis.cancel()]: empties the queue; a TypeError where
    [window.speechSynthesis] is undefined. *)
Definition speechSynthesis_cancel : M Window unit :=
  w <- get ;;
  match speechSynthesis w with
  | Some _ => modify (set_speech (Some []))
  | None => throw (ThrownError (mkError TypeError (undefinedReadMessage w (js "cancel"))))
  end.

(** [window.speechSynthesis.speak(utterance)]: adds it to the queue. *)
Definition speechSynthesis_speak (u : Utterance) : M Window unit :=
  w <- get ;;
  match speechSynthesis w with
  | Some q => modify (set_speech (Some (q ++ [u])))
  | None => throw (ThrownError (mkError TypeError (undefinedReadMessage w (js "speak"))))
  end.

(** [track.stop()] *)
Definition track_stop (t : nat) : M Window unit :=
  modify (fun w => set_liveTracks (filter (fun x => negb (Nat.eqb x t)) (liveTracks w)) w).

(** [JSON.parse(text)] as a call that may throw. *)
Definition JSON_parse_call (text : JsString) : M Window JsValue :=
  w <- get ;;
  match JSON_parse text with
  | Some v => ret v
  | None => throw (ThrownError (mkError SyntaxError (syntaxErrorMessage w text)))
  end.

(** [v.k] as a read that may throw. *)
Definition read_member (v : JsValue) (k : JsString) : M Window JsValue :=
  w <- get ;;
  match get_member v k with
  | Some x => ret x
  | None =>
      throw (ThrownError (mkError TypeError
        (match v with
         | JUndefined => undefinedReadMessage w k
         | _ => nullReadMessage w k
         end)))
  end.

(** A component's handler sees its own state and the window. *)
Definition liftW {S A} (m : M Window A) : M (S * Window) A :=
  fun sw =>
    match m (snd sw) with
    | (o, w') => (o, (fst sw, w'))
    end.

(** A React state setter.  The setters a handler calls in one task take
    effect together, at the render that follows (React batches them). *)
Definition set_state {S} (f : S -> S) : M (S * Window) unit :=
  modify (fun sw => (f (fst sw), snd sw)).

(** [list.forEach(f)] *)
Fixpoint forEach {S A} (l : list A) (f : A -> M S unit) : M S unit :=
  match l with
  | [] => ret tt
  | x :: l' => f x ;; forEach l' f
  end.

(* ================================================================== *)
(** ** types.ts *)

(** [interface AnalysisResult { description; keywords; phonetics? }].  The
    interface is erased at run time: what [JSON.parse(...) as AnalysisResult]
    yields is whatever value the text denotes. *)
Definition AnalysisResult := JsValue.

(** ['idle' | 'processing' | 'success' | 'error'], in that order; [Failed]
    is ['error'], a name the error classes and the [error] state need. *)
Inductive ProcessingStatus := Idle | Processing | Success | Failed.

(* ================================================================== *)
(** ** services/chromeAiService.ts *)

Definition mockResult : AnalysisResult :=
  JObject
    [ (js "description",
       JString (js "A cute, fluffy Corgi puppy is sitting on a vibrant green grass field."));
      (js "keywords",
       JArray [JString (js "corgi"); JString (js "puppy"); JString (js "grass");
               JString (js "dog"); JString (js "cute")]);
      (js "phonetics",
       JObject [ (js "corgi", JString (js "kor-gee"));
                 (js "puppy", JString (js "puh-pee"));
                 (js "grass", JString (js "gras"));
                 (js "dog", JString (js "dog"));
                 (js "cute", JString (js "kyoot")) ]) ].

Definition mockAdvisory : JsString :=
  js "Built-in AI not found. Returning a mock response for development.".

Definition getMockAIResponse : M Window AnalysisResult :=
  console_log (Warn mockAdvisory) ;;
  after_timeout 1200 mockResult.

Definition prompt : JsString :=
  js "
You are a language learning assistant. Your task is to analyze an image and provide educational content for an English language learner.

Analyze the image and respond strictly with a JSON object that has three keys:
1. "
  ++ dq ++ js "description"
  ++ dq ++ js ": A short, simple, descriptive sentence about the main subject of the image.
2. "
  ++ dq ++ js "keywords"
  ++ dq ++ js ": An array of 3-5 strings, where each string is a key noun or object visible in the image. The words should be in lowercase.
3. "
  ++ dq ++ js "phonetics"
  ++ dq ++ js ": A JSON object where keys are the words from the "
  ++ dq ++ js "keywords"
  ++ dq ++ js " array and values are their simple, easy-to-read phonetic spellings (e.g., "
  ++ dq ++ js "hello"
  ++ dq ++ js " -> "
  ++ dq ++ js "heh-loh"
  ++ dq ++ js ").

Example response:
{
  "
  ++ dq ++ js "description"
  ++ dq ++ js ": "
  ++ dq ++ js "A fluffy white cat is sleeping on a blue sofa."
  ++ dq ++ js ",
  "
  ++ dq ++ js "keywords"
  ++ dq ++ js ": ["
  ++ dq ++ js "cat"
  ++ dq ++ js ", "
  ++ dq ++ js "sofa"
  ++ dq ++ js ", "
  ++ dq ++ js "sleeping"
  ++ dq ++ js ", "
  ++ dq ++ js "white"
  ++ dq ++ js ", "
  ++ dq ++ js "fluffy"
  ++ dq ++ js "],
  "
  ++ dq ++ js "phonetics"
  ++ dq ++ js ": {
    "
  ++ dq ++ js "cat"
  ++ dq ++ js ": "
  ++ dq ++ js "kat"
  ++ dq ++ js ",
    "
  ++ dq ++ js "sofa"
  ++ dq ++ js ": "
  ++ dq ++ js "so-fa"
  ++ dq ++ js ",
    "
  ++ dq ++ js "sleeping"
  ++ dq ++ js ": "
  ++ dq ++ js "sleep-ing"
  ++ dq ++ js ",
    "
  ++ dq ++ js "white"
  ++ dq ++ js ": "
  ++ dq ++ js "wite"
  ++ dq ++ js ",
    "
  ++ dq ++ js "fluffy"
  ++ dq ++ js ": "
  ++ dq ++ js "fluh-fee"
  ++ dq ++ js "
  }
}

Do not include any text or formatting outside of the JSON object.
".

Definition invalidFormatMessage : JsString :=
  js "AI returned an invalid response format.".

Definition notUnderstoodMessage : JsString :=
  js "The AI returned a response that we couldn't understand. Please try again.".

(** [if (!result.description || !Array.isArray(result.keywords)) throw ...;
     return result;] *)
Definition validate (result : JsValue) : M Window AnalysisResult :=
  description <- read_member result (js "description") ;;
  invalid <- (if negb (ToBoolean description) then ret true
              else keywords <- read_member result (js "keywords") ;;
                   ret (negb (Array_isArray keywords))) ;;
  if (invalid : bool) then throw (new_Error invalidFormatMessage)
  else ret result.

(** The [catch (error)] block of [analyzeImage]. *)
Definition analyzeImage_catch (error : Thrown) : M Window AnalysisResult :=
  console_log (ErrorWith (js "Error analyzing image with Chrome AI:") error) ;;
  if instanceof_SyntaxError error then throw (new_Error notUnderstoodMessage)
  else throw error.

(** [window.ai.prompt(fullPrompt)], awaited. *)
Definition window_ai_prompt (fullPrompt : JsString) : M Window JsString :=
  w <- get ;;
  match ai w with
  | Some a => await (ai_prompt a fullPrompt)
  | None => throw (ThrownError (mkError TypeError (undefinedReadMessage w (js "prompt"))))
  end.

(** [!window.ai || (await window.ai.canCreateTextSession()) === 'no'] *)
Definition unavailable : M Window bool :=
  w <- get ;;
  match ai w with
  | None => ret true
  | Some a => answer <- await (ai_canCreateTextSession a) ;; ret (jseq answer (js "no"))
  end.

Definition analyzeImage (base64ImageData : JsString) : M Window AnalysisResult :=
  fallback <- unavailable ;;
  if (fallback : bool) then getMockAIResponse
  else
    try_catch
      (let fullPrompt := prompt ++ js "

IMAGE_BASE64:" ++ base64ImageData in
       responseText <- window_ai_prompt fullPrompt ;;
       result <- JSON_parse_call (cleanText responseText) ;;
       validate result)
      analyzeImage_catch.

(* ================================================================== *)
(** ** utils/speech.ts *)

Definition speechAdvisory : JsString :=
  js "Browser does not support the Web Speech API.".

Definition one : Decimal := mkDecimal false 10 (-1).

(** [speak(text, lang = 'en-US')] *)
Definition speak (text : JsString) (lang : option JsString) : M Window unit :=
  let lang := match lang with Some l => l | None => js "en-US" end in
  w <- get ;;
  match speechSynthesis w with
  | None => console_log (Warn speechAdvisory)
  | Some _ =>
      speechSynthesis_cancel ;;
      speechSynthesis_speak (mkUtterance text lang one one)
  end.

(* ================================================================== *)
(** ** components/ImageAnalyzer.tsx *)

Module ImageAnalyzer.

(** The component's [useState] cells. *)
Record State := mkState {
  imagePreviewUrl : option JsString;
  status : ProcessingStatus;
  result : option AnalysisResult;
  error : option JsString;
  isCameraOpen : bool
}.

Definition init : State := mkState None Idle None None false.

Definition setImagePreviewUrl (v : option JsString) : M (State * Window) unit :=
  set_state (fun s => mkState v (status s) (result s) (error s) (isCameraOpen s)).
Definition setStatus (v : ProcessingStatus) : M (State * Window) unit :=
  set_state (fun s => mkState (imagePreviewUrl s) v (result s) (error s) (isCameraOpen s)).
Definition setResult (v : option AnalysisResult) : M (State * Window) unit :=
  set_state (fun s => mkState (imagePreviewUrl s) (status s) v (error s) (isCameraOpen s)).
Definition setError (v : option JsString) : M (State * Window) unit :=
  set_state (fun s => mkState (imagePreviewUrl s) (status s) (result s) v (isCameraOpen s)).
Definition setIsCameraOpen (v : bool) : M (State * Window) unit :=
  set_state (fun s => mkState (imagePreviewUrl s) (status s) (result s) (error s) v).

(** [resetState(fullReset = true)].  The preview it reads is the one of
    the render whose button was clicked, which is the current one; the
    copy [processAnalysis] holds is called with [false] and reads none. *)
Definition resetState (fullReset : bool) : M (State * Window) unit :=
  sw <- get ;;
  (match imagePreviewUrl (fst sw) with
   | Some url =>
       if fullReset && match url with [] => false | _ => true end
          && startsWith url (js "blob:")
       then liftW (URL_revokeObjectURL url)
       else ret tt
   | None => ret tt
   end) ;;
  (if fullReset then setImagePreviewUrl None else ret tt) ;;
  setStatus Idle ;;
  setResult None ;;
  setError None ;;
  liftW speechSynthesis_cancel.

Definition unknownErrorMessage : JsString := js "An unknown error occurred.".

(** [processAnalysis(base64Data, previewUrl)] up to its [await]: what runs
    before [analyzeImage(base64Data)] is called.  A throw here rejects
    the promise of [processAnalysis] and [analyzeImage] is not called. *)
Definition processAnalysis_begin (previewUrl : JsString) : M (State * Window) unit :=
  resetState false ;;
  setImagePreviewUrl (Some previewUrl) ;;
  setStatus Processing.

(** [processAnalysis] after its [await], once the promise of
    [analyzeImage] has settled. *)
Definition processAnalysis_resume (settled : Outcome AnalysisResult)
  : M (State * Window) unit :=
  match settled with
  | Ok analysisResult =>
      setResult (Some analysisResult) ;;
      setStatus Success
  | Threw err =>
      liftW (console_log (ErrorOf err)) ;;
      let errorMessage :=
        match err with
        | ThrownError e => message e
        | ThrownValue _ => unknownErrorMessage
        end in
      setError (Some errorMessage) ;;
      setStatus Failed
  end.

End ImageAnalyzer.

(* ================================================================== *)
(** ** components/CameraCapture.tsx *)

Module CameraCapture.

Record State := mkState {
  streamRef : option MediaStream;     (* streamRef.current *)
  srcObject : option MediaStream;     (* of the video element, while rendered *)
  error : option JsString;
  isLoading : bool
}.

Definition init : State := mkState None None None true.

Definition setStreamRef (v : option MediaStream) : M (State * Window) unit :=
  set_state (fun s => mkState v (srcObject s) (error s) (isLoading s)).
Definition setSrcObject (v : option MediaStream) : M (State * Window) unit :=
  set_state (fun s => mkState (streamRef s) v (error s) (isLoading s)).
Definition setError (v : option JsString) : M (State * Window) unit :=
  set_state (fun s => mkState (streamRef s) (srcObject s) v (isLoading s)).
Definition setIsLoading (v : bool) : M (State * Window) unit :=
  set_state (fun s => mkState (streamRef s) (srcObject s) (error s) v).

Definition stopCamera : M (State * Window) unit :=
  sw <- get ;;
  match streamRef (fst sw) with
  | Some stream =>
      forEach stream (fun track => liftW (track_stop track)) ;;
      setStreamRef None
  | None => ret tt
  end.

Definition genericMessage : JsString :=
  js "Could not access the camera. Please ensure you have a webcam connected and have granted permission in your browser.".
Definition deniedMessage : JsString :=
  js "Camera access was denied. Please grant permission in your browser settings to use this feature.".
Definition notFoundMessage : JsString :=
  js "No camera was found. Please make sure a webcam is connected.".

(** The [catch (err)] block of [startCamera]. *)
Definition startCamera_catch (err : Thrown) : M (State * Window) unit :=
  liftW (console_log (ErrorWith (js "Error accessing camera:") err)) ;;
  let message :=
    match instanceof_DOMException err with
    | Some name =>
        if jseq name (js "NotAllowedError") then deniedMessage
        else if jseq name (js "NotFoundError") then notFoundMessage
        else genericMessage
    | None => genericMessage
    end in
  setError (Some message) ;;
  setIsLoading false.

(** [startCamera()] up to its [await]; answers whether [getUserMedia] was
    called and is now pending. *)
Definition startCamera_begin : M (State * Window) bool :=
  setIsLoading true ;;
  setError None ;;
  sw <- get ;;
  if mediaDevices (snd sw) then ret true
  else
    startCamera_catch (new_Error (js "Camera not supported by this browser.")) ;;
    ret false.

(** [startCamera()] after its [await]; [mounted] says whether
    [videoRef.current] is set, that is whether the view is rendered. *)
Definition startCamera_resume (settled : Outcome MediaStream) (mounted : bool)
  : M (State * Window) unit :=
  match settled with
  | Ok stream =>
      setStreamRef (Some stream) ;;
      if mounted then setSrcObject (Some stream) else ret tt
  | Threw err => startCamera_catch err
  end.

(** [videoRef.current.onloadedmetadata] *)
Definition onloadedmetadata : M (State * Window) unit := setIsLoading false.

(** The effect on [[isOpen, stopCamera]], run after a render in which
    [isOpen] changed: first the clean-up the previous run returned, then
    the body.  Answers whether [getUserMedia] is now pending. *)
Definition effect (isOpen : bool) : M (State * Window) bool :=
  stopCamera ;;
  if isOpen then startCamera_begin
  else stopCamera ;; ret false.

(** [if (!isOpen) return null;]: a closed view renders no video element,
    and a view that opens renders a new one. *)
Definition render (isOpen : bool) : M (State * Window) unit :=
  if isOpen then ret tt else setSrcObject None.

End CameraCapture.

(* ================================================================== *)
(** ** The page: both components, the window, and the promises in flight *)

Record App := mkApp {
  analyzer : ImageAnalyzer.State;
  camera : CameraCapture.State;
  window : Window;
  calls : list (nat * JsString);   (* analyzeImage calls in flight: number, payload *)
  nextCall : nat;                  (* calls of processAnalysis so far *)
  acquiring : nat                  (* getUserMedia calls in flight *)
}.

(** What can happen to the page. *)
Inductive Event :=
| Submit (base64Data previewUrl : JsString) (* processAnalysis(...), a file was read *)
| Settle (call : nat)                       (* analyzeImage of that call settles *)
| Reset                                     (* a click on a resetState(true) button *)
| CameraButton                              (* handleCameraButtonClick *)
| CloseView                                 (* the view's close button: onClose *)
| Acquired (stream : MediaStream)           (* getUserMedia resolves *)
| AcquireFailed (err : Thrown)              (* getUserMedia rejects *)
| LoadedMetadata                            (* the video element has its metadata *)
| Capture (frame : option JsString).        (* handleCapture; None: no 2d context *)

(** Run a handler of the analyzer; what it throws goes uncaught and the
    state it reached stays. *)
Definition in_analyzer {A} (m : M (ImageAnalyzer.State * Window) A) (a : App)
  : Outcome A * App :=
  match m (analyzer a, window a) with
  | (o, (s, w)) => (o, mkApp s (camera a) w (calls a) (nextCall a) (acquiring a))
  end.

Definition in_camera {A} (m : M (CameraCapture.State * Window) A) (a : App)
  : Outcome A * App :=
  match m (camera a, window a) with
  | (o, (c, w)) => (o, mkApp (analyzer a) c w (calls a) (nextCall a) (acquiring a))
  end.

(** A call of [processAnalysis]: it is numbered; if it reaches its [await],
    its [analyzeImage] is in flight. *)
Definition processAnalysis (base64Data previewUrl : JsString) (a : App) : App :=
  match in_analyzer (ImageAnalyzer.processAnalysis_begin previewUrl) a with
  | (Ok _, a') =>
      mkApp (analyzer a') (camera a') (window a')
            (calls a' ++ [(nextCall a', base64Data)]) (S (nextCall a')) (acquiring a')
  | (Threw _, a') =>
      mkApp (analyzer a') (camera a') (window a')
            (calls a') (S (nextCall a')) (acquiring a')
  end.

Fixpoint find_call (call : nat) (l : list (nat * JsString)) : option JsString :=
  match l with
  | [] => None
  | (n, d) :: l' => if Nat.eqb n call then Some d else find_call call l'
  end.

Definition drop_call (call : nat) (l : list (nat * JsString)) : list (nat * JsString) :=
  filter (fun nd => negb (Nat.eqb (fst nd) call)) l.

(** The promise of [analyzeImage] for a call in flight settles, and
    [processAnalysis] resumes with it. *)
Definition settle (call : nat) (a : App) : App :=
  match find_call call (calls a) with
  | None => a
  | Some base64Data =>
      match analyzeImage base64Data (window a) with
      | (settled, w) =>
          snd (in_analyzer (ImageAnalyzer.processAnalysis_resume settled)
                 (mkApp (analyzer a) (camera a) w
                        (drop_call call (calls a)) (nextCall a) (acquiring a)))
      end
  end.

(** [setIsCameraOpen(v)]: when the value changes, the view is rendered
    anew and its effect runs. *)
Definition setIsCameraOpen (v : bool) (a : App) : App :=
  if Bool.eqb (ImageAnalyzer.isCameraOpen (analyzer a)) v then a
  else
    let a1 := snd (in_analyzer (ImageAnalyzer.setIsCameraOpen v) a) in
    let a2 := snd (in_camera (CameraCapture.render v) a1) in
    match in_camera (CameraCapture.effect v) a2 with
    | (Ok true, a3) =>
        mkApp (analyzer a3) (camera a3) (window a3) (calls a3) (nextCall a3)
              (S (acquiring a3))
    | (_, a3) => a3
    end.

(** [handleCameraButtonClick]: on a mobile device the file input is
    clicked, which changes nothing until a file is read. *)
Definition handleCameraButtonClick (a : App) : App :=
  if isMobile (window a) then a else setIsCameraOpen true a.

(** [handleCameraCapture(imageDataUrl)]; a payload that [split(',')[1]]
    leaves undefined reaches only the template literal of [analyzeImage]. *)
Definition handleCameraCapture (imageDataUrl : JsString) (a : App) : App :=
  let base64Data := interpolate (split_comma_1 imageDataUrl) in
  processAnalysis base64Data imageDataUrl a.

(** [handleCapture]: the video and the canvas exist while the view is
    rendered. *)
Definition handleCapture (frame : option JsString) (a : App) : App :=
  if ImageAnalyzer.isCameraOpen (analyzer a) then
    match frame with
    | Some imageDataUrl => setIsCameraOpen false (handleCameraCapture imageDataUrl a)
    | None => a
    end
  else a.

Definition getUserMedia_settles (settled : Outcome MediaStream) (a : App) : App :=
  match acquiring a with
  | O => a
  | S n =>
      let w := match settled with
               | Ok stream => set_liveTracks (liveTracks (window a) ++ stream) (window a)
               | Threw _ => window a
               end in
      snd (in_camera
             (CameraCapture.startCamera_resume settled
                (ImageAnalyzer.isCameraOpen (analyzer a)))
             (mkApp (analyzer a) (camera a) w (calls a) (nextCall a) n))
  end.

Definition apply_event (e : Event) (a : App) : App :=
  match e with
  | Submit base64Data previewUrl => processAnalysis base64Data previewUrl a
  | Settle call => settle call a
  | Reset => snd (in_analyzer (ImageAnalyzer.resetState true) a)
  | CameraButton => handleCameraButtonClick a
  | CloseView => setIsCameraOpen false a
  | Acquired stream => getUserMedia_settles (Ok stream) a
  | AcquireFailed err => getUserMedia_settles (Threw err) a
  | LoadedMetadata => snd (in_camera CameraCapture.onloadedmetadata a)
  | Capture frame => handleCapture frame a
  end.

Fixpoint run (events : list Event) (a : App) : App :=
  match events with
  | [] => a
  | e :: rest => run rest (apply_event e a)
  end.

(** What the rendered page offers: the reset buttons show with an error or
    a result, the camera buttons while idle, the close button while the
    view is open, the capture button once the view has loaded without error;
    promises settle only while in flight. *)
Definition offered (e : Event) (a : App) : bool :=
  match e with
  | Submit _ _ => true
  | Settle call => match find_call call (calls a) with Some _ => true | None => false end
  | Reset =>
      match ImageAnalyzer.status (analyzer a), ImageAnalyzer.result (analyzer a) with
      | Failed, _ => true
      | Success, Some r => ToBoolean r
      | _, _ => false
      end
  | CameraButton =>
      match ImageAnalyzer.status (analyzer a) with Idle => true | _ => false end
  | CloseView => ImageAnalyzer.isCameraOpen (analyzer a)
  | Acquired _ | AcquireFailed _ => negb (Nat.eqb (acquiring a) 0)
  | LoadedMetadata =>
      match CameraCapture.srcObject (camera a) with Some _ => true | None => false end
  | Capture _ =>
      ImageAnalyzer.isCameraOpen (analyzer a)
      && negb (CameraCapture.isLoading (camera a))
      && match CameraCapture.error (camera a) with None => true | Some _ => false end
  end.

Fixpoint offered_all (events : list Event) (a : App) : bool :=
  match events with
  | [] => true
  | e :: rest => offered e a && offered_all rest (apply_event e a)
  end.

Definition mount (w : Window) : App :=
  mkApp ImageAnalyzer.init CameraCapture.init w [] O O.

(* ================================================================== *)
(** ** The fenced block, in the words of the specification *)

(** The first occurrence of [pat] in [s]: the text before it and the text
    after it. *)
Fixpoint find_sub (pat s : JsString) {struct s} : option (JsString * JsString) :=
  if startsWith s pat then Some ([], skipn (List.length pat) s)
  else
    match s with
    | [] => None
    | c :: s' =>
        match find_sub pat s' with
        | Some (pre, post) => Some (c :: pre, post)
        | None => None
        end
    end.

(** The contents of the fenced block: what stands between the first
    [```json] and the first [```] after it. *)
Definition fenced_block (text : JsString) : option JsString :=
  match find_sub (js "```json") text with
  | Some (_, after) =>
      match find_sub (js "```") after with
      | Some (body, _) => Some body
      | None => None
      end
  | None => None
  end.

(** The payload as the claim has it: exactly the contents of the block,
    else the text. *)
Definition payload_exact (text : JsString) : JsString :=
  match fenced_block text with
  | Some body => body
  | None => text
  end.

Fixpoint skip_space (s : JsString) : JsString :=
  match s with
  | c :: s' => if is_space c then skip_space s' else s
  | [] => []
  end.

Fixpoint trim_end (s : JsString) : JsString :=
  match s with
  | [] => []
  | c :: s' =>
      match trim_end s' with
      | [] => if is_space c then [] else [c]
      | t => c :: t
      end
  end.

(** White space removed at both ends. *)
Definition trim (s : JsString) : JsString := trim_end (skip_space s).

(** The payload with the white space around the contents removed. *)
Definition payload_trimmed (text : JsString) : JsString :=
  match fenced_block text with
  | Some body => trim body
  | None => text
  end.

(** Where the lazy group stops: at the first place from which white space
    and then the closing fence follow. *)
Definition closes (s : JsString) : bool := startsWith (skip_space s) (js "```").

Fixpoint lazy_spec (s : JsString) : option JsString :=
  if closes s then Some []
  else
    match s with
    | x :: s' =>
        match lazy_spec s' with
        | Some u => Some (x :: u)
        | None => None
        end
    | [] => None
    end.

(* ================================================================== *)
(** ** Browsers to run the page in *)

(** V8's wording. *)
Definition v8_read_of (base : string) (key : JsString) : JsString :=
  js "Cannot read properties of " ++ js base ++ js " (reading '" ++ key ++ js "')".

Definition catJson : JsString :=
  js "{" ++ quoted "description" ++ js ":" ++ quoted "A cat." ++ js ","
  ++ quoted "keywords" ++ js ":[" ++ quoted "cat" ++ js "],"
  ++ quoted "phonetics" ++ js ":{" ++ quoted "cat" ++ js ":" ++ quoted "kat" ++ js "}}".

Definition dogJson : JsString :=
  js "{" ++ quoted "description" ++ js ":" ++ quoted "A dog." ++ js ","
  ++ quoted "keywords" ++ js ":[" ++ quoted "dog" ++ js "]}".

Definition noKeywordsJson : JsString :=
  js "{" ++ quoted "description" ++ js ":" ++ quoted "A cat." ++ js ","
  ++ quoted "keywords" ++ js ":[]}".

Definition fullPromptPrefix : JsString := prompt ++ js "

IMAGE_BASE64:".

(** A completion capability that answers by the payload it is shown. *)
Definition sample_prompt (fullPrompt : JsString) : Outcome JsString :=
  let payload := skipn (List.length fullPromptPrefix) fullPrompt in
  if jseq payload (js "cat") then Ok (js "```json
" ++ catJson ++ js "
```")
  else if jseq payload (js "dog") then Ok dogJson
  else if jseq payload (js "null") then Ok (js "null")
  else if jseq payload (js "text") then Ok (js "not json")
  else if jseq payload (js "bare") then Ok noKeywordsJson
  else if jseq payload (js "nbsp") then Ok (js "```json" ++ [160] ++ catJson ++ [160] ++ js "```")
  else Threw (new_Error (js "The model is busy.")).

Definition sample_ai : AI := mkAI sample_prompt (Ok (js "readily")).

(** A browser with the completion capability, speech and a camera. *)
Definition chrome : Window :=
  mkWindow (Some sample_ai) (Some []) true false
           (fun _ => js "Unexpected token") (v8_read_of "null") (v8_read_of "undefined")
           [] [] [] [].

(** The same browser without [window.ai]. *)
Definition chrome_without_ai : Window :=
  mkWindow None (Some []) true false
           (fun _ => js "Unexpected token") (v8_read_of "null") (v8_read_of "undefined")
           [] [] [] [].

(** A browser whose capability reports that no session can be created. *)
Definition chrome_ai_off : Window :=
  mkWindow (Some (mkAI sample_prompt (Ok (js "no")))) (Some []) true false
           (fun _ => js "Unexpected token") (v8_read_of "null") (v8_read_of "undefined")
           [] [] [] [].

(** A browser without speech synthesis. *)
Definition mute : Window :=
  mkWindow (Some sample_ai) None true false
           (fun _ => js "Unexpected token") (v8_read_of "null") (v8_read_of "undefined")
           [] [] [] [].

(* ================================================================== *)
(** ** Vocabulary of the properties *)

(** What [analyzeImage] does with the text it hands to [JSON.parse]: the
    rest of its [try] block, under its [catch]. *)
Definition decode (payload : JsString) : M Window AnalysisResult :=
  try_catch (result <- JSON_parse_call payload ;; validate result) analyzeImage_catch.

(** The capability is there, says a session can be created, and answers
    the prompt for this image with [text]. *)
Definition answers (w : Window) (base64ImageData text : JsString) : Prop :=
  exists a answer,
    ai w = Some a
    /\ ai_canCreateTextSession a = Ok answer
    /\ jseq answer (js "no") = false
    /\ ai_prompt a (fullPromptPrefix ++ base64ImageData) = Ok text.

(** The capability is there, says a session can be created, and rejects
    the prompt for this image with [e]. *)
Definition refuses (w : Window) (base64ImageData : JsString) (e : Thrown) : Prop :=
  exists a answer,
    ai w = Some a
    /\ ai_canCreateTextSession a = Ok answer
    /\ jseq answer (js "no") = false
    /\ ai_prompt a (fullPromptPrefix ++ base64ImageData) = Threw e.

(** The capability is absent or reports that it is not available. *)
Definition fallback (w : Window) : Prop :=
  ai w = None
  \/ exists a, ai w = Some a /\ ai_canCreateTextSession a = Ok (js "no").

(** A decoded value has no non-empty [description]: there is none to read,
    or what is read is falsy. *)
Definition lacks_description (v : JsValue) : bool :=
  match get_member v (js "description") with
  | Some d => negb (ToBoolean d)
  | None => true
  end.

(** A decoded value has a [keywords] field that is not an array. *)
Definition keywords_not_array (v : JsValue) : bool :=
  match get_member v (js "keywords") with
  | Some k => negb (Array_isArray k)
  | None => true
  end.

Definition is_warn (e : ConsoleEntry) : bool :=
  match e with
  | Warn _ => true
  | _ => false
  end.

(** Neither [null] nor [undefined]. *)
Definition non_null (v : option JsValue) : bool :=
  match v with
  | Some JNull | Some JUndefined | None => false
  | Some _ => true
  end.

(** [result] is non-null iff the status is success, [error] is non-null iff
    the status is error. *)
Definition consistent (s : ImageAnalyzer.State) : Prop :=
  (non_null (ImageAnalyzer.result s) = true <-> ImageAnalyzer.status s = Success)
  /\ (ImageAnalyzer.error s <> None <-> ImageAnalyzer.status s = Failed).

(** The message [processAnalysis] stores for a failure. *)
Definition message_of (err : Thrown) : JsString :=
  match err with
  | ThrownError e => message e
  | ThrownValue _ => ImageAnalyzer.unknownErrorMessage
  end.

(** The state shows the outcome of a call: its status, and its result or
    its error message. *)
Definition shows (s : ImageAnalyzer.State) (settled : Outcome AnalysisResult) : Prop :=
  match settled with
  | Ok r => ImageAnalyzer.status s = Success /\ ImageAnalyzer.result s = Some r
  | Threw e => ImageAnalyzer.status s = Failed
               /\ ImageAnalyzer.error s = Some (message_of e)
  end.

(** The state is the one a call with that outcome produces on its own:
    status, result and error. *)
Definition produced_by (s : ImageAnalyzer.State) (settled : Outcome AnalysisResult) : Prop :=
  match settled with
  | Ok r => ImageAnalyzer.status s = Success /\ ImageAnalyzer.result s = Some r
            /\ ImageAnalyzer.error s = None
  | Threw e => ImageAnalyzer.status s = Failed /\ ImageAnalyzer.result s = None
               /\ ImageAnalyzer.error s = Some (message_of e)
  end.

(** The blob URL the preview holds, if it holds one. *)
Definition held_blob (s : ImageAnalyzer.State) : list JsString :=
  match ImageAnalyzer.imagePreviewUrl s with
  | Some url => if startsWith url (js "blob:") then [url] else []
  | None => []
  end.

(** The utterances being spoken or waiting to be. *)
Definition active_speech (w : Window) : list Utterance :=
  match speechSynthesis w with
  | Some q => q
  | None => []
  end.

(** Two windows of the same browser: the same capability and the same
    wording of the engine's errors. *)
Definition same_platform (w w' : Window) : Prop :=
  ai w = ai w'
  /\ nullReadMessage w = nullReadMessage w'
  /\ undefinedReadMessage w = undefinedReadMessage w'.

(** At most one interpretation is in flight after each event of the run. *)
Fixpoint single_flight (events : list Event) (a : App) : bool :=
  match events with
  | [] => true
  | e :: rest =>
      Nat.leb (List.length (calls (apply_event e a))) 1
      && single_flight rest (apply_event e a)
  end.

(** What the invariant of the state machine speaks of: status, result
    and error of the analyzer, and the calls in flight. *)
Definition core (a : App) :=
  (ImageAnalyzer.status (analyzer a), ImageAnalyzer.result (analyzer a),
   ImageAnalyzer.error (analyzer a), calls a).

(** The invariant, with what keeps it while a call is in flight: there is
    at most one, and result and error wait for it empty. *)
Definition settled_or_waiting (a : App) : Prop :=
  consistent (analyzer a)
  /\ (List.length (calls a) <= 1)%nat
  /\ (calls a <> [] -> ImageAnalyzer.result (analyzer a) = None
                       /\ ImageAnalyzer.error (analyzer a) = None).

(** The live tracks once those of a stream are stopped. *)
Definition stopped (stream : MediaStream) (live : list nat) : list nat :=
  filter (fun x => negb (existsb (Nat.eqb x) stream)) live.

(** Every track of the stream has been stopped. *)
Definition torn_down (stream : MediaStream) (w : Window) : Prop :=
  forall t, In t stream -> ~ In t (liveTracks w).

(* ================================================================== *)
(** ** components/ImageAnalyzer.tsx: the file input *)




(* ================================================================== *)
(** ** Vocabulary of the further properties *)

Definition no_backtick (s : JsString) : bool :=
  forallb (fun c => negb (N.eqb c 96)) s.


Definition all_space (s : JsString) : bool := forallb is_space s.

Definition is_blob (url : JsString) : bool := startsWith url (js "blob:").

(** The clicks on a reset button in a run. *)
Fixpoint resets (events : list Event) : nat :=
  match events with
  | [] => O
  | Reset :: rest => S (resets rest)
  | _ :: rest => resets rest
  end.

(** The event hands over a stream that has this track. *)
Definition delivers (t : nat) (e : Event) : bool :=
  match e with
  | Acquired stream => existsb (Nat.eqb t) stream
  | _ => false
  end.

(** A track that is live and belongs to no stream the view holds. *)
Definition orphan (t : nat) (a : App) : Prop :=
  In t (liveTracks (window a))
  /\ forall stream, CameraCapture.streamRef (camera a) = Some stream -> ~ In t stream.

(** The capability is there and says a session can be created. *)
Definition available (w : Window) : Prop :=
  exists a answer,
    ai w = Some a
    /\ ai_canCreateTextSession a = Ok answer
    /\ jseq answer (js "no") = false.

(** What the [catch] block of [analyzeImage] throws for what it caught. *)
Definition rethrown (cause : Thrown) : Thrown :=
  if instanceof_SyntaxError cause then new_Error notUnderstoodMessage else cause.

(** Whatever the status says is there: a result with success, an error
    with error, neither while idle or processing. *)
Definition status_backed (s : ImageAnalyzer.State) : Prop :=
  match ImageAnalyzer.status s with
  | Success => non_null (ImageAnalyzer.result s) = true
  | Failed => ImageAnalyzer.error s <> None
  | Idle | Processing =>
      ImageAnalyzer.result s = None /\ ImageAnalyzer.error s = None
  end.


(** A browser whose availability check rejects. *)
Definition chrome_check_fails : Window :=
  mkWindow (Some (mkAI sample_prompt
                    (Threw (ThrownError (mkError SyntaxError (js "bad state"))))))
           (Some []) true false
           (fun _ => js "Unexpected token") (v8_read_of "null") (v8_read_of "undefined")
           [] [] [] [].

(** A browser without [navigator.mediaDevices]. *)
Definition chrome_without_camera : Window :=
  mkWindow (Some sample_ai) (Some []) false false
           (fun _ => js "Unexpected token") (v8_read_of "null") (v8_read_of "undefined")
           [] [] [] [].

(* ================================================================== *)
(** * Properties *)

(** ** The regular expression *)

Lemma is_space_backtick : is_space 96 = false.
Proof. reflexivity. Qed.

Lemma any_unit_true (c : N) : any_unit c = true.
Proof. unfold any_unit. destruct (is_space c); reflexivity. Qed.

Lemma startsWith_nil (s : JsString) : startsWith s [] = true.
Proof. destruct s; reflexivity. Qed.

Lemma space_not_fence (x : N) (s : JsString) :
  is_space x = true -> startsWith (x :: s) (js "```") = false.
Proof.
  intros Hx.
  change (startsWith (x :: s) (js "```")) with (N.eqb 96 x && startsWith s [96; 96]).
  destruct (N.eqb_spec 96 x) as [E|E]; [|reflexivity].
  subst x. rewrite is_space_backtick in Hx. discriminate.
Qed.

Lemma closes_space (x : N) (s : JsString) :
  is_space x = true -> closes (x :: s) = closes s.
Proof. intros Hx. unfold closes. simpl. rewrite Hx. reflexivity. Qed.

Lemma closes_not_space (x : N) (s : JsString) :
  is_space x = false -> closes (x :: s) = startsWith (x :: s) (js "```").
Proof. intros Hx. unfold closes. simpl skip_space. rewrite Hx. reflexivity. Qed.

(** Literals match as a prefix test; outside the group nothing is kept. *)
Lemma match_lits_closed (p : JsString) (re : list Item) (acc s : JsString) :
  match_here (lits p ++ re) (false, acc) s
  = if startsWith s p then match_here re (false, acc) (skipn (List.length p) s)
    else None.
Proof.
  revert s. induction p as [|c p IH]; intros s.
  - simpl. rewrite startsWith_nil. reflexivity.
  - destruct s as [|x s]; [reflexivity|].
    simpl. rewrite N.eqb_sym. destruct (N.eqb c x); [|reflexivity].
    apply IH.
Qed.

(** A greedy run of white space outside the group: when a failure of what
    follows spreads backwards over white space, giving units back cannot
    help, and the run is simply skipped. *)
Lemma greedy_space_closed (k : Group -> JsString -> option JsString)
      (acc s : JsString) :
  (forall x s', is_space x = true ->
      k (false, acc) s' = None -> k (false, acc) (x :: s') = None) ->
  greedy_star is_space k (false, acc) s = k (false, acc) (skip_space s)
  /\ (k (false, acc) (skip_space s) = None -> k (false, acc) s = None).
Proof.
  intros Hk. induction s as [|x s [IH1 IH2]]; simpl.
  - split; [reflexivity|trivial].
  - destruct (is_space x) eqn:E.
    + unfold consume at 1. simpl fst. cbv iota. rewrite IH1. split.
      * destruct (k (false, acc) (skip_space s)) eqn:Ek; [reflexivity|].
        apply Hk; [exact E|]. apply IH2. reflexivity.
      * intros Hn. apply Hk; [exact E|]. apply IH2. exact Hn.
    + split; [reflexivity|trivial].
Qed.

(** The end of the pattern, from the closing parenthesis on. *)
Lemma match_closing (b : bool) (acc s : JsString) :
  match_here ([Close; Greedy is_space] ++ lits (js "```")) (b, acc) s
  = if closes s then Some (rev acc) else None.
Proof.
  cbn [app match_here snd].
  destruct (greedy_space_closed (match_here (lits (js "```"))) acc s) as [H _].
  - intros x s' Hx _. simpl.
    destruct (N.eqb_spec x 96) as [Ex|Ex]; [|reflexivity].
    subst x. rewrite is_space_backtick in Hx. discriminate.
  - rewrite H. unfold closes.
    rewrite <- (app_nil_r (lits (js "```"))). rewrite match_lits_closed.
    reflexivity.
Qed.

(** The lazy group takes the shortest text after which the pattern can be
    completed. *)
Lemma lazy_star_spec (acc s : JsString) :
  lazy_star any_unit (match_here ([Close; Greedy is_space] ++ lits (js "```")))
            (true, acc) s
  = match lazy_spec s with
    | Some u => Some (rev acc ++ u)
    | None => None
    end.
Proof.
  revert acc. induction s as [|x s IH]; intros acc.
  - cbn [lazy_star lazy_spec]. rewrite match_closing.
    destruct (closes []); [rewrite app_nil_r|]; reflexivity.
  - cbn [lazy_star lazy_spec]. rewrite match_closing.
    destruct (closes (x :: s)); [rewrite app_nil_r; reflexivity|].
    rewrite any_unit_true. unfold consume. cbn [fst snd]. rewrite IH.
    destruct (lazy_spec s); [|reflexivity].
    cbn [rev]. rewrite <- app_assoc. reflexivity.
Qed.

Lemma lazy_spec_none_closes (s : JsString) : lazy_spec s = None -> closes s = false.
Proof.
  destruct s; cbn [lazy_spec]; destruct (closes _); congruence.
Qed.

(** The whole pattern, anchored. *)
Lemma match_here_jsonRegex (s : JsString) :
  match_here jsonRegex (false, []) s
  = if startsWith s (js "```json")
    then lazy_spec (skip_space (skipn 7 s))
    else None.
Proof.
  unfold jsonRegex. rewrite match_lits_closed.
  destruct (startsWith s (js "```json")); [|reflexivity].
  change (List.length (js "```json")) with 7%nat.
  set (t := skipn 7 s). cbn [app match_here].
  pose (k := fun (g : Group) (u : JsString) =>
     match_here (Open :: Lazy any_unit :: [Close; Greedy is_space] ++ lits (js "```")) g u).
  assert (Hk : forall u, k (false, []) u = lazy_spec u).
  { intros u. unfold k. cbn [match_here]. rewrite lazy_star_spec.
    destruct (lazy_spec u); reflexivity. }
  destruct (greedy_space_closed k [] t) as [H _].
  - intros x s' Hx Hn. rewrite Hk in *. cbn [lazy_spec].
    rewrite (@closes_space x s' Hx), (@lazy_spec_none_closes s' Hn), Hn. reflexivity.
  - unfold k in H. rewrite <- Hk. exact H.
Qed.

(** ** The fenced block *)

Lemma find_fence_cons (x : N) (s : JsString) :
  startsWith (x :: s) (js "```") = false ->
  find_sub (js "```") (x :: s)
  = match find_sub (js "```") s with
    | Some (pre, post) => Some (x :: pre, post)
    | None => None
    end.
Proof. intros H. cbn [find_sub]. rewrite H. reflexivity. Qed.

Lemma find_fence_here (s : JsString) :
  startsWith s (js "```") = true ->
  find_sub (js "```") s = Some ([], skipn 3 s).
Proof. intros H. destruct s; cbn [find_sub]; rewrite H; reflexivity. Qed.

Lemma fence_not_space (x : N) (s : JsString) :
  startsWith (x :: s) (js "```") = true -> is_space x = false.
Proof.
  intros H. destruct (is_space x) eqn:E; [|reflexivity].
  rewrite (@space_not_fence x s E) in H. discriminate.
Qed.

Lemma trim_end_cons_nil (x : N) (b : JsString) :
  trim_end (x :: b) = [] -> trim_end b = [] /\ is_space x = true.
Proof.
  cbn [trim_end]. destruct (trim_end b); [|discriminate].
  destruct (is_space x); [auto|discriminate].
Qed.

(** Where the pattern can be completed, only white space precedes the
    closing fence, and conversely. *)
Lemma closes_body (s : JsString) :
  closes s = true ->
  exists b post, find_sub (js "```") s = Some (b, post) /\ trim_end b = [].
Proof.
  induction s as [|x s IH]; intros H; [discriminate|].
  destruct (is_space x) eqn:E.
  - rewrite (@closes_space x s E) in H. destruct (IH H) as (b & post & Hf & Ht).
    exists (x :: b), post. rewrite find_fence_cons, Hf by (apply space_not_fence; exact E).
    split; [reflexivity|]. cbn [trim_end]. rewrite Ht, E. reflexivity.
  - rewrite (@closes_not_space x s E) in H. exists [], (skipn 3 (x :: s)).
    split; [apply find_fence_here; exact H|reflexivity].
Qed.

Lemma body_closes (s b post : JsString) :
  find_sub (js "```") s = Some (b, post) -> trim_end b = [] -> closes s = true.
Proof.
  revert b. induction s as [|x s IH]; intros b Hf Ht; [discriminate|].
  destruct (startsWith (x :: s) (js "```")) eqn:Es.
  - rewrite (@closes_not_space x s (fence_not_space _ _ Es)). exact Es.
  - rewrite (find_fence_cons _ _ Es) in Hf.
    destruct (find_sub (js "```") s) as [[pre post']|] eqn:Ef; [|discriminate].
    injection Hf as <- <-. apply trim_end_cons_nil in Ht. destruct Ht as [Ht Hx].
    rewrite (@closes_space x s Hx). apply (IH pre eq_refl Ht).
Qed.

(** The lazy group holds the text up to the closing fence, without the
    white space before the fence. *)
Lemma lazy_spec_body (s : JsString) :
  lazy_spec s
  = match find_sub (js "```") s with
    | Some (b, _) => Some (trim_end b)
    | None => None
    end.
Proof.
  induction s as [|x s IH].
  - reflexivity.
  - cbn [lazy_spec]. destruct (closes (x :: s)) eqn:Ec.
    + destruct (closes_body _ Ec) as (b & post & Hf & Ht). rewrite Hf, Ht. reflexivity.
    + assert (Es : startsWith (x :: s) (js "```") = false).
      { destruct (startsWith (x :: s) (js "```")) eqn:Es; [|reflexivity].
        rewrite (@closes_not_space x s (fence_not_space _ _ Es)) in Ec. congruence. }
      rewrite (find_fence_cons _ _ Es), IH.
      destruct (find_sub (js "```") s) as [[b post]|] eqn:Ef; [|reflexivity].
      f_equal. cbn [trim_end]. destruct (trim_end b) eqn:Et; [|reflexivity].
      destruct (is_space x) eqn:Ex; [|reflexivity].
      rewrite (@closes_space x s Ex), (body_closes _ Ef Et) in Ec. discriminate.
Qed.

Lemma body_skip_space (s : JsString) :
  match find_sub (js "```") (skip_space s) with
  | Some (b, _) => Some (trim_end b)
  | None => None
  end
  = match find_sub (js "```") s with
    | Some (b, _) => Some (trim b)
    | None => None
    end.
Proof.
  induction s as [|x s IH]; [reflexivity|].
  cbn [skip_space]. destruct (is_space x) eqn:E.
  - rewrite IH, find_fence_cons by (apply space_not_fence; exact E).
    destruct (find_sub (js "```") s) as [[b post]|]; [|reflexivity].
    unfold trim. cbn [skip_space]. rewrite E. reflexivity.
  - destruct (startsWith (x :: s) (js "```")) eqn:Es.
    + rewrite (find_fence_here _ Es). reflexivity.
    + rewrite (find_fence_cons _ _ Es).
      destruct (find_sub (js "```") s) as [[b post]|]; [|reflexivity].
      unfold trim. cbn [skip_space]. rewrite E. reflexivity.
Qed.

Lemma startsWith_app (s p q : JsString) :
  startsWith s (p ++ q) = true -> startsWith s p = true.
Proof.
  revert s. induction p as [|c p IH]; intros s H.
  - apply startsWith_nil.
  - destruct s as [|x s]; [discriminate|].
    cbn [app startsWith] in *. destruct (N.eqb c x); [|discriminate].
    apply IH. exact H.
Qed.

Lemma startsWith_json_fence (s : JsString) :
  startsWith s (js "```json") = true -> startsWith s (js "```") = true.
Proof. apply (@startsWith_app s (js "```") (js "json")). Qed.

(** A match needs a fence somewhere in the text. *)
Lemma regex_match_fence (s r : JsString) :
  regex_match jsonRegex s = Some r -> find_sub (js "```") s <> None.
Proof.
  induction s as [|x s IH]; cbn [regex_match]; rewrite match_here_jsonRegex.
  - discriminate.
  - destruct (startsWith (x :: s) (js "```json")) eqn:Es.
    + intros _. rewrite (find_fence_here _ (startsWith_json_fence _ Es)). discriminate.
    + intros H. specialize (IH H).
      destruct (startsWith (x :: s) (js "```")) eqn:Ef.
      * rewrite (find_fence_here _ Ef). discriminate.
      * rewrite (find_fence_cons _ _ Ef).
        destruct (find_sub (js "```") s) as [[? ?]|]; [discriminate|congruence].
Qed.

Lemma startsWith_split (s p : JsString) :
  startsWith s p = true -> s = p ++ skipn (List.length p) s.
Proof.
  revert s. induction p as [|c p IH]; intros s H; [reflexivity|].
  destruct s as [|x s]; [discriminate|].
  cbn [startsWith] in H. destruct (N.eqb_spec c x) as [->|]; [|discriminate].
  cbn [app List.length skipn]. f_equal. apply IH. exact H.
Qed.

(** No match starts inside an opening fence: one that starts after its
    first code unit starts after the whole of it. *)
Lemma regex_match_after_fence (after r : JsString) :
  regex_match jsonRegex (tl (js "```json" ++ after)) = Some r ->
  find_sub (js "```") after <> None.
Proof.
  change (tl (js "```json" ++ after)) with (96 :: 96 :: 106 :: 115 :: 111 :: 110 :: after).
  cbn [regex_match]. rewrite !match_here_jsonRegex.
  repeat match goal with
         | |- context [startsWith (?x :: ?l) (js "```json")] =>
             change (startsWith (x :: l) (js "```json")) with false
         end.
  cbv iota. apply regex_match_fence.
Qed.

(** [responseText.match(jsonRegex)]: there is a match exactly when there
    is a fenced block, and group 1 is its contents without the white space
    around them. *)
Lemma regex_match_jsonRegex (text : JsString) :
  regex_match jsonRegex text
  = match fenced_block text with
    | Some body => Some (trim body)
    | None => None
    end.
Proof.
  unfold fenced_block. induction text as [|x text IH]; [reflexivity|].
  cbn [regex_match find_sub]. rewrite match_here_jsonRegex.
  destruct (startsWith (x :: text) (js "```json")) eqn:Es.
  - change (List.length (js "```json")) with 7%nat.
    rewrite lazy_spec_body, body_skip_space.
    destruct (find_sub (js "```") (skipn 7 (x :: text))) as [[b post]|] eqn:Ef;
      [reflexivity|].
    destruct (regex_match jsonRegex text) as [r|] eqn:Er; [|reflexivity].
    exfalso. apply (@regex_match_after_fence (skipn 7 (x :: text)) r); [|exact Ef].
    change 7%nat with (List.length (js "```json")).
    rewrite <- (startsWith_split _ _ Es). exact Er.
  - rewrite IH.
    destruct (find_sub (js "```json") text) as [[pre post]|]; reflexivity.
Qed.

Lemma cleanText_trimmed (text : JsString) : cleanText text = payload_trimmed text.
Proof.
  unfold cleanText, payload_trimmed. rewrite regex_match_jsonRegex.
  destruct (fenced_block text); reflexivity.
Qed.

(** ** [analyzeImage], path by path *)

Lemma jseq_eq (a b : JsString) : jseq a b = true <-> a = b.
Proof.
  revert b. induction a as [|x a IH]; intros [|y b]; cbn [jseq]; split; intros H;
    try reflexivity; try discriminate.
  - apply andb_prop in H. destruct H as [Hx Ha]. apply N.eqb_eq in Hx.
    apply IH in Ha. congruence.
  - injection H as -> ->. rewrite N.eqb_refl. apply IH. reflexivity.
Qed.

Lemma analyzeImage_paths (base64ImageData : JsString) (w : Window) :
  analyzeImage base64ImageData w
  = match ai w with
    | None => getMockAIResponse w
    | Some a =>
        match ai_canCreateTextSession a with
        | Threw e => (Threw e, w)
        | Ok answer =>
            if jseq answer (js "no") then getMockAIResponse w
            else
              match ai_prompt a (fullPromptPrefix ++ base64ImageData) with
              | Threw e => analyzeImage_catch e w
              | Ok text => decode (cleanText text) w
              end
        end
    end.
Proof.
  unfold analyzeImage, unavailable, decode, window_ai_prompt, fullPromptPrefix.
  unfold bind at 1. unfold bind at 1. unfold get at 1.
  destruct (ai w) as [a|] eqn:Ea; [|reflexivity].
  unfold bind at 1. unfold await at 1.
  destruct (ai_canCreateTextSession a) as [answer|e]; [|reflexivity].
  unfold ret at 1. destruct (jseq answer (js "no")); [reflexivity|].
  unfold try_catch. unfold bind at 1. unfold bind at 1. unfold get at 1.
  rewrite Ea. unfold await at 1. rewrite <- app_assoc.
  destruct (ai_prompt a _) as [text|e]; reflexivity.
Qed.

Lemma getMockAIResponse_run (w : Window) :
  getMockAIResponse w
  = (Ok mockResult,
     mkWindow (ai w) (speechSynthesis w) (mediaDevices w) (isMobile w)
              (syntaxErrorMessage w) (nullReadMessage w) (undefinedReadMessage w)
              (console w ++ [Warn mockAdvisory]) (timers w ++ [1200])
              (revoked w) (liveTracks w)).
Proof. reflexivity. Qed.

Lemma analyzeImage_catch_run (e : Thrown) (w : Window) :
  analyzeImage_catch e w
  = (Threw (if instanceof_SyntaxError e then new_Error notUnderstoodMessage else e),
     mkWindow (ai w) (speechSynthesis w) (mediaDevices w) (isMobile w)
              (syntaxErrorMessage w) (nullReadMessage w) (undefinedReadMessage w)
              (console w ++ [ErrorWith (js "Error analyzing image with Chrome AI:") e])
              (timers w) (revoked w) (liveTracks w)).
Proof.
  unfold analyzeImage_catch, bind, console_log, modify, throw.
  destruct (instanceof_SyntaxError e); reflexivity.
Qed.

(** [validate] as a table: which values pass and what the others throw. *)
Lemma validate_run (v : JsValue) (w : Window) :
  validate v w
  = match get_member v (js "description") with
    | None =>
        (Threw (ThrownError (mkError TypeError
           (match v with
            | JUndefined => undefinedReadMessage w (js "description")
            | _ => nullReadMessage w (js "description")
            end))), w)
    | Some _ =>
        if lacks_description v || keywords_not_array v
        then (Threw (new_Error invalidFormatMessage), w)
        else (Ok v, w)
    end.
Proof.
  unfold validate, read_member, lacks_description, keywords_not_array,
    bind, get, ret, throw.
  destruct v; cbn [get_member]; try reflexivity.
  destruct (lookup_prop (js "description") props) as [d|];
    [destruct (ToBoolean d)|]; cbn [ToBoolean negb orb]; try reflexivity.
  destruct (lookup_prop (js "keywords") props) as [k|];
    [destruct (Array_isArray k)|]; reflexivity.
Qed.

Lemma decode_run (payload : JsString) (w : Window) :
  decode payload w
  = match JSON_parse payload with
    | None =>
        analyzeImage_catch
          (ThrownError (mkError SyntaxError (syntaxErrorMessage w payload))) w
    | Some v =>
        match validate v w with
        | (Ok r, w') => (Ok r, w')
        | (Threw e, w') => analyzeImage_catch e w'
        end
    end.
Proof.
  unfold decode, try_catch, JSON_parse_call. unfold bind at 1. unfold bind at 1.
  unfold get at 1. destruct (JSON_parse payload); reflexivity.
Qed.

Lemma analyzeImage_answers (w : Window) (base64ImageData text : JsString) :
  answers w base64ImageData text ->
  analyzeImage base64ImageData w = decode (cleanText text) w.
Proof.
  intros (a & answer & Ha & Hc & Hno & Hp).
  rewrite analyzeImage_paths, Ha, Hc, Hno, Hp. reflexivity.
Qed.

Lemma analyzeImage_fallback (w : Window) (base64ImageData : JsString) :
  fallback w -> analyzeImage base64ImageData w = getMockAIResponse w.
Proof.
  intros [Hn | (a & Ha & Hc)]; rewrite analyzeImage_paths.
  - rewrite Hn. reflexivity.
  - rewrite Ha, Hc. reflexivity.
Qed.

(** What [decode] answers, by what the payload parses to. *)
Lemma decode_outcome (payload : JsString) (w : Window) :
  fst (decode payload w)
  = match JSON_parse payload with
    | None => Threw (new_Error notUnderstoodMessage)
    | Some v =>
        match get_member v (js "description") with
        | None =>
            Threw (ThrownError (mkError TypeError
              (match v with
               | JUndefined => undefinedReadMessage w (js "description")
               | _ => nullReadMessage w (js "description")
               end)))
        | Some _ =>
            if lacks_description v || keywords_not_array v
            then Threw (new_Error invalidFormatMessage)
            else Ok v
        end
    end.
Proof.
  rewrite decode_run. destruct (JSON_parse payload) as [v|].
  - rewrite validate_run. destruct (get_member v (js "description")).
    + destruct (lacks_description v || keywords_not_array v);
        [rewrite analyzeImage_catch_run|]; reflexivity.
    + rewrite analyzeImage_catch_run. reflexivity.
  - rewrite analyzeImage_catch_run. reflexivity.
Qed.

(** [decode] only ever adds to the console what its [catch] block logs. *)
Lemma decode_console (payload : JsString) (w : Window) :
  exists new, console (snd (decode payload w)) = console w ++ new
              /\ forallb (fun e => negb (is_warn e)) new = true.
Proof.
  rewrite decode_run. destruct (JSON_parse payload) as [v|].
  - rewrite validate_run. destruct (get_member v (js "description")).
    + destruct (lacks_description v || keywords_not_array v).
      * rewrite analyzeImage_catch_run. eexists. split; reflexivity.
      * exists []. rewrite app_nil_r. split; reflexivity.
    + rewrite analyzeImage_catch_run. eexists. split; reflexivity.
  - rewrite analyzeImage_catch_run. eexists. split; reflexivity.
Qed.

(** A response that decodes to a value other than [null] without a
    non-empty description, or with keywords that are no array, is refused as
    an invalid response format. *)
Lemma invalid_response_rejected (w : Window) (base64ImageData text : JsString)
      (v : JsValue) :
  answers w base64ImageData text ->
  JSON_parse (cleanText text) = Some v ->
  v <> JNull -> v <> JUndefined ->
  lacks_description v || keywords_not_array v = true ->
  fst (analyzeImage base64ImageData w) = Threw (new_Error invalidFormatMessage).
Proof.
  intros Ha Hp Hn Hu Hbad.
  rewrite (analyzeImage_answers Ha), decode_outcome, Hp, Hbad.
  destruct v; cbn [get_member]; try congruence; try reflexivity.
  destruct (lookup_prop (js "description") props); reflexivity.
Qed.

(** A response that decodes to [null] makes the validation itself throw. *)
Lemma null_response_rejected (w : Window) (base64ImageData text : JsString) :
  answers w base64ImageData text ->
  JSON_parse (cleanText text) = Some JNull ->
  fst (analyzeImage base64ImageData w)
  = Threw (ThrownError (mkError TypeError (nullReadMessage w (js "description")))).
Proof.
  intros Ha Hp. rewrite (analyzeImage_answers Ha), decode_outcome, Hp. reflexivity.
Qed.

Lemma answers_chrome (payload text : JsString) :
  sample_prompt (fullPromptPrefix ++ payload) = Ok text ->
  answers chrome payload text.
Proof.
  intros H. exists sample_ai, (js "readily"). repeat split; try reflexivity. exact H.
Qed.

(** ** The claims about the response interpreter *)

(** C2, as the code has it: when the response text holds a fenced block,
    that is a [```json] and a [```] after it, [analyzeImage] parses the
    contents of the first such block (up to the first closing fence) with
    the white space around them removed; otherwise it parses the whole
    response text verbatim. *)
Theorem analyzeImage_parses_trimmed_block
        (w : Window) (base64ImageData text : JsString) :
  answers w base64ImageData text ->
  analyzeImage base64ImageData w = decode (payload_trimmed text) w.
Proof.
  intros Ha. rewrite (analyzeImage_answers Ha), cleanText_trimmed. reflexivity.
Qed.

Lemma analyzeImage_parses_trimmed_block_witness :
  answers chrome (js "cat") (js "```json
" ++ catJson ++ js "
```")
  /\ analyzeImage (js "cat") chrome
     = decode (payload_trimmed (js "```json
" ++ catJson ++ js "
```")) chrome.
Proof.
  assert (H : answers chrome (js "cat") (js "```json
" ++ catJson ++ js "
```")) by (apply answers_chrome; vm_compute; reflexivity).
  split; [exact H|].
  apply (analyzeImage_parses_trimmed_block H).
Defined.

(** C2 as stated fails: the contents of this block begin and end with a
    no-break space and are no JSON text, so parsing exactly the contents
    would fail; [analyzeImage] returns the result all the same. *)
Lemma fenced_contents_not_parsed_exactly :
  answers chrome (js "nbsp") (js "```json" ++ [160] ++ catJson ++ [160] ++ js "```")
  /\ fenced_block (js "```json" ++ [160] ++ catJson ++ [160] ++ js "```")
     = Some ([160] ++ catJson ++ [160])
  /\ JSON_parse ([160] ++ catJson ++ [160]) = None
  /\ analyzeImage (js "nbsp") chrome
     <> decode (payload_exact (js "```json" ++ [160] ++ catJson ++ [160] ++ js "```"))
               chrome.
Proof.
  split; [apply answers_chrome; vm_compute; reflexivity|].
  split; [vm_compute; reflexivity|].
  split; [vm_compute; reflexivity|].
  intros H. apply (f_equal fst) in H. vm_compute in H. discriminate.
Qed.

(** C3 at the response [null]: it parses as JSON and has no description,
    yet [analyzeImage] fails with the TypeError of reading a property of
    [null], not with the invalid-response-format error. *)
Theorem null_response_type_error :
  answers chrome (js "null") (js "null")
  /\ JSON_parse (cleanText (js "null")) = Some JNull
  /\ lacks_description JNull = true
  /\ fst (analyzeImage (js "null") chrome)
     = Threw (ThrownError (mkError TypeError
                (js "Cannot read properties of null (reading 'description')")))
  /\ fst (analyzeImage (js "null") chrome) <> Threw (new_Error invalidFormatMessage).
Proof.
  split; [apply answers_chrome; vm_compute; reflexivity|].
  split; [vm_compute; reflexivity|].
  split; [reflexivity|].
  split; [vm_compute; reflexivity|].
  intros H. vm_compute in H. discriminate.
Qed.

(** C4: a response whose text, once the fence is stripped, is no JSON
    text makes [analyzeImage] fail with the "couldn't understand" error.
    Its message is neither the invalid-format one nor the generic one of the
    state machine, and it is not how an error of the capability itself
    surfaces: that one is thrown on as it is. *)
Theorem invalid_json_not_understood
        (w : Window) (base64ImageData text : JsString) :
  answers w base64ImageData text ->
  JSON_parse (cleanText text) = None ->
  fst (analyzeImage base64ImageData w) = Threw (new_Error notUnderstoodMessage)
  /\ notUnderstoodMessage <> invalidFormatMessage
  /\ notUnderstoodMessage <> ImageAnalyzer.unknownErrorMessage
  /\ (forall w' base64ImageData' e,
        refuses w' base64ImageData' e ->
        instanceof_SyntaxError e = false ->
        fst (analyzeImage base64ImageData' w') = Threw e).
Proof.
  intros Ha Hp. split.
  - rewrite (analyzeImage_answers Ha), decode_outcome, Hp. reflexivity.
  - split; [intros H; vm_compute in H; discriminate|].
    split; [intros H; vm_compute in H; discriminate|].
    intros w' b' e (a & answer & Hai & Hc & Hno & Hr) He.
    rewrite analyzeImage_paths, Hai, Hc, Hno, Hr, analyzeImage_catch_run, He.
    reflexivity.
Qed.

Lemma invalid_json_not_understood_witness :
  answers chrome (js "text") (js "not json")
  /\ JSON_parse (cleanText (js "not json")) = None
  /\ fst (analyzeImage (js "text") chrome) = Threw (new_Error notUnderstoodMessage)
  /\ fst (analyzeImage (js "busy") chrome) = Threw (new_Error (js "The model is busy.")).
Proof.
  assert (Ha : answers chrome (js "text") (js "not json"))
    by (apply answers_chrome; vm_compute; reflexivity).
  assert (Hp : JSON_parse (cleanText (js "not json")) = None)
    by (vm_compute; reflexivity).
  destruct (@invalid_json_not_understood chrome (js "text") (js "not json") Ha Hp)
    as (H1 & _ & _ & H4).
  split; [exact Ha|]. split; [exact Hp|]. split; [exact H1|].
  apply H4; [|reflexivity].
  exists sample_ai, (js "readily"). repeat split; vm_compute; reflexivity.
Defined.

(** C7: whatever the image payload, when the capability is absent or
    answers that no session can be created, [analyzeImage] does not fail: it
    logs the advisory with [console.warn], waits for the 1200 ms timeout
    and returns the fixed mock result.  The advisory tells the fallback
    from the other path, on which [analyzeImage] never calls
    [console.warn]. *)
Theorem fallback_returns_mock (w : Window) (base64ImageData : JsString) :
  fallback w ->
  analyzeImage base64ImageData w
  = (Ok mockResult,
     mkWindow (ai w) (speechSynthesis w) (mediaDevices w) (isMobile w)
              (syntaxErrorMessage w) (nullReadMessage w) (undefinedReadMessage w)
              (console w ++ [Warn mockAdvisory]) (timers w ++ [1200])
              (revoked w) (liveTracks w))
  /\ (forall w' base64ImageData',
        ~ fallback w' ->
        exists new,
          console (snd (analyzeImage base64ImageData' w')) = console w' ++ new
          /\ forallb (fun e => negb (is_warn e)) new = true).
Proof.
  intros Hf. split.
  - rewrite (analyzeImage_fallback _ Hf). apply getMockAIResponse_run.
  - intros w' b' Hn. rewrite analyzeImage_paths.
    destruct (ai w') as [a|] eqn:Ea; [|exfalso; apply Hn; left; exact Ea].
    destruct (ai_canCreateTextSession a) as [answer|e] eqn:Ec.
    + destruct (jseq answer (js "no")) eqn:Eno.
      * exfalso. apply Hn. right. exists a. split; [exact Ea|].
        apply jseq_eq in Eno. congruence.
      * destruct (ai_prompt a (fullPromptPrefix ++ b')) as [text|e].
        -- apply decode_console.
        -- rewrite analyzeImage_catch_run. eexists. split; reflexivity.
    + exists []. rewrite app_nil_r. split; reflexivity.
Qed.

Lemma fallback_returns_mock_witness :
  (fallback chrome_without_ai /\ fallback chrome_ai_off)
  /\ fst (analyzeImage (js "cat") chrome_without_ai) = Ok mockResult
  /\ fst (analyzeImage (js "dog") chrome_ai_off) = Ok mockResult
  /\ console (snd (analyzeImage (js "dog") chrome_ai_off)) = [Warn mockAdvisory]
  /\ timers (snd (analyzeImage (js "dog") chrome_ai_off)) = [1200].
Proof.
  assert (H1 : fallback chrome_without_ai) by (left; reflexivity).
  assert (H2 : fallback chrome_ai_off).
  { right. eexists. split; reflexivity. }
  split; [split; assumption|].
  destruct (@fallback_returns_mock chrome_without_ai (js "cat") H1) as [E1 _].
  destruct (@fallback_returns_mock chrome_ai_off (js "dog") H2) as [E2 _].
  rewrite E1, E2. repeat split; reflexivity.
Defined.

(** Every result of [analyzeImage] has passed the validation, the mock
    result included. *)
Lemma analyzeImage_ok_valid (w : Window) (base64ImageData : JsString)
      (v : AnalysisResult) :
  fst (analyzeImage base64ImageData w) = Ok v ->
  lacks_description v = false
  /\ exists items, get_member v (js "keywords") = Some (JArray items).
Proof.
  intros H.
  assert (Hd : forall payload, fst (decode payload w) = Ok v ->
               lacks_description v = false
               /\ exists items, get_member v (js "keywords") = Some (JArray items)).
  { intros payload Hp. rewrite decode_outcome in Hp.
    destruct (JSON_parse payload) as [v0|]; [|discriminate].
    destruct (get_member v0 (js "description")); [|discriminate].
    destruct (lacks_description v0) eqn:El; [discriminate|].
    destruct (keywords_not_array v0) eqn:Ek; [discriminate|].
    injection Hp as <-. split; [exact El|].
    unfold keywords_not_array in Ek.
    destruct (get_member v0 (js "keywords")) as [k|]; [|discriminate].
    destruct k; try discriminate. eexists. reflexivity. }
  rewrite analyzeImage_paths in H.
  assert (Hm : fst (getMockAIResponse w) = Ok v ->
               lacks_description v = false
               /\ exists items, get_member v (js "keywords") = Some (JArray items)).
  { rewrite getMockAIResponse_run. intros Hm. injection Hm as <-.
    split; [reflexivity|]. eexists. reflexivity. }
  destruct (ai w) as [a|]; [|exact (Hm H)].
  destruct (ai_canCreateTextSession a) as [answer|e]; [|discriminate].
  destruct (jseq answer (js "no")); [exact (Hm H)|].
  destruct (ai_prompt a (fullPromptPrefix ++ base64ImageData)) as [text|e].
  - exact (Hd _ H).
  - rewrite analyzeImage_catch_run in H. discriminate.
Qed.

(** C9, as the code has it: only the type of [keywords] is enforced.  A
    response that decodes to a value with a truthy description and an empty
    [keywords] array is returned as the result; every result [analyzeImage]
    returns has a truthy description and an array, possibly empty, as
    [keywords]. *)
Theorem keywords_only_array_typed
        (w : Window) (base64ImageData : JsString) (v : AnalysisResult) :
  fst (analyzeImage base64ImageData w) = Ok v ->
  (lacks_description v = false
   /\ exists items, get_member v (js "keywords") = Some (JArray items))
  /\ (forall w' base64ImageData' text v',
        answers w' base64ImageData' text ->
        JSON_parse (cleanText text) = Some v' ->
        lacks_description v' = false ->
        get_member v' (js "keywords") = Some (JArray []) ->
        fst (analyzeImage base64ImageData' w') = Ok v').
Proof.
  intros H. split.
  - exact (analyzeImage_ok_valid _ _ H).
  - intros w' b' text v' Ha Hp Hl Hk.
    rewrite (analyzeImage_answers Ha), decode_outcome, Hp.
    unfold lacks_description in Hl.
    destruct (get_member v' (js "description")) as [d|] eqn:Ed; [|discriminate].
    unfold lacks_description, keywords_not_array. rewrite Ed, Hl, Hk. reflexivity.
Qed.

Lemma keywords_only_array_typed_witness :
  fst (analyzeImage (js "bare") chrome)
  = Ok (JObject [(js "description", JString (js "A cat.")); (js "keywords", JArray [])])
  /\ lacks_description
       (JObject [(js "description", JString (js "A cat.")); (js "keywords", JArray [])])
     = false
  /\ exists items,
       get_member
         (JObject [(js "description", JString (js "A cat.")); (js "keywords", JArray [])])
         (js "keywords") = Some (JArray items).
Proof.
  assert (H : fst (analyzeImage (js "bare") chrome)
              = Ok (JObject [(js "description", JString (js "A cat."));
                             (js "keywords", JArray [])]))
    by (vm_compute; reflexivity).
  split; [exact H|].
  exact (proj1 (@keywords_only_array_typed chrome (js "bare") _ H)).
Defined.

(** C9 as stated fails: this response decodes to a value whose keywords
    are the empty array, and [analyzeImage] returns it. *)
Lemma empty_keywords_accepted :
  answers chrome (js "bare") noKeywordsJson
  /\ JSON_parse (cleanText noKeywordsJson)
     = Some (JObject [(js "description", JString (js "A cat.")); (js "keywords", JArray [])])
  /\ fst (analyzeImage (js "bare") chrome)
     = Ok (JObject [(js "description", JString (js "A cat.")); (js "keywords", JArray [])]).
Proof.
  split; [apply answers_chrome; vm_compute; reflexivity|].
  split; vm_compute; reflexivity.
Qed.

(** ** The analysis state machine *)

Lemma resetState_run (fullReset : bool) (s : ImageAnalyzer.State) (w : Window) :
  ImageAnalyzer.resetState fullReset (s, w)
  = let w1 :=
      mkWindow (ai w) (speechSynthesis w) (mediaDevices w) (isMobile w)
               (syntaxErrorMessage w) (nullReadMessage w) (undefinedReadMessage w)
               (console w) (timers w)
               (revoked w ++ if fullReset then held_blob s else [])
               (liveTracks w) in
    let s' :=
      ImageAnalyzer.mkState
        (if fullReset then None else ImageAnalyzer.imagePreviewUrl s)
        Idle None None (ImageAnalyzer.isCameraOpen s) in
    match speechSynthesis w with
    | Some _ => (Ok tt, (s', set_speech (Some []) w1))
    | None =>
        (Threw (ThrownError (mkError TypeError (undefinedReadMessage w (js "cancel")))),
         (s', w1))
    end.
Proof.
  destruct s as [url st r e o], w as [a sp md mob m1 m2 m3 c t rv lt].
  unfold held_blob, ImageAnalyzer.resetState, ImageAnalyzer.setImagePreviewUrl,
    ImageAnalyzer.setStatus, ImageAnalyzer.setResult, ImageAnalyzer.setError,
    speechSynthesis_cancel, URL_revokeObjectURL, set_state, liftW, set_speech,
    bind, get, modify, ret, throw.
  cbn [fst snd ImageAnalyzer.imagePreviewUrl ImageAnalyzer.status
       ImageAnalyzer.result ImageAnalyzer.error ImageAnalyzer.isCameraOpen
       ai speechSynthesis mediaDevices isMobile syntaxErrorMessage nullReadMessage
       undefinedReadMessage console timers revoked liveTracks].
  destruct fullReset; cbn [andb].
  - destruct url as [[|x url]|].
    + change (startsWith [] (js "blob:")) with false.
      destruct sp; cbn [fst snd speechSynthesis undefinedReadMessage];
        rewrite app_nil_r; reflexivity.
    + destruct (startsWith (x :: url) (js "blob:"));
        destruct sp; cbn [fst snd speechSynthesis undefinedReadMessage];
        rewrite ?app_nil_r; reflexivity.
    + destruct sp; cbn [fst snd speechSynthesis undefinedReadMessage];
        rewrite app_nil_r; reflexivity.
  - destruct url as [url|]; destruct sp;
      cbn [fst snd speechSynthesis undefinedReadMessage];
      rewrite app_nil_r; reflexivity.
Qed.

(** [speak] where there is speech synthesis: whatever was being said is
    cancelled, and the new utterance is the only one queued. *)
Lemma speak_replaces (text : JsString) (lang : option JsString) (w : Window)
      (q : list Utterance) :
  speechSynthesis w = Some q ->
  speak text lang w
  = (Ok tt,
     set_speech
       (Some [mkUtterance text (match lang with Some l => l | None => js "en-US" end)
                          one one]) w).
Proof.
  intros H. unfold speak, bind, get, speechSynthesis_cancel, speechSynthesis_speak,
    modify, throw.
  destruct w as [a sp md mob m1 m2 m3 c t rv lt]. cbn [speechSynthesis] in *.
  subst sp. reflexivity.
Qed.

(** A capture whose interpretation succeeds goes from idle through
    processing to success with the decoded result. *)
Example submit_then_success :
  ImageAnalyzer.status (analyzer (run [Submit (js "cat") (js "blob:1")] (mount chrome)))
  = Processing
  /\ ImageAnalyzer.status
       (analyzer (run [Submit (js "cat") (js "blob:1"); Settle 0] (mount chrome)))
     = Success
  /\ ImageAnalyzer.result
       (analyzer (run [Submit (js "cat") (js "blob:1"); Settle 0] (mount chrome)))
     = JSON_parse catJson.
Proof. repeat split; vm_compute; reflexivity. Qed.

(** A response that is no JSON ends in the error status with a message. *)
Example submit_then_error :
  ImageAnalyzer.status
    (analyzer (run [Submit (js "text") (js "blob:1"); Settle 0] (mount chrome)))
  = Failed
  /\ ImageAnalyzer.error
       (analyzer (run [Submit (js "text") (js "blob:1"); Settle 0] (mount chrome)))
     = Some notUnderstoodMessage.
Proof. repeat split; vm_compute; reflexivity. Qed.

(** C6: from every state, [resetState(true)] leaves the status idle and
    result, error and preview reference null, leaves no utterance active,
    and has revoked the blob URL the preview held: the URL it hands to
    [URL.revokeObjectURL] is the one held before the reference is cleared. *)
Theorem full_reset_clears (s : ImageAnalyzer.State) (w : Window) :
  let s' := fst (snd (ImageAnalyzer.resetState true (s, w))) in
  let w' := snd (snd (ImageAnalyzer.resetState true (s, w))) in
  ImageAnalyzer.status s' = Idle
  /\ ImageAnalyzer.result s' = None
  /\ ImageAnalyzer.error s' = None
  /\ ImageAnalyzer.imagePreviewUrl s' = None
  /\ active_speech w' = []
  /\ revoked w' = revoked w ++ held_blob s.
Proof.
  cbv zeta. rewrite resetState_run. cbv zeta. unfold active_speech.
  destruct (speechSynthesis w) eqn:E; cbn [fst snd ImageAnalyzer.status
    ImageAnalyzer.result ImageAnalyzer.error ImageAnalyzer.imagePreviewUrl
    set_speech speechSynthesis revoked]; rewrite ?E; repeat split; reflexivity.
Qed.

Lemma speak_without_speech (text : JsString) (lang : option JsString) (w : Window) :
  speechSynthesis w = None ->
  speak text lang w
  = (Ok tt,
     mkWindow (ai w) (speechSynthesis w) (mediaDevices w) (isMobile w)
              (syntaxErrorMessage w) (nullReadMessage w) (undefinedReadMessage w)
              (console w ++ [Warn speechAdvisory]) (timers w) (revoked w)
              (liveTracks w)).
Proof.
  intros H. unfold speak, bind, get, console_log, modify.
  destruct (speechSynthesis w) eqn:E; [discriminate|].
  cbv beta. rewrite E. reflexivity.
Qed.

Lemma processAnalysis_begin_run (previewUrl : JsString)
      (s : ImageAnalyzer.State) (w : Window) :
  ImageAnalyzer.processAnalysis_begin previewUrl (s, w)
  = match speechSynthesis w with
    | Some _ =>
        (Ok tt,
         (ImageAnalyzer.mkState (Some previewUrl) Processing None None
            (ImageAnalyzer.isCameraOpen s),
          set_speech (Some []) w))
    | None =>
        (Threw (ThrownError (mkError TypeError (undefinedReadMessage w (js "cancel")))),
         (ImageAnalyzer.mkState (ImageAnalyzer.imagePreviewUrl s) Idle None None
            (ImageAnalyzer.isCameraOpen s),
          w))
    end.
Proof.
  unfold ImageAnalyzer.processAnalysis_begin. unfold bind at 1.
  rewrite resetState_run. cbv zeta.
  destruct w as [a sp md mob m1 m2 m3 c t rv lt].
  cbn [speechSynthesis revoked]. rewrite app_nil_r.
  destruct sp; reflexivity.
Qed.

(** C10: where [window.speechSynthesis] is missing, [resetState] throws a
    TypeError, full or not, and so does [processAnalysis] before it reaches
    [analyzeImage], so that no call goes in flight; [speak] on the same
    platform returns normally, having only logged its advisory. *)
Theorem reset_throws_without_speech
        (fullReset : bool) (s : ImageAnalyzer.State) (w : Window)
        (previewUrl base64Data text : JsString) (lang : option JsString) (a : App) :
  speechSynthesis w = None ->
  window a = w ->
  fst (ImageAnalyzer.resetState fullReset (s, w))
  = Threw (ThrownError (mkError TypeError (undefinedReadMessage w (js "cancel"))))
  /\ fst (ImageAnalyzer.processAnalysis_begin previewUrl (s, w))
     = Threw (ThrownError (mkError TypeError (undefinedReadMessage w (js "cancel"))))
  /\ calls (processAnalysis base64Data previewUrl a) = calls a
  /\ ImageAnalyzer.status (analyzer (processAnalysis base64Data previewUrl a)) = Idle
  /\ speak text lang w
     = (Ok tt,
        mkWindow (ai w) (speechSynthesis w) (mediaDevices w) (isMobile w)
                 (syntaxErrorMessage w) (nullReadMessage w) (undefinedReadMessage w)
                 (console w ++ [Warn speechAdvisory]) (timers w) (revoked w)
                 (liveTracks w)).
Proof.
  intros Hs Hw. pose proof (@speak_without_speech text lang w Hs) as Hsp.
  split; [rewrite resetState_run, Hs; reflexivity|].
  split; [rewrite processAnalysis_begin_run, Hs; reflexivity|].
  split; [|split; [|exact Hsp]];
    unfold processAnalysis, in_analyzer;
    rewrite processAnalysis_begin_run, Hw, Hs; reflexivity.
Qed.

Lemma reset_throws_without_speech_witness :
  speechSynthesis mute = None
  /\ fst (ImageAnalyzer.resetState true (ImageAnalyzer.init, mute))
     = Threw (ThrownError (mkError TypeError
                (js "Cannot read properties of undefined (reading 'cancel')")))
  /\ fst (speak (js "cat") None mute) = Ok tt.
Proof.
  destruct (@reset_throws_without_speech true ImageAnalyzer.init mute
              (js "blob:1") (js "cat") (js "cat") None (mount mute)
              eq_refl eq_refl) as (H1 & _ & _ & _ & H5).
  split; [reflexivity|]. split; [exact H1|]. rewrite H5. reflexivity.
Defined.

Lemma same_platform_trans (w1 w2 w3 : Window) :
  same_platform w1 w2 -> same_platform w2 w3 -> same_platform w1 w3.
Proof.
  intros (A1 & B1 & C1) (A2 & B2 & C2). repeat split; congruence.
Qed.

(** How [analyzeImage] settles depends on the platform only, not on what
    the page has logged or waited for. *)
Lemma analyzeImage_same_platform (d : JsString) (w w' : Window) :
  same_platform w w' -> fst (analyzeImage d w) = fst (analyzeImage d w').
Proof.
  intros (Ha & Hn & Hu). rewrite !analyzeImage_paths, <- Ha.
  destruct (ai w) as [a|]; [|reflexivity].
  destruct (ai_canCreateTextSession a) as [answer|e]; [|reflexivity].
  destruct (jseq answer (js "no")); [reflexivity|].
  destruct (ai_prompt a (fullPromptPrefix ++ d)) as [text|e].
  - rewrite !decode_outcome, Hn, Hu. reflexivity.
  - rewrite !analyzeImage_catch_run. reflexivity.
Qed.

(** [analyzeImage] leaves the window as it is, but for what it logs and
    the timeout it waits for. *)
Lemma analyzeImage_window (d : JsString) (w : Window) :
  exists logged waited,
    snd (analyzeImage d w)
    = mkWindow (ai w) (speechSynthesis w) (mediaDevices w) (isMobile w)
               (syntaxErrorMessage w) (nullReadMessage w) (undefinedReadMessage w)
               (console w ++ logged) (timers w ++ waited) (revoked w) (liveTracks w).
Proof.
  assert (Hsame : exists logged waited,
            w = mkWindow (ai w) (speechSynthesis w) (mediaDevices w) (isMobile w)
                  (syntaxErrorMessage w) (nullReadMessage w) (undefinedReadMessage w)
                  (console w ++ logged) (timers w ++ waited) (revoked w) (liveTracks w)).
  { exists [], []. rewrite !app_nil_r. destruct w. reflexivity. }
  assert (Hcatch : forall e, exists logged waited,
            snd (analyzeImage_catch e w)
            = mkWindow (ai w) (speechSynthesis w) (mediaDevices w) (isMobile w)
                (syntaxErrorMessage w) (nullReadMessage w) (undefinedReadMessage w)
                (console w ++ logged) (timers w ++ waited) (revoked w) (liveTracks w)).
  { intros e. rewrite analyzeImage_catch_run.
    exists [ErrorWith (js "Error analyzing image with Chrome AI:") e], [].
    rewrite app_nil_r. reflexivity. }
  assert (Hmock : exists logged waited,
            snd (getMockAIResponse w)
            = mkWindow (ai w) (speechSynthesis w) (mediaDevices w) (isMobile w)
                (syntaxErrorMessage w) (nullReadMessage w) (undefinedReadMessage w)
                (console w ++ logged) (timers w ++ waited) (revoked w) (liveTracks w)).
  { rewrite getMockAIResponse_run. eexists. eexists. reflexivity. }
  rewrite analyzeImage_paths.
  destruct (ai w) as [a|]; [|exact Hmock].
  destruct (ai_canCreateTextSession a) as [answer|e]; [|exact Hsame].
  destruct (jseq answer (js "no")); [exact Hmock|].
  destruct (ai_prompt a (fullPromptPrefix ++ d)) as [text|e]; [|apply Hcatch].
  rewrite decode_run. destruct (JSON_parse (cleanText text)) as [v|]; [|apply Hcatch].
  rewrite validate_run. destruct (get_member v (js "description")); [|apply Hcatch].
  destruct (lacks_description v || keywords_not_array v); [apply Hcatch|exact Hsame].
Qed.

Lemma analyzeImage_keeps_platform (d : JsString) (w : Window) :
  same_platform w (snd (analyzeImage d w))
  /\ speechSynthesis (snd (analyzeImage d w)) = speechSynthesis w.
Proof.
  destruct (analyzeImage_window d w) as (logged & waited & E). rewrite E.
  repeat split.
Qed.

Lemma processAnalysis_run (base64Data previewUrl : JsString) (a : App) :
  processAnalysis base64Data previewUrl a
  = match speechSynthesis (window a) with
    | Some _ =>
        mkApp (ImageAnalyzer.mkState (Some previewUrl) Processing None None
                 (ImageAnalyzer.isCameraOpen (analyzer a)))
              (camera a) (set_speech (Some []) (window a))
              (calls a ++ [(nextCall a, base64Data)]) (S (nextCall a)) (acquiring a)
    | None =>
        mkApp (ImageAnalyzer.mkState
                 (ImageAnalyzer.imagePreviewUrl (analyzer a)) Idle None None
                 (ImageAnalyzer.isCameraOpen (analyzer a)))
              (camera a) (window a) (calls a) (S (nextCall a)) (acquiring a)
    end.
Proof.
  unfold processAnalysis, in_analyzer. rewrite processAnalysis_begin_run.
  destruct (speechSynthesis (window a)); reflexivity.
Qed.

Lemma processAnalysis_resume_run (settled : Outcome AnalysisResult)
      (s : ImageAnalyzer.State) (w : Window) :
  ImageAnalyzer.processAnalysis_resume settled (s, w)
  = match settled with
    | Ok r =>
        (Ok tt,
         (ImageAnalyzer.mkState (ImageAnalyzer.imagePreviewUrl s) Success (Some r)
            (ImageAnalyzer.error s) (ImageAnalyzer.isCameraOpen s), w))
    | Threw e =>
        (Ok tt,
         (ImageAnalyzer.mkState (ImageAnalyzer.imagePreviewUrl s) Failed
            (ImageAnalyzer.result s) (Some (message_of e))
            (ImageAnalyzer.isCameraOpen s),
          mkWindow (ai w) (speechSynthesis w) (mediaDevices w) (isMobile w)
                   (syntaxErrorMessage w) (nullReadMessage w) (undefinedReadMessage w)
                   (console w ++ [ErrorOf e]) (timers w) (revoked w) (liveTracks w)))
    end.
Proof. destruct settled as [r|[e|v]]; reflexivity. Qed.

(** A settling call is applied to whatever state is current: its status
    and its own field are written, the other field is left as it is. *)
Lemma settle_run (call : nat) (base64Data : JsString) (a : App) :
  find_call call (calls a) = Some base64Data ->
  calls (settle call a) = drop_call call (calls a)
  /\ same_platform (window a) (window (settle call a))
  /\ speechSynthesis (window (settle call a)) = speechSynthesis (window a)
  /\ shows (analyzer (settle call a)) (fst (analyzeImage base64Data (window a)))
  /\ match fst (analyzeImage base64Data (window a)) with
     | Ok _ => ImageAnalyzer.error (analyzer (settle call a))
               = ImageAnalyzer.error (analyzer a)
     | Threw _ => ImageAnalyzer.result (analyzer (settle call a))
                  = ImageAnalyzer.result (analyzer a)
     end.
Proof.
  intros Hf. unfold settle. rewrite Hf.
  destruct (analyzeImage_keeps_platform base64Data (window a)) as [Hp Hs].
  destruct (analyzeImage base64Data (window a)) as [settled w'].
  cbn [fst snd] in *. unfold in_analyzer. cbn [analyzer window camera calls nextCall acquiring].
  rewrite processAnalysis_resume_run.
  destruct settled as [r|e]; cbn [snd calls window analyzer shows
    ImageAnalyzer.status ImageAnalyzer.result ImageAnalyzer.error speechSynthesis];
    repeat split; try exact Hs; try apply Hp.
Qed.

(** C1, as the code has it: when [processAnalysis] is called twice in
    quick succession, the final status, and the result or the error that
    goes with it, are those of whichever call settles last: the second
    call's when the calls settle in the order they were made, the first
    call's when they settle out of order.  No completion is discarded. *)
Theorem last_settled_call_shows
        (w : Window) (base64Data1 previewUrl1 base64Data2 previewUrl2 : JsString) :
  speechSynthesis w <> None ->
  shows (analyzer (run [Submit base64Data1 previewUrl1; Submit base64Data2 previewUrl2;
                        Settle 0; Settle 1] (mount w)))
        (fst (analyzeImage base64Data2 w))
  /\ shows (analyzer (run [Submit base64Data1 previewUrl1; Submit base64Data2 previewUrl2;
                           Settle 1; Settle 0] (mount w)))
           (fst (analyzeImage base64Data1 w)).
Proof.
  intros Hs. destruct (speechSynthesis w) as [q|] eqn:Eq; [clear Hs|congruence].
  cbn [run apply_event]. rewrite !processAnalysis_run.
  cbn [mount window analyzer camera calls nextCall acquiring set_speech speechSynthesis
       ImageAnalyzer.isCameraOpen ImageAnalyzer.init app].
  rewrite Eq.
  cbn [mount window analyzer camera calls nextCall acquiring set_speech speechSynthesis
       ImageAnalyzer.isCameraOpen ImageAnalyzer.init app].
  match goal with
  | |- shows (analyzer (settle 1 (settle 0 ?a2))) _ /\ _ => set (a := a2)
  end.
  assert (Hw : same_platform w (window a)) by (repeat split).
  split.
  - destruct (@settle_run 0 base64Data1 a eq_refl) as (Hc & Hp & _).
    assert (Hf : find_call 1 (calls (settle 0 a)) = Some base64Data2)
      by (rewrite Hc; reflexivity).
    destruct (settle_run _ _ Hf) as (_ & _ & _ & Hshow & _).
    rewrite (analyzeImage_same_platform base64Data2
               (same_platform_trans Hw Hp)).
    exact Hshow.
  - destruct (@settle_run 1 base64Data2 a eq_refl) as (Hc & Hp & _).
    assert (Hf : find_call 0 (calls (settle 1 a)) = Some base64Data1)
      by (rewrite Hc; reflexivity).
    destruct (settle_run _ _ Hf) as (_ & _ & _ & Hshow & _).
    rewrite (analyzeImage_same_platform base64Data1
               (same_platform_trans Hw Hp)).
    exact Hshow.
Qed.

Lemma last_settled_call_shows_witness :
  speechSynthesis chrome <> None
  /\ shows (analyzer (run [Submit (js "cat") (js "blob:1"); Submit (js "dog") (js "blob:2");
                           Settle 0; Settle 1] (mount chrome)))
           (fst (analyzeImage (js "dog") chrome))
  /\ shows (analyzer (run [Submit (js "cat") (js "blob:1"); Submit (js "dog") (js "blob:2");
                           Settle 1; Settle 0] (mount chrome)))
           (fst (analyzeImage (js "cat") chrome)).
Proof.
  assert (H : speechSynthesis chrome <> None) by discriminate.
  split; [exact H|].
  exact (@last_settled_call_shows chrome (js "cat") (js "blob:1") (js "dog") (js "blob:2") H).
Defined.

(** C1 as stated fails: two calls, the second settles first, the first
    settles last; the final state is not the one the second call produces,
    it holds the first call's result. *)
Lemma superseded_call_overwrites :
  offered_all [Submit (js "cat") (js "blob:1"); Submit (js "dog") (js "blob:2");
               Settle 1; Settle 0] (mount chrome) = true
  /\ ~ produced_by
         (analyzer (run [Submit (js "cat") (js "blob:1"); Submit (js "dog") (js "blob:2");
                         Settle 1; Settle 0] (mount chrome)))
         (fst (analyzeImage (js "dog") chrome))
  /\ ImageAnalyzer.result
       (analyzer (run [Submit (js "cat") (js "blob:1"); Submit (js "dog") (js "blob:2");
                       Settle 1; Settle 0] (mount chrome)))
     = Some (JObject [(js "description", JString (js "A cat."));
                      (js "keywords", JArray [JString (js "cat")]);
                      (js "phonetics", JObject [(js "cat", JString (js "kat"))])]).
Proof.
  split; [vm_compute; reflexivity|].
  split; [|vm_compute; reflexivity].
  intros H. vm_compute in H. destruct H as (_ & H & _). discriminate.
Qed.

(** The camera's handlers leave the analysis alone. *)
Lemma in_camera_core {A} (m : M (CameraCapture.State * Window) A) (a : App) :
  core (snd (in_camera m a)) = core a
  /\ ImageAnalyzer.isCameraOpen (analyzer (snd (in_camera m a)))
     = ImageAnalyzer.isCameraOpen (analyzer a).
Proof.
  unfold in_camera. destruct (m (camera a, window a)) as [o [c w]]. split; reflexivity.
Qed.

Lemma setIsCameraOpen_core (v : bool) (a : App) :
  core (setIsCameraOpen v a) = core a.
Proof.
  unfold setIsCameraOpen.
  destruct (Bool.eqb (ImageAnalyzer.isCameraOpen (analyzer a)) v); [reflexivity|].
  set (a1 := snd (in_analyzer (ImageAnalyzer.setIsCameraOpen v) a)).
  assert (H1 : core a1 = core a) by reflexivity.
  set (a2 := snd (in_camera (CameraCapture.render v) a1)).
  assert (H2 : core a2 = core a1) by apply in_camera_core.
  pose proof (proj1 (in_camera_core (CameraCapture.effect v) a2)) as H3.
  destruct (in_camera (CameraCapture.effect v) a2) as [[[|]|e] a3];
    cbn [snd] in H3; rewrite <- H1, <- H2, <- H3; reflexivity.
Qed.

Lemma getUserMedia_settles_core (settled : Outcome MediaStream) (a : App) :
  core (getUserMedia_settles settled a) = core a.
Proof.
  unfold getUserMedia_settles. destruct (acquiring a); [reflexivity|].
  rewrite (proj1 (in_camera_core _ _)). reflexivity.
Qed.

Lemma settled_or_waiting_core (a a' : App) :
  core a' = core a -> settled_or_waiting a -> settled_or_waiting a'.
Proof.
  unfold core, settled_or_waiting, consistent. intros H.
  injection H as -> -> -> ->. trivial.
Qed.

Lemma processAnalysis_waiting (base64Data previewUrl : JsString) (a : App) :
  (List.length (calls (processAnalysis base64Data previewUrl a)) <= 1)%nat ->
  settled_or_waiting (processAnalysis base64Data previewUrl a).
Proof.
  rewrite processAnalysis_run. unfold settled_or_waiting, consistent.
  destruct (speechSynthesis (window a));
    cbn [analyzer calls ImageAnalyzer.status ImageAnalyzer.result ImageAnalyzer.error
         non_null];
    intros Hl; (split; [split; split; intros; congruence|]);
    (split; [exact Hl|]); split; reflexivity.
Qed.

Lemma valid_non_null (v : JsValue) : lacks_description v = false -> non_null (Some v) = true.
Proof. destruct v; try reflexivity; discriminate. Qed.

Lemma single_call (call : nat) (d : JsString) (l : list (nat * JsString)) :
  (List.length l <= 1)%nat -> find_call call l = Some d -> drop_call call l = [].
Proof.
  destruct l as [|[n d'] [|x l]]; cbn [List.length find_call drop_call filter fst];
    intros Hl Hf; try discriminate; try lia.
  destruct (Nat.eqb n call); [reflexivity|discriminate].
Qed.

Lemma settle_settled (call : nat) (a : App) :
  settled_or_waiting a -> settled_or_waiting (settle call a).
Proof.
  intros (Hc & Hl & Hw).
  destruct (find_call call (calls a)) as [d|] eqn:Hf;
    [|unfold settle; rewrite Hf; repeat split; solve [apply Hc | exact Hl | apply Hw; assumption]].
  assert (Hne : calls a <> []) by (intros E; rewrite E in Hf; discriminate).
  destruct (Hw Hne) as [Hr He].
  destruct (settle_run _ _ Hf) as (Hcalls & _ & _ & Hshow & Hother).
  rewrite (@single_call call d (calls a) Hl Hf) in Hcalls.
  unfold settled_or_waiting. rewrite Hcalls.
  split; [|split; [cbn; lia|congruence]].
  unfold consistent.
  destruct (fst (analyzeImage d (window a))) as [r|e] eqn:Eo; cbn [shows] in Hshow.
  - destruct Hshow as [Hst Hres]. rewrite Hst, Hres, Hother, He.
    assert (Hnn : non_null (Some r) = true)
      by (apply valid_non_null; exact (proj1 (@analyzeImage_ok_valid _ _ _ Eo))).
    rewrite Hnn.
    split; split; intros; congruence.
  - destruct Hshow as [Hst Herr]. rewrite Hst, Herr, Hother, Hr.
    cbn [non_null]. split; split; intros; congruence.
Qed.

Lemma reset_waiting (a : App) :
  settled_or_waiting a ->
  settled_or_waiting (snd (in_analyzer (ImageAnalyzer.resetState true) a)).
Proof.
  intros (_ & Hl & _). unfold in_analyzer. rewrite resetState_run. cbv zeta.
  unfold settled_or_waiting, consistent.
  destruct (speechSynthesis (window a));
    cbn [snd analyzer calls ImageAnalyzer.status ImageAnalyzer.result
         ImageAnalyzer.error non_null];
    (split; [split; split; intros; congruence|]);
    (split; [exact Hl|]); split; reflexivity.
Qed.

Lemma apply_event_settled (e : Event) (a : App) :
  settled_or_waiting a ->
  (List.length (calls (apply_event e a)) <= 1)%nat ->
  settled_or_waiting (apply_event e a).
Proof.
  intros Ha Hl. destruct e as [d p|c| | | |st|err| |frame]; cbn [apply_event] in *.
  - apply processAnalysis_waiting. exact Hl.
  - apply settle_settled. exact Ha.
  - apply reset_waiting. exact Ha.
  - unfold handleCameraButtonClick. destruct (isMobile (window a)); [exact Ha|].
    exact (settled_or_waiting_core (setIsCameraOpen_core _ _) Ha).
  - exact (settled_or_waiting_core (setIsCameraOpen_core _ _) Ha).
  - exact (settled_or_waiting_core (getUserMedia_settles_core _ _) Ha).
  - exact (settled_or_waiting_core (getUserMedia_settles_core _ _) Ha).
  - exact (settled_or_waiting_core (proj1 (in_camera_core _ _)) Ha).
  - unfold handleCapture in *.
    destruct (ImageAnalyzer.isCameraOpen (analyzer a)); [|exact Ha].
    destruct frame as [url|]; [|exact Ha].
    apply (settled_or_waiting_core (setIsCameraOpen_core _ _)).
    apply processAnalysis_waiting.
    assert (E := setIsCameraOpen_core false (handleCameraCapture url a)).
    unfold core in E. injection E as _ _ _ E. rewrite E in Hl. exact Hl.
Qed.

Lemma mount_settled (w : Window) : settled_or_waiting (mount w).
Proof.
  unfold settled_or_waiting, consistent. cbn.
  split; [split; split; intros; congruence|]. split; [lia|]. split; reflexivity.
Qed.

Lemma run_settled (events : list Event) (a : App) :
  settled_or_waiting a -> single_flight events a = true ->
  settled_or_waiting (run events a).
Proof.
  revert a. induction events as [|e rest IH]; intros a Ha Hs; [exact Ha|].
  cbn [single_flight] in Hs. apply andb_prop in Hs. destruct Hs as [Hl Hs].
  apply Nat.leb_le in Hl. cbn [run]. apply IH; [|exact Hs].
  apply apply_event_settled; assumption.
Qed.

(** C5, as the code has it: in every state the page reaches while at most
    one interpretation is in flight at a time, result is non-null exactly
    when the status is success and error is non-null exactly when the status
    is error; starting a call, its success, its failure, a reset and the
    camera's events all keep it so. *)
Theorem consistent_while_single_flight (w : Window) (events : list Event) :
  single_flight events (mount w) = true ->
  consistent (analyzer (run events (mount w))).
Proof.
  intros H. exact (proj1 (run_settled events (mount_settled w) H)).
Qed.

Lemma consistent_while_single_flight_witness :
  single_flight [Submit (js "cat") (js "blob:1"); Settle 0; Reset;
                 Submit (js "text") (js "blob:2"); Settle 1] (mount chrome) = true
  /\ consistent (analyzer (run [Submit (js "cat") (js "blob:1"); Settle 0; Reset;
                                Submit (js "text") (js "blob:2"); Settle 1]
                               (mount chrome))).
Proof.
  assert (H : single_flight [Submit (js "cat") (js "blob:1"); Settle 0; Reset;
                             Submit (js "text") (js "blob:2"); Settle 1] (mount chrome)
              = true) by (vm_compute; reflexivity).
  split; [exact H|].
  exact (@consistent_while_single_flight chrome _ H).
Defined.

(** C5 as stated fails: the first call succeeds, then the second,
    made before the first had settled, fails; the status is error while
    result still holds the first call's value. *)
Lemma overlapping_calls_break_consistency :
  offered_all [Submit (js "cat") (js "blob:1"); Submit (js "text") (js "blob:2");
               Settle 0; Settle 1] (mount chrome) = true
  /\ ~ consistent
         (analyzer (run [Submit (js "cat") (js "blob:1"); Submit (js "text") (js "blob:2");
                         Settle 0; Settle 1] (mount chrome))).
Proof.
  split; [vm_compute; reflexivity|].
  intros [H _]. vm_compute in H. destruct H as [H _]. specialize (H eq_refl).
  discriminate.
Qed.

(** ** The camera capture view *)

Lemma stopped_cons (t : nat) (stream : MediaStream) (live : list nat) :
  stopped stream (filter (fun x => negb (Nat.eqb x t)) live) = stopped (t :: stream) live.
Proof.
  unfold stopped. induction live as [|x live IH]; [reflexivity|].
  cbn [filter existsb]. destruct (Nat.eqb x t); cbn [negb orb filter].
  - exact IH.
  - destruct (existsb (Nat.eqb x) stream); cbn [negb]; [exact IH|].
    f_equal. exact IH.
Qed.

Lemma stopped_nil (live : list nat) : stopped [] live = live.
Proof.
  unfold stopped. induction live as [|x live IH]; [reflexivity|].
  cbn [filter existsb negb]. f_equal. exact IH.
Qed.

(** [stream.getTracks().forEach(track => track.stop())] *)
Lemma forEach_stop (stream : MediaStream) (c : CameraCapture.State) (w : Window) :
  forEach stream (fun track => liftW (track_stop track)) (c, w)
  = (Ok tt, (c, set_liveTracks (stopped stream (liveTracks w)) w)).
Proof.
  revert w. induction stream as [|t stream IH]; intros w.
  - cbn [forEach]. rewrite stopped_nil. destruct w. reflexivity.
  - cbn [forEach]. unfold bind at 1. unfold liftW at 1, track_stop at 1, modify at 1.
    cbn [fst snd]. rewrite IH. cbn [set_liveTracks liveTracks].
    rewrite stopped_cons. reflexivity.
Qed.

Lemma stopCamera_run (c : CameraCapture.State) (w : Window) :
  CameraCapture.stopCamera (c, w)
  = match CameraCapture.streamRef c with
    | Some stream =>
        (Ok tt,
         (CameraCapture.mkState None (CameraCapture.srcObject c)
            (CameraCapture.error c) (CameraCapture.isLoading c),
          set_liveTracks (stopped stream (liveTracks w)) w))
    | None => (Ok tt, (c, w))
    end.
Proof.
  unfold CameraCapture.stopCamera. unfold bind at 1. unfold get at 1. cbn [fst].
  destruct (CameraCapture.streamRef c) as [stream|]; [|reflexivity].
  unfold bind. rewrite forEach_stop. reflexivity.
Qed.

(** After the effect has run, for a view that opens as for one that
    closes, the stream that was held is torn down and none is held. *)
Lemma effect_tears_down (isOpen : bool) (c : CameraCapture.State) (w : Window) :
  CameraCapture.streamRef (fst (snd (CameraCapture.effect isOpen (c, w)))) = None
  /\ liveTracks (snd (snd (CameraCapture.effect isOpen (c, w))))
     = match CameraCapture.streamRef c with
       | Some stream => stopped stream (liveTracks w)
       | None => liveTracks w
       end.
Proof.
  assert (E : CameraCapture.effect isOpen (c, w)
              = match CameraCapture.stopCamera (c, w) with
                | (Ok _, sw) =>
                    (if isOpen then CameraCapture.startCamera_begin
                     else bind CameraCapture.stopCamera (fun _ => ret false)) sw
                | (Threw e, sw) => (Threw e, sw)
                end) by reflexivity.
  rewrite E, stopCamera_run. clear E.
  destruct c as [[stream|] so e l], w as [a sp md mob m1 m2 m3 co t rv lt];
    cbn [CameraCapture.streamRef CameraCapture.srcObject CameraCapture.error
         CameraCapture.isLoading set_liveTracks liveTracks];
    destruct isOpen; try (unfold bind at 1; rewrite stopCamera_run);
    try (destruct md); split; reflexivity.
Qed.

Lemma in_camera_run {A} (m : M (CameraCapture.State * Window) A) (a : App) :
  camera (snd (in_camera m a)) = fst (snd (m (camera a, window a)))
  /\ window (snd (in_camera m a)) = snd (snd (m (camera a, window a)))
  /\ fst (in_camera m a) = fst (m (camera a, window a)).
Proof.
  unfold in_camera. destruct (m (camera a, window a)) as [o [c w]].
  repeat split.
Qed.

Lemma torn_down_stopped (stream : MediaStream) (w : Window) (live : list nat) :
  liveTracks w = stopped stream live -> torn_down stream w.
Proof.
  intros E t Ht Hin. rewrite E in Hin. unfold stopped in Hin.
  apply filter_In in Hin. destruct Hin as [_ Hn].
  assert (He : existsb (Nat.eqb t) stream = true).
  { apply existsb_exists. exists t. split; [exact Ht|apply Nat.eqb_refl]. }
  rewrite He in Hn. discriminate.
Qed.

(** A change of [isOpen], either way, tears the held stream down. *)
Lemma setIsCameraOpen_tears_down (v : bool) (a : App) :
  ImageAnalyzer.isCameraOpen (analyzer a) = negb v ->
  CameraCapture.streamRef (camera (setIsCameraOpen v a)) = None
  /\ liveTracks (window (setIsCameraOpen v a))
     = match CameraCapture.streamRef (camera a) with
       | Some stream => stopped stream (liveTracks (window a))
       | None => liveTracks (window a)
       end.
Proof.
  intros Hv. unfold setIsCameraOpen. rewrite Hv.
  replace (Bool.eqb (negb v) v) with false by (destruct v; reflexivity).
  set (a1 := snd (in_analyzer (ImageAnalyzer.setIsCameraOpen v) a)).
  set (a2 := snd (in_camera (CameraCapture.render v) a1)).
  assert (H2 : CameraCapture.streamRef (camera a2) = CameraCapture.streamRef (camera a)
               /\ window a2 = window a).
  { unfold a2, a1, in_camera, in_analyzer, CameraCapture.render.
    destruct v; destruct (camera a); split; reflexivity. }
  destruct H2 as [Hs Hw].
  destruct (in_camera_run (CameraCapture.effect v) a2) as (Hc & Hwin & _).
  destruct (effect_tears_down v (camera a2) (window a2)) as [E1 E2].
  rewrite <- Hc in E1. rewrite <- Hwin, Hs, Hw in E2.
  destruct (in_camera (CameraCapture.effect v) a2) as [[[|]|e] a3];
    cbn [snd camera window] in *; split; assumption.
Qed.

(** C8, as the code has it: whenever the capture view closes, by its
    close button or after a capture, and whenever it is opened again, the
    stream held in [streamRef] at that moment has every track stopped and
    the reference is cleared, whatever the loading and error flags say; a
    full reset of the state does not touch the camera. *)
Theorem view_change_tears_down_held_stream
        (a : App) (stream : MediaStream) (imageDataUrl : JsString) :
  CameraCapture.streamRef (camera a) = Some stream ->
  (ImageAnalyzer.isCameraOpen (analyzer a) = true ->
   (torn_down stream (window (apply_event CloseView a))
    /\ CameraCapture.streamRef (camera (apply_event CloseView a)) = None)
   /\ (torn_down stream (window (apply_event (Capture (Some imageDataUrl)) a))
       /\ CameraCapture.streamRef
            (camera (apply_event (Capture (Some imageDataUrl)) a)) = None))
  /\ (ImageAnalyzer.isCameraOpen (analyzer a) = false ->
      isMobile (window a) = false ->
      torn_down stream (window (apply_event CameraButton a))
      /\ CameraCapture.streamRef (camera (apply_event CameraButton a)) = None)
  /\ (camera (apply_event Reset a) = camera a
      /\ liveTracks (window (apply_event Reset a)) = liveTracks (window a)).
Proof.
  intros Hs. split; [|split].
  - intros Ho. split.
    + cbn [apply_event].
      destruct (@setIsCameraOpen_tears_down false a Ho) as [E1 E2].
      rewrite Hs in E2. split; [exact (@torn_down_stopped _ _ _ E2)|exact E1].
    + cbn [apply_event]. unfold handleCapture, handleCameraCapture. rewrite Ho.
      set (a' := processAnalysis _ _ a).
      assert (Ha' : ImageAnalyzer.isCameraOpen (analyzer a') = true
                    /\ camera a' = camera a
                    /\ liveTracks (window a') = liveTracks (window a)).
      { unfold a'. rewrite processAnalysis_run.
        destruct (speechSynthesis (window a)); repeat split; assumption. }
      destruct Ha' as (Ho' & Hc' & Hl').
      destruct (@setIsCameraOpen_tears_down false a' Ho') as [E1 E2].
      rewrite Hc', Hs, Hl' in E2. split; [exact (@torn_down_stopped _ _ _ E2)|exact E1].
  - intros Ho Hm. cbn [apply_event]. unfold handleCameraButtonClick. rewrite Hm.
    destruct (@setIsCameraOpen_tears_down true a Ho) as [E1 E2].
    rewrite Hs in E2. split; [exact (@torn_down_stopped _ _ _ E2)|exact E1].
  - cbn [apply_event]. unfold in_analyzer. rewrite resetState_run. cbv zeta.
    destruct (speechSynthesis (window a)); split; reflexivity.
Qed.

Lemma view_change_tears_down_held_stream_witness :
  CameraCapture.streamRef
    (camera (run [CameraButton; Acquired [1; 2]%nat; LoadedMetadata] (mount chrome)))
  = Some [1; 2]%nat
  /\ liveTracks (window (run [CameraButton; Acquired [1; 2]%nat; LoadedMetadata]
                             (mount chrome))) = [1; 2]%nat
  /\ torn_down [1; 2]%nat
       (window (run [CameraButton; Acquired [1; 2]%nat; LoadedMetadata; CloseView]
                    (mount chrome)))
  /\ torn_down [1; 2]%nat
       (window (run [CameraButton; Acquired [1; 2]%nat; LoadedMetadata;
                     Capture (Some (js "data:image/jpeg;base64,cat"))]
                    (mount chrome))).
Proof.
  assert (Hs : CameraCapture.streamRef
                 (camera (run [CameraButton; Acquired [1; 2]%nat; LoadedMetadata]
                              (mount chrome))) = Some [1; 2]%nat) by reflexivity.
  assert (Ho : ImageAnalyzer.isCameraOpen
                 (analyzer (run [CameraButton; Acquired [1; 2]%nat; LoadedMetadata]
                                (mount chrome))) = true) by reflexivity.
  destruct (@view_change_tears_down_held_stream _ _ (js "data:image/jpeg;base64,cat") Hs)
    as (H & _ & _).
  destruct (H Ho) as ((H1 & _) & (H2 & _)).
  split; [exact Hs|]. split; [reflexivity|]. split; [exact H1|exact H2].
Defined.

(** C8 as stated fails, in two ways.  A full reset with the view open
    leaves the stream live.  And when the view is closed while
    [getUserMedia] is still pending, the stream it then delivers is live
    with the view closed, and still live after an analysis and a full
    reset. *)
Lemma stream_outlives_view_and_reset :
  (offered_all [CameraButton; Acquired [1; 2]%nat; Submit (js "cat") (js "blob:1");
                Settle 0; Reset] (mount chrome) = true
   /\ ImageAnalyzer.status
        (analyzer (run [CameraButton; Acquired [1; 2]%nat; Submit (js "cat") (js "blob:1");
                        Settle 0; Reset] (mount chrome)))
      = Idle
   /\ ~ torn_down [1; 2]%nat
          (window (run [CameraButton; Acquired [1; 2]%nat; Submit (js "cat") (js "blob:1");
                        Settle 0; Reset] (mount chrome))))
  /\ (offered_all [CameraButton; CloseView; Acquired [1; 2]%nat;
                   Submit (js "cat") (js "blob:1"); Settle 0; Reset] (mount chrome) = true
      /\ ImageAnalyzer.isCameraOpen
           (analyzer (run [CameraButton; CloseView; Acquired [1; 2]%nat] (mount chrome)))
         = false
      /\ liveTracks (window (run [CameraButton; CloseView; Acquired [1; 2]%nat]
                                 (mount chrome))) = [1; 2]%nat
      /\ ~ torn_down [1; 2]%nat
             (window (run [CameraButton; CloseView; Acquired [1; 2]%nat;
                           Submit (js "cat") (js "blob:1"); Settle 0; Reset]
                          (mount chrome)))).
Proof.
  split.
  - split; [vm_compute; reflexivity|].
    split; [vm_compute; reflexivity|].
    intros H. apply (H 1%nat); [left; reflexivity|].
    vm_compute. left. reflexivity.
  - split; [vm_compute; reflexivity|].
    split; [vm_compute; reflexivity|].
    split; [vm_compute; reflexivity|].
    intros H. apply (H 1%nat); [left; reflexivity|].
    vm_compute. left. reflexivity.
Qed.

(** ** [JSON.parse] never runs out of fuel *)

Local Open Scope nat_scope.

Lemma skip_json_ws_length (s : JsString) :
  List.length (skip_json_ws s) <= List.length s.
Proof.
  induction s as [|c s IH]; cbn [skip_json_ws]; [lia|].
  destruct (is_json_ws c); cbn [List.length] in *; lia.
Qed.

Lemma parse_escape_length (s r : JsString) (u : N) :
  parse_escape s = Some (u, r) -> List.length r < List.length s.
Proof.
  unfold parse_escape. destruct s as [|c s]; [discriminate|].
  repeat match goal with
         | |- context [if ?b then _ else _] => destruct b
         end;
    try (intros H; injection H as _ <-; cbn [List.length]; lia);
    try discriminate.
  destruct s as [|h1 [|h2 [|h3 [|h4 s]]]]; try discriminate.
  destruct (hex_value h1), (hex_value h2), (hex_value h3), (hex_value h4);
    try discriminate.
  intros H. injection H as _ <-. cbn [List.length]. lia.
Qed.

Lemma parse_chars_length (fuel : nat) (s str rest : JsString) :
  parse_chars fuel s = Some (str, rest) -> List.length rest < List.length s.
Proof.
  revert s str rest. induction fuel as [|n IH]; intros s str rest; [discriminate|].
  cbn [parse_chars]. destruct s as [|c r]; [discriminate|].
  destruct (N.eqb c 34).
  - intros H. injection H as _ <-. cbn [List.length]. lia.
  - destruct (N.eqb c 92).
    + destruct (parse_escape r) as [[u r']|] eqn:Ee; [|discriminate].
      destruct (parse_chars n r') as [[str' rest']|] eqn:Ec; [|discriminate].
      intros H. injection H as _ <-.
      apply parse_escape_length in Ee. apply IH in Ec. cbn [List.length]. lia.
    + destruct (N.ltb c 32); [discriminate|].
      destruct (parse_chars n r) as [[str' rest']|] eqn:Ec; [|discriminate].
      intros H. injection H as _ <-. apply IH in Ec. cbn [List.length]. lia.
Qed.

Lemma parse_digits_length (acc : N) (count : nat) (s : JsString) :
  List.length (snd (parse_digits acc count s)) <= List.length s.
Proof.
  revert acc count. induction s as [|c s IH]; intros acc count; cbn [parse_digits].
  - cbn. lia.
  - destruct (is_digit c); [|cbn; lia].
    specialize (IH (acc * 10 + (c - 48))%N (S count)). cbn [List.length]. lia.
Qed.

Lemma parse_int_length (s r : JsString) (m : N) :
  parse_int s = Some (m, r) -> List.length r < List.length s.
Proof.
  unfold parse_int. destruct s as [|c s]; [discriminate|].
  destruct (N.eqb c 48).
  - intros H. injection H as _ <-. cbn [List.length]. lia.
  - destruct (is_digit c); [|discriminate].
    pose proof (parse_digits_length (c - 48)%N 1 s) as Hl.
    destruct (parse_digits (c - 48)%N 1 s) as [[m' k] r'].
    intros H. injection H as _ <-. cbn [snd List.length] in *. lia.
Qed.

Lemma parse_frac_length (m m' : N) (k : nat) (s r : JsString) :
  parse_frac m s = Some (m', k, r) -> List.length r <= List.length s.
Proof.
  unfold parse_frac. destruct s as [|c s].
  - intros H. injection H as _ _ <-. lia.
  - destruct (N.eqb c 46).
    + pose proof (parse_digits_length m 0 s) as Hl.
      destruct (parse_digits m 0 s) as [[m1 k1] r1].
      destruct k1; [discriminate|].
      intros H. injection H as _ _ <-. cbn [snd List.length] in *. lia.
    + intros H. injection H as _ _ <-. lia.
Qed.

Lemma parse_exp_length (e : Z) (s r : JsString) :
  parse_exp s = Some (e, r) -> List.length r <= List.length s.
Proof.
  unfold parse_exp. destruct s as [|c s].
  - intros H. injection H as _ <-. lia.
  - destruct (N.eqb c 101 || N.eqb c 69).
    + set (p := match s with
                | c' :: r' =>
                    if N.eqb c' 45 then (true, r')
                    else if N.eqb c' 43 then (false, r') else (false, s)
                | [] => (false, s)
                end).
      assert (Hp : List.length (snd p) <= List.length s).
      { unfold p. destruct s as [|c' r']; [cbn; lia|].
        destruct (N.eqb c' 45); [cbn; lia|].
        destruct (N.eqb c' 43); cbn; lia. }
      destruct p as [sign r1].
      pose proof (parse_digits_length 0%N 0 r1) as Hl.
      destruct (parse_digits 0%N 0 r1) as [[e1 k1] r2].
      destruct k1; [discriminate|].
      intros H. injection H as _ <-. cbn [snd List.length] in *. lia.
    + intros H. injection H as _ <-. lia.
Qed.

Lemma parse_number_length (s r : JsString) (d : Decimal) :
  parse_number s = Some (d, r) -> List.length r < List.length s.
Proof.
  unfold parse_number.
  set (p := match s with
            | c :: r0 => if N.eqb c 45 then (true, r0) else (false, s)
            | [] => (false, s)
            end).
  assert (Hp : List.length (snd p) <= List.length s).
  { unfold p. destruct s as [|c r0]; [cbn; lia|].
    destruct (N.eqb c 45); cbn; lia. }
  destruct p as [sign s1]. cbn [snd] in Hp.
  destruct (parse_int s1) as [[m s2]|] eqn:Ei; [|discriminate].
  destruct (parse_frac m s2) as [[[m' k] s3]|] eqn:Ef; [|discriminate].
  destruct (parse_exp s3) as [[e s4]|] eqn:Ee; [|discriminate].
  intros H. injection H as _ <-.
  apply parse_int_length in Ei. apply parse_frac_length in Ef.
  apply parse_exp_length in Ee. lia.
Qed.

Lemma startsWith_length (s p : JsString) :
  startsWith s p = true -> List.length p <= List.length s.
Proof.
  revert s. induction p as [|c p IH]; intros s H; [cbn; lia|].
  destruct s as [|x s]; [discriminate|].
  cbn [startsWith] in H. apply andb_prop in H. destruct H as [_ H].
  apply IH in H. cbn [List.length]. lia.
Qed.

Lemma parse_literal_length (s r : JsString) (v : JsValue) :
  parse_literal s = Some (v, r) -> List.length r < List.length s.
Proof.
  unfold parse_literal.
  destruct (startsWith s (js "true")) eqn:E1.
  - intros H. assert (Hr : r = skipn 4 s) by congruence. subst r.
    apply startsWith_length in E1.
    rewrite length_skipn. change (List.length (js "true")) with 4 in E1. lia.
  - destruct (startsWith s (js "false")) eqn:E2.
    + intros H. assert (Hr : r = skipn 5 s) by congruence. subst r.
      apply startsWith_length in E2.
      rewrite length_skipn. change (List.length (js "false")) with 5 in E2. lia.
    + destruct (startsWith s (js "null")) eqn:E3; [|discriminate].
      intros H. assert (Hr : r = skipn 4 s) by congruence. subst r.
      apply startsWith_length in E3.
      rewrite length_skipn. change (List.length (js "null")) with 4 in E3. lia.
Qed.

(** The parser has refused the text: it neither ran out of fuel nor read
    a value. *)
Ltac refused := split; [discriminate | intros; discriminate].

(** With fuel above twice the length of the text, the parser stops
    because it has an answer, and a value it reads takes at least one
    code unit. *)
Lemma parse_fuel (fuel : nat) :
  (forall s, 2 * List.length s + 1 <= fuel ->
     parse_value fuel s <> OutOfFuel
     /\ forall v r, parse_value fuel s = Got v r -> List.length r < List.length s)
  /\ (forall acc s, 2 * List.length s + 2 <= fuel ->
        parse_elements fuel acc s <> OutOfFuel
        /\ forall v r, parse_elements fuel acc s = Got v r ->
                       List.length r < List.length s)
  /\ (forall acc s, 2 * List.length s + 2 <= fuel ->
        parse_members fuel acc s <> OutOfFuel
        /\ forall v r, parse_members fuel acc s = Got v r ->
                       List.length r < List.length s).
Proof.
  induction fuel as [|n (IHv & IHe & IHm)].
  - repeat split; intros; lia.
  - split; [|split].
    + intros s Hs. cbn [parse_value].
      pose proof (skip_json_ws_length s) as Hw.
      destruct (skip_json_ws s) as [|c r]; [refused|].
      cbn [List.length] in Hw.
      destruct (N.eqb c 123).
      { pose proof (skip_json_ws_length r) as Hw'.
        destruct (skip_json_ws r) as [|c' r'];
          [refused|].
        cbn [List.length] in Hw'.
        destruct (N.eqb c' 125).
        - split; [discriminate|]. intros v r0 H. injection H as _ <-. lia.
        - destruct (IHm [] (c' :: r')) as [H1 H2]; [cbn [List.length]; lia|].
          split; [exact H1|]. intros v r0 H. apply H2 in H. cbn [List.length] in H. lia. }
      destruct (N.eqb c 91).
      { pose proof (skip_json_ws_length r) as Hw'.
        destruct (skip_json_ws r) as [|c' r'];
          [refused|].
        cbn [List.length] in Hw'.
        destruct (N.eqb c' 93).
        - split; [discriminate|]. intros v r0 H. injection H as _ <-. lia.
        - destruct (IHe [] (c' :: r')) as [H1 H2]; [cbn [List.length]; lia|].
          split; [exact H1|]. intros v r0 H. apply H2 in H. cbn [List.length] in H. lia. }
      destruct (N.eqb c 34).
      { unfold parse_string.
        destruct (parse_chars (List.length r) r) as [[str rest]|] eqn:Ec;
          [|refused].
        apply parse_chars_length in Ec.
        split; [discriminate|]. intros v r0 H. injection H as _ <-. lia. }
      destruct (N.eqb c 45 || is_digit c).
      { destruct (parse_number (c :: r)) as [[d rest]|] eqn:En;
          [|refused].
        apply parse_number_length in En. cbn [List.length] in En.
        split; [discriminate|]. intros v r0 H. injection H as _ <-. lia. }
      destruct (parse_literal (c :: r)) as [[v0 rest]|] eqn:El;
        [|refused].
      apply parse_literal_length in El. cbn [List.length] in El.
      split; [discriminate|]. intros v r0 H. injection H as _ <-. lia.
    + intros acc s Hs. cbn [parse_elements].
      destruct (IHv s) as [H1 H2]; [lia|].
      destruct (parse_value n s) as [v0 r0| |] eqn:Ev;
        [|refused|congruence].
      specialize (H2 _ _ eq_refl).
      pose proof (skip_json_ws_length r0) as Hw.
      destruct (skip_json_ws r0) as [|c r'];
        [refused|].
      cbn [List.length] in Hw.
      destruct (N.eqb c 44).
      { destruct (IHe (v0 :: acc) r') as [H3 H4]; [lia|].
        split; [exact H3|]. intros v r H. apply H4 in H. lia. }
      destruct (N.eqb c 93); [|refused].
      split; [discriminate|]. intros v r H. injection H as _ <-. lia.
    + intros acc s Hs. cbn [parse_members].
      pose proof (skip_json_ws_length s) as Hw.
      destruct (skip_json_ws s) as [|c r]; [refused|].
      cbn [List.length] in Hw.
      destruct (N.eqb c 34); [|refused].
      unfold parse_string.
      destruct (parse_chars (List.length r) r) as [[k r1]|] eqn:Ec;
        [|refused].
      apply parse_chars_length in Ec.
      pose proof (skip_json_ws_length r1) as Hw1.
      destruct (skip_json_ws r1) as [|c1 r2];
        [refused|].
      cbn [List.length] in Hw1.
      destruct (N.eqb c1 58); [|refused].
      destruct (IHv r2) as [H1 H2]; [lia|].
      destruct (parse_value n r2) as [v0 r3| |] eqn:Ev;
        [|refused|congruence].
      specialize (H2 _ _ eq_refl).
      pose proof (skip_json_ws_length r3) as Hw3.
      destruct (skip_json_ws r3) as [|c3 r4];
        [refused|].
      cbn [List.length] in Hw3.
      destruct (N.eqb c3 44).
      { destruct (IHm (set_prop k v0 acc) r4) as [H3 H4]; [lia|].
        split; [exact H3|]. intros v r0 H. apply H4 in H. lia. }
      destruct (N.eqb c3 125); [|refused].
      split; [discriminate|]. intros v r0 H. injection H as _ <-. lia.
Qed.

(** [JSON.parse] answers [None] only for a text the grammar refuses. *)
Lemma JSON_parse_none (text : JsString) :
  JSON_parse text = None ->
  parse_value (2 * List.length text + 1) text = Bad
  \/ exists v rest, parse_value (2 * List.length text + 1) text = Got v rest
                    /\ skip_json_ws rest <> [].
Proof.
  unfold JSON_parse. intros H.
  destruct (proj1 (parse_fuel (2 * List.length text + 1)) text (le_n _)) as [Hf _].
  destruct (parse_value (2 * List.length text + 1) text) as [v rest| |];
    [right|left; reflexivity|congruence].
  exists v, rest. split; [reflexivity|].
  destruct (skip_json_ws rest); [discriminate|discriminate].
Qed.

(* ================================================================== *)
(** * Further properties of the code *)

Local Open Scope N_scope.

(** ** The response interpreter *)

(** [JSON.parse] never yields [undefined]. *)
Lemma parse_defined (fuel : nat) :
  (forall s v r, parse_value fuel s = Got v r -> v <> JUndefined)
  /\ (forall acc s v r, parse_elements fuel acc s = Got v r -> v <> JUndefined)
  /\ (forall acc s v r, parse_members fuel acc s = Got v r -> v <> JUndefined).
Proof.
  induction fuel as [|n (IHv & IHe & IHm)].
  - repeat split; intros; discriminate.
  - split; [|split].
    + intros s v r. cbn [parse_value].
      destruct (skip_json_ws s) as [|c r0]; [discriminate|].
      destruct (N.eqb c 123).
      { destruct (skip_json_ws r0) as [|c' r']; [discriminate|].
        destruct (N.eqb c' 125); [intros H; injection H as <- _; discriminate|].
        apply IHm. }
      destruct (N.eqb c 91).
      { destruct (skip_json_ws r0) as [|c' r']; [discriminate|].
        destruct (N.eqb c' 93); [intros H; injection H as <- _; discriminate|].
        apply IHe. }
      destruct (N.eqb c 34).
      { destruct (parse_string r0) as [[str rest]|]; [|discriminate].
        intros H. injection H as <- _. discriminate. }
      destruct (N.eqb c 45 || is_digit c).
      { destruct (parse_number (c :: r0)) as [[d rest]|]; [|discriminate].
        intros H. injection H as <- _. discriminate. }
      unfold parse_literal.
      destruct (startsWith (c :: r0) (js "true"));
        [intros H; injection H as <- _; discriminate|].
      destruct (startsWith (c :: r0) (js "false"));
        [intros H; injection H as <- _; discriminate|].
      destruct (startsWith (c :: r0) (js "null"));
        [intros H; injection H as <- _; discriminate|discriminate].
    + intros acc s v r. cbn [parse_elements].
      destruct (parse_value n s) as [v0 r0| |]; try discriminate.
      destruct (skip_json_ws r0) as [|c r']; [discriminate|].
      destruct (N.eqb c 44); [apply IHe|].
      destruct (N.eqb c 93); [|discriminate].
      intros H. injection H as <- _. discriminate.
    + intros acc s v r. cbn [parse_members].
      destruct (skip_json_ws s) as [|c r0]; [discriminate|].
      destruct (N.eqb c 34); [|discriminate].
      destruct (parse_string r0) as [[k r1]|]; [|discriminate].
      destruct (skip_json_ws r1) as [|c1 r2]; [discriminate|].
      destruct (N.eqb c1 58); [|discriminate].
      destruct (parse_value n r2) as [v0 r3| |]; try discriminate.
      destruct (skip_json_ws r3) as [|c3 r4]; [discriminate|].
      destruct (N.eqb c3 44); [apply IHm|].
      destruct (N.eqb c3 125); [|discriminate].
      intros H. injection H as <- _. discriminate.
Qed.

Lemma JSON_parse_defined (text : JsString) : JSON_parse text <> Some JUndefined.
Proof.
  unfold JSON_parse.
  destruct (parse_value (2 * List.length text + 1) text) as [v rest| |] eqn:E;
    try discriminate.
  destruct (skip_json_ws rest); [|discriminate].
  intros H. injection H as ->.
  exact (proj1 (parse_defined _) _ _ _ E eq_refl).
Qed.

Lemma described_has_description (v : JsValue) :
  lacks_description v = false -> get_member v (js "description") <> None.
Proof.
  unfold lacks_description. destruct (get_member v (js "description")); discriminate.
Qed.

(** X1: when the capability answers, [analyzeImage] returns a value
    exactly when the cleaned response text parses to that value, its
    description is truthy and its keywords are an array; the value returned
    is the decoded one, as it is. *)
Theorem analyzeImage_accepts_iff
        (w : Window) (base64ImageData text : JsString) (v : AnalysisResult) :
  answers w base64ImageData text ->
  (fst (analyzeImage base64ImageData w) = Ok v
   <-> JSON_parse (cleanText text) = Some v
       /\ lacks_description v = false
       /\ keywords_not_array v = false).
Proof.
  intros Ha. rewrite (analyzeImage_answers Ha), decode_outcome. split.
  - destruct (JSON_parse (cleanText text)) as [v0|]; [|discriminate].
    destruct (get_member v0 (js "description")); [|discriminate].
    destruct (lacks_description v0) eqn:El; [discriminate|].
    destruct (keywords_not_array v0) eqn:Ek; [discriminate|].
    intros H. injection H as <-. repeat split; assumption.
  - intros (Hp & Hl & Hk). rewrite Hp.
    pose proof (described_has_description _ Hl) as Hd.
    destruct (get_member v (js "description")); [|congruence].
    rewrite Hl, Hk. reflexivity.
Qed.

Lemma analyzeImage_accepts_iff_witness :
  answers chrome (js "dog") dogJson
  /\ fst (analyzeImage (js "dog") chrome)
     = Ok (JObject [(js "description", JString (js "A dog."));
                    (js "keywords", JArray [JString (js "dog")])])
  /\ JSON_parse (cleanText dogJson)
     = Some (JObject [(js "description", JString (js "A dog."));
                      (js "keywords", JArray [JString (js "dog")])]).
Proof.
  assert (Ha : answers chrome (js "dog") dogJson)
    by (apply answers_chrome; vm_compute; reflexivity).
  assert (Ho : fst (analyzeImage (js "dog") chrome)
               = Ok (JObject [(js "description", JString (js "A dog."));
                              (js "keywords", JArray [JString (js "dog")])]))
    by (vm_compute; reflexivity).
  split; [exact Ha|]. split; [exact Ho|].
  exact (proj1 (proj1 (@analyzeImage_accepts_iff chrome (js "dog") dogJson _ Ha) Ho)).
Defined.

(** X2: every failure of [analyzeImage] is one of five: the rejection
    of the availability check, a rejection of the prompt that is no
    SyntaxError, the "couldn't understand" error, the invalid-format error,
    or the TypeError of reading [description] of [null]. *)
Theorem analyzeImage_failures
        (w : Window) (base64ImageData : JsString) (e : Thrown) :
  fst (analyzeImage base64ImageData w) = Threw e ->
  (exists a, ai w = Some a /\ ai_canCreateTextSession a = Threw e)
  \/ (refuses w base64ImageData e /\ instanceof_SyntaxError e = false)
  \/ e = new_Error notUnderstoodMessage
  \/ e = new_Error invalidFormatMessage
  \/ e = ThrownError (mkError TypeError (nullReadMessage w (js "description"))).
Proof.
  rewrite analyzeImage_paths.
  destruct (ai w) as [a|] eqn:Ea; [|rewrite getMockAIResponse_run; discriminate].
  destruct (ai_canCreateTextSession a) as [answer|e0] eqn:Ec.
  - destruct (jseq answer (js "no")) eqn:Eno;
      [rewrite getMockAIResponse_run; discriminate|].
    destruct (ai_prompt a (fullPromptPrefix ++ base64ImageData)) as [text|e0] eqn:Ep.
    + rewrite decode_outcome.
      destruct (JSON_parse (cleanText text)) as [v|] eqn:Ev.
      * destruct (get_member v (js "description")) eqn:Ed.
        -- destruct (lacks_description v || keywords_not_array v); [|discriminate].
           intros H. injection H as <-. auto.
        -- intros H. injection H as <-. do 4 right.
           destruct v; cbn [get_member] in Ed; try discriminate;
             [exfalso; exact (JSON_parse_defined _ Ev) | reflexivity
             | destruct (lookup_prop (js "description") props); discriminate].
      * intros H. injection H as <-. auto.
    + rewrite analyzeImage_catch_run. cbn [fst].
      destruct (instanceof_SyntaxError e0) eqn:Es; intros H; injection H as <-.
      * auto.
      * right. left. split; [|exact Es].
        exists a, answer. repeat split; assumption.
  - intros H. injection H as <-. left. exists a. split; [reflexivity|exact Ec].
Qed.

Lemma analyzeImage_failures_witness :
  fst (analyzeImage (js "text") chrome) = Threw (new_Error notUnderstoodMessage)
  /\ ((exists a, ai chrome = Some a
                 /\ ai_canCreateTextSession a = Threw (new_Error notUnderstoodMessage))
      \/ (refuses chrome (js "text") (new_Error notUnderstoodMessage)
          /\ instanceof_SyntaxError (new_Error notUnderstoodMessage) = false)
      \/ new_Error notUnderstoodMessage = new_Error notUnderstoodMessage
      \/ new_Error notUnderstoodMessage = new_Error invalidFormatMessage
      \/ new_Error notUnderstoodMessage
         = ThrownError (mkError TypeError (nullReadMessage chrome (js "description")))).
Proof.
  assert (H : fst (analyzeImage (js "text") chrome) = Threw (new_Error notUnderstoodMessage))
    by (vm_compute; reflexivity).
  split; [exact H|].
  exact (@analyzeImage_failures chrome (js "text") _ H).
Defined.

(** X3: when the capability is available, [analyzeImage] waits for no
    timeout; it logs nothing when it returns a result, and when it fails it
    logs with [console.error], once, the error it caught, which is the one
    it throws unless that is a SyntaxError, reworded. *)
Theorem analyzeImage_logs_what_it_caught (w : Window) (base64ImageData : JsString) :
  available w ->
  timers (snd (analyzeImage base64ImageData w)) = timers w
  /\ match fst (analyzeImage base64ImageData w) with
     | Ok _ => console (snd (analyzeImage base64ImageData w)) = console w
     | Threw e =>
         exists cause,
           console (snd (analyzeImage base64ImageData w))
           = console w ++ [ErrorWith (js "Error analyzing image with Chrome AI:") cause]
           /\ e = rethrown cause
     end.
Proof.
  intros (a & answer & Ha & Hc & Hno).
  rewrite analyzeImage_paths, Ha, Hc, Hno.
  destruct (ai_prompt a (fullPromptPrefix ++ base64ImageData)) as [text|e0].
  - rewrite decode_run. destruct (JSON_parse (cleanText text)) as [v|].
    + rewrite validate_run. destruct (get_member v (js "description")).
      * destruct (lacks_description v || keywords_not_array v).
        -- rewrite analyzeImage_catch_run. split; [reflexivity|].
           eexists. split; reflexivity.
        -- split; reflexivity.
      * rewrite analyzeImage_catch_run. split; [reflexivity|].
        eexists. split; reflexivity.
    + rewrite analyzeImage_catch_run. split; [reflexivity|].
      eexists. split; reflexivity.
  - rewrite analyzeImage_catch_run. split; [reflexivity|].
    eexists. split; reflexivity.
Qed.

Lemma analyzeImage_logs_what_it_caught_witness :
  available chrome
  /\ console (snd (analyzeImage (js "cat") chrome)) = []
  /\ console (snd (analyzeImage (js "text") chrome))
     = [ErrorWith (js "Error analyzing image with Chrome AI:")
          (ThrownError (mkError SyntaxError (js "Unexpected token")))]
  /\ timers (snd (analyzeImage (js "text") chrome)) = timers chrome.
Proof.
  assert (H : available chrome).
  { exists sample_ai, (js "readily"). repeat split. }
  split; [exact H|]. split; [vm_compute; reflexivity|]. split; [vm_compute; reflexivity|].
  exact (proj1 (@analyzeImage_logs_what_it_caught chrome (js "text") H)).
Defined.

(** X4: when the availability check itself rejects, [analyzeImage]
    rejects with that very error, a SyntaxError included; it logs nothing,
    waits for nothing and does not fall back to the mock result. *)
Theorem availability_rejection_propagates
        (w : Window) (base64ImageData : JsString) (a : AI) (e : Thrown) :
  ai w = Some a ->
  ai_canCreateTextSession a = Threw e ->
  analyzeImage base64ImageData w = (Threw e, w).
Proof.
  intros Ha Hc. rewrite analyzeImage_paths, Ha, Hc. reflexivity.
Qed.

Lemma availability_rejection_propagates_witness :
  analyzeImage (js "cat") chrome_check_fails
  = (Threw (ThrownError (mkError SyntaxError (js "bad state"))), chrome_check_fails).
Proof.
  exact (@availability_rejection_propagates chrome_check_fails (js "cat")
           (mkAI sample_prompt (Threw (ThrownError (mkError SyntaxError (js "bad state")))))
           _ eq_refl eq_refl).
Defined.

Lemma lookup_set_other (k' k : JsString) (x : JsValue)
      (props : list (JsString * JsValue)) :
  jseq k' k = false ->
  lookup_prop k' (set_prop k x props) = lookup_prop k' props.
Proof.
  intros Hk. induction props as [|[k0 v0] rest IH]; cbn [set_prop lookup_prop].
  - rewrite Hk. reflexivity.
  - destruct (jseq k k0) eqn:E; cbn [lookup_prop].
    + apply jseq_eq in E. subst k0. rewrite Hk. reflexivity.
    + destruct (jseq k' k0); [reflexivity|exact IH].
Qed.

(** X5: the validation looks at [description] and [keywords] only: a
    property under any other key, [phonetics] among them, whatever its
    value, changes neither whether an object passes nor the error it is
    refused with. *)
Theorem other_keys_not_validated
        (k : JsString) (x : JsValue) (props : list (JsString * JsValue)) (w : Window) :
  jseq (js "description") k = false ->
  jseq (js "keywords") k = false ->
  fst (validate (JObject (set_prop k x props)) w)
  = match fst (validate (JObject props) w) with
    | Ok _ => Ok (JObject (set_prop k x props))
    | Threw e => Threw e
    end.
Proof.
  intros Hd Hk. rewrite !validate_run.
  unfold lacks_description, keywords_not_array. cbn [get_member].
  rewrite (@lookup_set_other _ k x props Hd), (@lookup_set_other _ k x props Hk).
  destruct (lookup_prop (js "description") props) as [d|];
    destruct (lookup_prop (js "keywords") props) as [kw|];
    cbn [ToBoolean negb orb];
    repeat match goal with
           | |- context [if ?b then _ else _] => destruct b
           end; reflexivity.
Qed.

Lemma other_keys_not_validated_witness :
  fst (validate
         (JObject (set_prop (js "phonetics") (JBool false)
                     [(js "description", JString (js "A cat."));
                      (js "keywords", JArray [])])) chrome)
  = Ok (JObject [(js "description", JString (js "A cat."));
                 (js "keywords", JArray []);
                 (js "phonetics", JBool false)]).
Proof.
  rewrite (@other_keys_not_validated (js "phonetics") (JBool false)
             [(js "description", JString (js "A cat.")); (js "keywords", JArray [])]
             chrome eq_refl eq_refl).
  reflexivity.
Defined.

(** ** The fence, wrapped and unwrapped *)

Lemma find_sub_sound (p s b post : JsString) :
  find_sub p s = Some (b, post) -> s = b ++ p ++ post.
Proof.
  revert b. induction s as [|c s IH]; intros b; cbn [find_sub].
  - destruct (startsWith [] p) eqn:E; [|discriminate].
    intros H. injection H as <- <-. exact (startsWith_split _ _ E).
  - destruct (startsWith (c :: s) p) eqn:E.
    + intros H. injection H as <- <-. exact (startsWith_split _ _ E).
    + destruct (find_sub p s) as [[pre post']|]; [|discriminate].
      intros H. injection H as <- <-. cbn [app]. f_equal. apply IH. reflexivity.
Qed.

Lemma startsWith_self_app (p rest : JsString) : startsWith (p ++ rest) p = true.
Proof.
  induction p as [|c p IH]; [apply startsWith_nil|].
  cbn [app startsWith]. rewrite N.eqb_refl. exact IH.
Qed.

Lemma startsWith_app_more (s p rest : JsString) :
  startsWith s p = true -> startsWith (s ++ rest) p = true.
Proof.
  revert s. induction p as [|c p IH]; intros s H; [apply startsWith_nil|].
  destruct s as [|x s]; [discriminate|].
  cbn [app startsWith] in *. destruct (N.eqb c x); [|discriminate].
  apply IH. exact H.
Qed.

Lemma skipn_self_app (p rest : JsString) : skipn (List.length p) (p ++ rest) = rest.
Proof. induction p as [|c p IH]; [reflexivity|exact IH]. Qed.

Lemma find_sub_complete (p pre post : JsString) :
  find_sub p (pre ++ p ++ post) <> None.
Proof.
  induction pre as [|c pre IH].
  - cbn [app]. destruct (p ++ post) eqn:E; cbn [find_sub]; rewrite <- E;
      rewrite startsWith_self_app; discriminate.
  - cbn [app find_sub]. destruct (startsWith (c :: pre ++ p ++ post) p); [discriminate|].
    destruct (find_sub p (pre ++ p ++ post)) as [[b r]|]; [discriminate|exact IH].
Qed.

(** Where the text before holds no backtick, the first fence is the one
    written after it. *)
Lemma find_sub_first (p' pre rest : JsString) :
  no_backtick pre = true ->
  find_sub (96 :: p') (pre ++ (96 :: p') ++ rest) = Some (pre, rest).
Proof.
  intros Hn. induction pre as [|x pre IH].
  - cbn [app find_sub].
    change (96 :: p' ++ rest) with ((96 :: p') ++ rest).
    rewrite startsWith_self_app, skipn_self_app. reflexivity.
  - unfold no_backtick in *. cbn [forallb] in Hn.
    apply andb_prop in Hn. destruct Hn as [Hx Hn].
    cbn [app find_sub startsWith]. rewrite N.eqb_sym.
    destruct (N.eqb x 96); [discriminate|]. cbn [andb].
    change (pre ++ 96 :: p' ++ rest) with (pre ++ (96 :: p') ++ rest).
    rewrite (IH Hn). reflexivity.
Qed.

Lemma all_space_no_backtick (ws : JsString) : all_space ws = true -> no_backtick ws = true.
Proof.
  unfold all_space, no_backtick. induction ws as [|c ws IH]; [reflexivity|].
  cbn [forallb]. intros H. apply andb_prop in H.
  destruct H as [Hc H]. rewrite (IH H), andb_true_r.
  destruct (N.eqb_spec c 96) as [->|]; [|reflexivity].
  rewrite is_space_backtick in Hc. discriminate.
Qed.

Lemma no_backtick_app (a b : JsString) :
  no_backtick a = true -> no_backtick b = true -> no_backtick (a ++ b) = true.
Proof.
  unfold no_backtick. intros Ha Hb. rewrite forallb_app, Ha, Hb. reflexivity.
Qed.

Lemma skip_space_app_space (ws x : JsString) :
  all_space ws = true -> skip_space (ws ++ x) = skip_space x.
Proof.
  unfold all_space. induction ws as [|c ws IH]; [reflexivity|].
  cbn [forallb]. intros H. apply andb_prop in H. destruct H as [Hc H].
  cbn [app skip_space]. rewrite Hc. exact (IH H).
Qed.

Lemma trim_end_space (ws : JsString) : all_space ws = true -> trim_end ws = [].
Proof.
  unfold all_space. induction ws as [|c ws IH]; [reflexivity|].
  cbn [forallb]. intros H. apply andb_prop in H. destruct H as [Hc H].
  cbn [trim_end]. rewrite (IH H), Hc. reflexivity.
Qed.

Lemma trim_end_app_space (x ws : JsString) :
  all_space ws = true -> trim_end (x ++ ws) = trim_end x.
Proof.
  intros H. induction x as [|c x IH].
  - cbn [app]. rewrite (trim_end_space _ H). reflexivity.
  - cbn [app trim_end]. rewrite IH. reflexivity.
Qed.

Lemma skip_space_length (s : JsString) :
  (List.length (skip_space s) <= List.length s)%nat.
Proof.
  induction s as [|c s IH]; cbn [skip_space]; [lia|].
  destruct (is_space c); cbn [List.length]; lia.
Qed.

Lemma skip_space_fixed_app (j rest : JsString) :
  skip_space j = j -> j <> [] -> skip_space (j ++ rest) = j ++ rest.
Proof.
  destruct j as [|c j]; [congruence|]. intros H _.
  cbn [app skip_space] in *. destruct (is_space c); [|reflexivity].
  pose proof (skip_space_length j) as Hl. rewrite H in Hl. cbn [List.length] in Hl. lia.
Qed.

(** X6: a text with no white space at its ends and no backtick in it,
    wrapped in a fence with any white space inside the fence, any text
    without backticks before it and any text after it, comes back from the
    cleaning as it was. *)
Theorem fence_round_trip (pre ws1 j ws2 post : JsString) :
  no_backtick pre = true ->
  all_space ws1 = true ->
  no_backtick j = true ->
  skip_space j = j ->
  trim_end j = j ->
  all_space ws2 = true ->
  cleanText (pre ++ js "```json" ++ ws1 ++ j ++ ws2 ++ js "```" ++ post) = j.
Proof.
  intros Hpre Hw1 Hj Hs He Hw2.
  rewrite cleanText_trimmed. unfold payload_trimmed, fenced_block.
  change (js "```json") with (96 :: js "``json").
  rewrite (@find_sub_first _ _ _ Hpre).
  change (js "```") with (96 :: js "``").
  replace (ws1 ++ j ++ ws2 ++ (96 :: js "``") ++ post)
    with ((ws1 ++ j ++ ws2) ++ (96 :: js "``") ++ post)
    by (rewrite <- !app_assoc; reflexivity).
  rewrite find_sub_first.
  - unfold trim. rewrite (@skip_space_app_space _ _ Hw1).
    destruct j as [|c j].
    + cbn [app]. rewrite <- (app_nil_r ws2), (@skip_space_app_space ws2 [] Hw2).
      reflexivity.
    + rewrite (@skip_space_fixed_app _ _ Hs) by discriminate.
      rewrite (@trim_end_app_space _ _ Hw2). exact He.
  - apply no_backtick_app; [apply all_space_no_backtick; exact Hw1|].
    apply no_backtick_app; [exact Hj|apply all_space_no_backtick; exact Hw2].
Qed.

Lemma fence_round_trip_witness :
  cleanText (js "Here you are:
" ++ js "```json" ++ js "
  " ++ catJson ++ [10; 160] ++ js "```" ++ js " Enjoy `it`!")
  = catJson.
Proof.
  apply (@fence_round_trip (js "Here you are:
") (js "
  ") catJson [10; 160] (js " Enjoy `it`!")); vm_compute; reflexivity.
Defined.

(** What stands before the first closing fence holds no fence. *)
Lemma body_no_fence (s b post : JsString) :
  find_sub (js "```") s = Some (b, post) -> find_sub (js "```") b = None.
Proof.
  revert b. induction s as [|c s IH]; intros b; [discriminate|].
  destruct (startsWith (c :: s) (js "```")) eqn:Es.
  - rewrite (find_fence_here _ Es). intros H. injection H as <- _. reflexivity.
  - rewrite (find_fence_cons _ _ Es).
    destruct (find_sub (js "```") s) as [[b' post']|] eqn:Ef; [|discriminate].
    intros H. injection H as <- <-.
    assert (Eb : startsWith (c :: b') (js "```") = false).
    { destruct (startsWith (c :: b') (js "```")) eqn:Eb; [|reflexivity].
      apply find_sub_sound in Ef. rewrite Ef in Es.
      change (c :: b' ++ js "```" ++ post') with ((c :: b') ++ js "```" ++ post') in Es.
      rewrite (startsWith_app_more _ _ _ Eb) in Es. discriminate. }
    rewrite (find_fence_cons _ _ Eb), (IH b' eq_refl). reflexivity.
Qed.

Lemma trim_end_prefix (x : JsString) : exists r, x = trim_end x ++ r.
Proof.
  induction x as [|c x [r IH]]; [exists []; reflexivity|].
  cbn [trim_end]. destruct (trim_end x) as [|t ts] eqn:E.
  - destruct (is_space c); [exists (c :: x)|exists x]; reflexivity.
  - exists r. cbn [app] in *. rewrite <- IH. reflexivity.
Qed.

Lemma skip_space_suffix (x : JsString) : exists r, x = r ++ skip_space x.
Proof.
  induction x as [|c x [r IH]]; [exists []; reflexivity|].
  cbn [skip_space]. destruct (is_space c); [|exists []; reflexivity].
  exists (c :: r). cbn [app]. rewrite <- IH. reflexivity.
Qed.

(** A text without a fence stays without one when it is trimmed. *)
Lemma trim_no_fence (x : JsString) :
  find_sub (js "```") x = None -> find_sub (js "```") (trim x) = None.
Proof.
  intros Hx. destruct (find_sub (js "```") (trim x)) as [[b post]|] eqn:E; [|reflexivity].
  exfalso. apply find_sub_sound in E. unfold trim in E.
  destruct (skip_space_suffix x) as [r1 H1].
  destruct (trim_end_prefix (skip_space x)) as [r2 H2].
  rewrite E in H2. rewrite H2 in H1.
  apply (@find_sub_complete (js "```") (r1 ++ b) (post ++ r2)).
  rewrite <- Hx. f_equal. rewrite H1 at 1. rewrite <- !app_assoc. reflexivity.
Qed.

Lemma no_fence_no_block (x : JsString) :
  find_sub (js "```") x = None -> fenced_block x = None.
Proof.
  intros Hx. unfold fenced_block.
  destruct (find_sub (js "```json") x) as [[b post]|] eqn:E; [|reflexivity].
  exfalso. apply find_sub_sound in E.
  apply (@find_sub_complete (js "```") b (js "json" ++ post)).
  rewrite <- Hx. f_equal. symmetry. exact E.
Qed.

(** X7: the cleaning is idempotent: what it hands to [JSON.parse] is a
    text it would leave as it is. *)
Theorem cleanText_idempotent (text : JsString) :
  cleanText (cleanText text) = cleanText text.
Proof.
  rewrite (cleanText_trimmed text). unfold payload_trimmed.
  destruct (fenced_block text) as [body|] eqn:E.
  - rewrite cleanText_trimmed. unfold payload_trimmed.
    rewrite no_fence_no_block; [reflexivity|].
    apply trim_no_fence. unfold fenced_block in E.
    destruct (find_sub (js "```json") text) as [[pre after]|]; [|discriminate].
    destruct (find_sub (js "```") after) as [[b post]|] eqn:Ef; [|discriminate].
    injection E as <-. exact (body_no_fence _ Ef).
  - rewrite cleanText_trimmed. unfold payload_trimmed. rewrite E. reflexivity.
Qed.

(** ** The speech announcer *)

(** X8: where there is speech synthesis, of two calls of [speak] in a
    row only the second utterance is left in the queue, with its language
    (en-US when none is given) and rate and pitch 1, whatever was queued
    before; neither call throws. *)
Theorem speak_newest_wins
        (w : Window) (q : list Utterance) (text1 text2 : JsString)
        (lang1 lang2 : option JsString) :
  speechSynthesis w = Some q ->
  (speak text1 lang1 ;; speak text2 lang2) w
  = (Ok tt,
     set_speech
       (Some [mkUtterance text2 (match lang2 with Some l => l | None => js "en-US" end)
                          one one]) w).
Proof.
  intros H. unfold bind. rewrite (speak_replaces text1 lang1 _ H).
  set (u1 := mkUtterance text1 (match lang1 with Some l => l | None => js "en-US" end)
                         one one).
  rewrite (@speak_replaces text2 lang2 (set_speech (Some [u1]) w) [u1] eq_refl).
  reflexivity.
Qed.

Lemma speak_newest_wins_witness :
  speechSynthesis chrome = Some []
  /\ active_speech (snd ((speak (js "cat") None ;; speak (js "chat") (Some (js "fr-FR")))
                           chrome))
     = [mkUtterance (js "chat") (js "fr-FR") one one].
Proof.
  split; [reflexivity|].
  rewrite (@speak_newest_wins chrome [] (js "cat") (js "chat") None (Some (js "fr-FR"))
             eq_refl).
  reflexivity.
Defined.

(** ** The analysis state machine, whatever the order of events *)

Lemma status_backed_core (a a' : App) :
  core a' = core a -> status_backed (analyzer a) -> status_backed (analyzer a').
Proof.
  unfold core, status_backed. intros H. injection H as -> -> -> _. trivial.
Qed.

Lemma processAnalysis_backed (base64Data previewUrl : JsString) (a : App) :
  status_backed (analyzer (processAnalysis base64Data previewUrl a)).
Proof.
  rewrite processAnalysis_run. unfold status_backed.
  destruct (speechSynthesis (window a)); split; reflexivity.
Qed.

Lemma apply_event_backed (e : Event) (a : App) :
  status_backed (analyzer a) -> status_backed (analyzer (apply_event e a)).
Proof.
  intros Ha. destruct e as [d p|c| | | |st|err| |frame]; cbn [apply_event].
  - apply processAnalysis_backed.
  - destruct (find_call c (calls a)) as [d|] eqn:Hf;
      [|unfold settle; rewrite Hf; exact Ha].
    destruct (settle_run _ _ Hf) as (_ & _ & _ & Hshow & _).
    unfold status_backed.
    destruct (fst (analyzeImage d (window a))) as [r|e] eqn:Eo; cbn [shows] in Hshow;
      destruct Hshow as [Hst Hv]; rewrite Hst, Hv.
    + apply valid_non_null. exact (proj1 (@analyzeImage_ok_valid _ _ _ Eo)).
    + discriminate.
  - unfold in_analyzer. rewrite resetState_run. cbv zeta. unfold status_backed.
    destruct (speechSynthesis (window a)); split; reflexivity.
  - unfold handleCameraButtonClick. destruct (isMobile (window a)); [exact Ha|].
    exact (status_backed_core (setIsCameraOpen_core _ _) Ha).
  - exact (status_backed_core (setIsCameraOpen_core _ _) Ha).
  - exact (status_backed_core (getUserMedia_settles_core _ _) Ha).
  - exact (status_backed_core (getUserMedia_settles_core _ _) Ha).
  - exact (status_backed_core (proj1 (in_camera_core _ _)) Ha).
  - unfold handleCapture.
    destruct (ImageAnalyzer.isCameraOpen (analyzer a)); [|exact Ha].
    destruct frame as [url|]; [|exact Ha].
    apply (status_backed_core (setIsCameraOpen_core _ _)).
    apply processAnalysis_backed.
Qed.

(** X9: in every state the page reaches, overlapping calls and stale
    completions included, what the status announces is there: with success
    a non-null result, with error an error message, and while idle or
    processing neither a result nor an error. *)
Theorem status_always_backed (w : Window) (events : list Event) :
  status_backed (analyzer (run events (mount w))).
Proof.
  assert (H : forall a, status_backed (analyzer a) ->
                        status_backed (analyzer (run events a))).
  { induction events as [|e rest IH]; intros a Ha; [exact Ha|].
    cbn [run]. apply IH. apply apply_event_backed. exact Ha. }
  apply H. unfold status_backed. split; reflexivity.
Qed.

(** ** What the handlers leave alone *)

(** The effect of the view touches the window only in the tracks it stops
    and the error it may log. *)
Lemma effect_window (isOpen : bool) (c : CameraCapture.State) (w : Window) :
  exists logged,
    snd (snd (CameraCapture.effect isOpen (c, w)))
    = mkWindow (ai w) (speechSynthesis w) (mediaDevices w) (isMobile w)
               (syntaxErrorMessage w) (nullReadMessage w) (undefinedReadMessage w)
               (console w ++ logged) (timers w) (revoked w)
               (match CameraCapture.streamRef c with
                | Some stream => stopped stream (liveTracks w)
                | None => liveTracks w
                end).
Proof.
  assert (E : CameraCapture.effect isOpen (c, w)
              = match CameraCapture.stopCamera (c, w) with
                | (Ok _, sw) =>
                    (if isOpen then CameraCapture.startCamera_begin
                     else bind CameraCapture.stopCamera (fun _ => ret false)) sw
                | (Threw e, sw) => (Threw e, sw)
                end) by reflexivity.
  rewrite E, stopCamera_run. clear E.
  destruct c as [[stream|] so e l], w as [a sp md mob m1 m2 m3 co t rv lt];
    cbn [CameraCapture.streamRef CameraCapture.srcObject CameraCapture.error
         CameraCapture.isLoading set_liveTracks liveTracks];
    destruct isOpen; try (unfold bind at 1; rewrite stopCamera_run);
    try (destruct md);
    first [ exists []; cbn [console]; rewrite app_nil_r; reflexivity
          | eexists; reflexivity ].
Qed.

Lemma in_analyzer_camera {A} (m : M (ImageAnalyzer.State * Window) A) (a : App) :
  camera (snd (in_analyzer m a)) = camera a
  /\ calls (snd (in_analyzer m a)) = calls a
  /\ acquiring (snd (in_analyzer m a)) = acquiring a
  /\ window (snd (in_analyzer m a)) = snd (snd (m (analyzer a, window a)))
  /\ analyzer (snd (in_analyzer m a)) = fst (snd (m (analyzer a, window a))).
Proof.
  unfold in_analyzer. destruct (m (analyzer a, window a)) as [o [s w]]. repeat split.
Qed.

(** Opening or closing the view: what it does to the window and to the
    stream reference. *)
Lemma setIsCameraOpen_window (v : bool) (a : App) :
  revoked (window (setIsCameraOpen v a)) = revoked (window a)
  /\ speechSynthesis (window (setIsCameraOpen v a)) = speechSynthesis (window a)
  /\ (ImageAnalyzer.isCameraOpen (analyzer a) = v -> setIsCameraOpen v a = a).
Proof.
  unfold setIsCameraOpen.
  destruct (Bool.eqb (ImageAnalyzer.isCameraOpen (analyzer a)) v) eqn:Eb;
    [repeat split|].
  set (a1 := snd (in_analyzer (ImageAnalyzer.setIsCameraOpen v) a)).
  set (a2 := snd (in_camera (CameraCapture.render v) a1)).
  assert (Hw : window a2 = window a).
  { unfold a2, a1, in_camera, in_analyzer, CameraCapture.render.
    destruct v; reflexivity. }
  destruct (in_camera_run (CameraCapture.effect v) a2) as (_ & Hwin & _).
  destruct (effect_window v (camera a2) (window a2)) as [logged E].
  rewrite E, Hw in Hwin.
  split; [|split].
  - destruct (in_camera (CameraCapture.effect v) a2) as [[[|]|e] a3];
      cbn [snd window] in *; rewrite Hwin; reflexivity.
  - destruct (in_camera (CameraCapture.effect v) a2) as [[[|]|e] a3];
      cbn [snd window] in *; rewrite Hwin; reflexivity.
  - intros Hv. rewrite Hv in Eb. rewrite Bool.eqb_reflx in Eb. discriminate.
Qed.

Lemma startCamera_resume_run (settled : Outcome MediaStream) (mounted : bool)
      (c : CameraCapture.State) (w : Window) :
  CameraCapture.startCamera_resume settled mounted (c, w)
  = match settled with
    | Ok stream =>
        (Ok tt,
         (CameraCapture.mkState (Some stream)
            (if mounted then Some stream else CameraCapture.srcObject c)
            (CameraCapture.error c) (CameraCapture.isLoading c), w))
    | Threw err =>
        (Ok tt,
         (CameraCapture.mkState (CameraCapture.streamRef c) (CameraCapture.srcObject c)
            (Some (match instanceof_DOMException err with
                   | Some name =>
                       if jseq name (js "NotAllowedError") then CameraCapture.deniedMessage
                       else if jseq name (js "NotFoundError")
                            then CameraCapture.notFoundMessage
                            else CameraCapture.genericMessage
                   | None => CameraCapture.genericMessage
                   end))
            false,
          mkWindow (ai w) (speechSynthesis w) (mediaDevices w) (isMobile w)
                   (syntaxErrorMessage w) (nullReadMessage w) (undefinedReadMessage w)
                   (console w ++ [ErrorWith (js "Error accessing camera:") err])
                   (timers w) (revoked w) (liveTracks w)))
    end.
Proof.
  destruct settled as [stream|err]; [destruct mounted; reflexivity|reflexivity].
Qed.

Lemma getUserMedia_settles_window (settled : Outcome MediaStream) (a : App) :
  revoked (window (getUserMedia_settles settled a)) = revoked (window a)
  /\ speechSynthesis (window (getUserMedia_settles settled a))
     = speechSynthesis (window a).
Proof.
  unfold getUserMedia_settles. destruct (acquiring a); [split; reflexivity|].
  unfold in_camera. cbn [camera window]. rewrite startCamera_resume_run.
  destruct settled; split; reflexivity.
Qed.

(** A settling call leaves the preview, the camera and the window's
    resources as they are. *)
Lemma settle_frame (call : nat) (a : App) :
  ImageAnalyzer.imagePreviewUrl (analyzer (settle call a))
  = ImageAnalyzer.imagePreviewUrl (analyzer a)
  /\ ImageAnalyzer.isCameraOpen (analyzer (settle call a))
     = ImageAnalyzer.isCameraOpen (analyzer a)
  /\ camera (settle call a) = camera a
  /\ acquiring (settle call a) = acquiring a
  /\ revoked (window (settle call a)) = revoked (window a)
  /\ liveTracks (window (settle call a)) = liveTracks (window a).
Proof.
  unfold settle. destruct (find_call call (calls a)) as [d|]; [|repeat split].
  destruct (analyzeImage_window d (window a)) as (logged & waited & E).
  destruct (analyzeImage d (window a)) as [settled w']. cbn [snd] in E. subst w'.
  unfold in_analyzer. cbn [analyzer window camera calls nextCall acquiring].
  rewrite processAnalysis_resume_run. destruct settled; repeat split.
Qed.

Lemma apply_event_revoked (e : Event) (a : App) :
  revoked (window (apply_event e a))
  = revoked (window a)
    ++ match e with
       | Reset => held_blob (analyzer a)
       | _ => []
       end.
Proof.
  destruct e as [d p|c| | | |st|err| |frame]; cbn [apply_event];
    try rewrite app_nil_r.
  - rewrite processAnalysis_run. destruct (speechSynthesis (window a)); reflexivity.
  - apply settle_frame.
  - unfold in_analyzer. rewrite resetState_run. cbv zeta.
    destruct (speechSynthesis (window a)); reflexivity.
  - unfold handleCameraButtonClick. destruct (isMobile (window a)); [reflexivity|].
    apply setIsCameraOpen_window.
  - apply setIsCameraOpen_window.
  - apply getUserMedia_settles_window.
  - apply getUserMedia_settles_window.
  - reflexivity.
  - unfold handleCapture, handleCameraCapture.
    destruct (ImageAnalyzer.isCameraOpen (analyzer a)); [|reflexivity].
    destruct frame as [url|]; [|reflexivity].
    rewrite (proj1 (setIsCameraOpen_window _ _)), processAnalysis_run.
    destruct (speechSynthesis (window a)); reflexivity.
Qed.

Lemma held_blob_is_blob (s : ImageAnalyzer.State) :
  forallb is_blob (held_blob s) = true /\ (List.length (held_blob s) <= 1)%nat.
Proof.
  unfold held_blob. destruct (ImageAnalyzer.imagePreviewUrl s) as [url|]; [|split; cbn; lia].
  destruct (startsWith url (js "blob:")) eqn:E; [|split; cbn; lia].
  cbn [forallb is_blob List.length]. unfold is_blob. rewrite E. split; [reflexivity|lia].
Qed.

(** X10: along every run, URLs are revoked by clicks on a reset button
    only, at most one per click, and every URL revoked is a blob: URL; a
    new capture that replaces the preview revokes nothing, and a data: URL
    is never revoked. *)
Theorem only_reset_revokes (a : App) (events : list Event) :
  exists new,
    revoked (window (run events a)) = revoked (window a) ++ new
    /\ forallb is_blob new = true
    /\ (List.length new <= resets events)%nat.
Proof.
  revert a. induction events as [|e rest IH]; intros a.
  - exists []. rewrite app_nil_r. repeat split. cbn. lia.
  - cbn [run]. destruct (IH (apply_event e a)) as (new & Hn & Hb & Hl).
    rewrite apply_event_revoked in Hn.
    destruct (held_blob_is_blob (analyzer a)) as [Hhb Hhl].
    destruct e; cbn [resets];
      try (exists new; rewrite app_nil_r in Hn; repeat split; assumption).
    exists (held_blob (analyzer a) ++ new). rewrite app_assoc.
    split; [exact Hn|]. split.
    + rewrite forallb_app, Hhb, Hb. reflexivity.
    + rewrite length_app. lia.
Qed.

(** ** From a data URL to the payload *)








(** ** A reset while a call is in flight *)

(** X13: a full reset does not cancel a call in flight: when the call
    settles after the reset, the state is the one that call produces, its
    status with its result or its error, while the preview stays cleared. *)
Theorem reset_does_not_cancel (a : App) (call : nat) (base64Data : JsString) :
  find_call call (calls a) = Some base64Data ->
  produced_by (analyzer (run [Reset; Settle call] a))
              (fst (analyzeImage base64Data (window a)))
  /\ ImageAnalyzer.imagePreviewUrl (analyzer (run [Reset; Settle call] a)) = None.
Proof.
  intros Hf. cbn [run apply_event].
  set (a1 := snd (in_analyzer (ImageAnalyzer.resetState true) a)).
  destruct (in_analyzer_camera (ImageAnalyzer.resetState true) a)
    as (_ & Hcalls & _ & Hwin & Han).
  fold a1 in Hcalls, Hwin, Han.
  rewrite resetState_run in Hwin, Han. cbv zeta in Hwin, Han.
  assert (Hp : same_platform (window a) (window a1)
               /\ ImageAnalyzer.result (analyzer a1) = None
               /\ ImageAnalyzer.error (analyzer a1) = None
               /\ ImageAnalyzer.imagePreviewUrl (analyzer a1) = None).
  { rewrite Hwin, Han. destruct (speechSynthesis (window a)); repeat split. }
  destruct Hp as (Hp & Hr & He & Hu).
  assert (Hf1 : find_call call (calls a1) = Some base64Data) by (rewrite Hcalls; exact Hf).
  destruct (settle_run _ _ Hf1) as (_ & _ & _ & Hshow & Hother).
  rewrite <- (analyzeImage_same_platform base64Data Hp) in Hshow, Hother.
  split.
  - unfold produced_by.
    destruct (fst (analyzeImage base64Data (window a))); cbn [shows] in Hshow;
      destruct Hshow as [H1 H2]; repeat split; congruence.
  - rewrite (proj1 (settle_frame call a1)). exact Hu.
Qed.

Lemma reset_does_not_cancel_witness :
  find_call 1 (calls (run [Submit (js "cat") (js "blob:1"); Submit (js "dog") (js "blob:2");
                           Settle 0] (mount chrome))) = Some (js "dog")
  /\ ImageAnalyzer.status
       (analyzer (run [Reset; Settle 1]
                      (run [Submit (js "cat") (js "blob:1"); Submit (js "dog") (js "blob:2");
                            Settle 0] (mount chrome))))
     = Success
  /\ ImageAnalyzer.imagePreviewUrl
       (analyzer (run [Reset; Settle 1]
                      (run [Submit (js "cat") (js "blob:1"); Submit (js "dog") (js "blob:2");
                            Settle 0] (mount chrome))))
     = None.
Proof.
  assert (Hf : find_call 1
                 (calls (run [Submit (js "cat") (js "blob:1");
                              Submit (js "dog") (js "blob:2"); Settle 0] (mount chrome)))
               = Some (js "dog")) by (vm_compute; reflexivity).
  destruct (reset_does_not_cancel _ _ Hf) as [H1 H2].
  split; [exact Hf|]. split; [|exact H2].
  assert (Ho : exists r,
             fst (analyzeImage (js "dog")
                    (window (run [Submit (js "cat") (js "blob:1");
                                  Submit (js "dog") (js "blob:2"); Settle 0]
                                 (mount chrome)))) = Ok r)
    by (eexists; vm_compute; reflexivity).
  destruct Ho as [r Ho]. rewrite Ho in H1. exact (proj1 H1).
Defined.

(** ** The camera capture view: failures *)

Lemma in_camera_eq {A} (m : M (CameraCapture.State * Window) A) (a : App)
      (o : Outcome A) (c : CameraCapture.State) (w : Window) :
  m (camera a, window a) = (o, (c, w)) ->
  in_camera m a = (o, mkApp (analyzer a) c w (calls a) (nextCall a) (acquiring a)).
Proof. unfold in_camera. intros ->. reflexivity. Qed.

Lemma effect_open_unsupported (c : CameraCapture.State) (w : Window) :
  mediaDevices w = false ->
  CameraCapture.effect true (c, w)
  = (Ok false,
     (CameraCapture.mkState None (CameraCapture.srcObject c)
        (Some CameraCapture.genericMessage) false,
      mkWindow (ai w) (speechSynthesis w) (mediaDevices w) (isMobile w)
               (syntaxErrorMessage w) (nullReadMessage w) (undefinedReadMessage w)
               (console w
                ++ [ErrorWith (js "Error accessing camera:")
                      (new_Error (js "Camera not supported by this browser."))])
               (timers w) (revoked w)
               (match CameraCapture.streamRef c with
                | Some stream => stopped stream (liveTracks w)
                | None => liveTracks w
                end))).
Proof.
  intros Hm.
  assert (E : CameraCapture.effect true (c, w)
              = match CameraCapture.stopCamera (c, w) with
                | (Ok _, sw) => CameraCapture.startCamera_begin sw
                | (Threw e, sw) => (Threw e, sw)
                end) by reflexivity.
  rewrite E, stopCamera_run. clear E.
  destruct c as [[stream|] so e l], w as [a sp md mob m1 m2 m3 co t rv lt];
    cbn [mediaDevices] in Hm; subst md; reflexivity.
Qed.

(** X14: on a browser without [getUserMedia], opening the view shows
    the general could-not-access message, not the "Camera not supported"
    text the code throws, which only reaches the console; loading is over,
    no acquisition is pending and the capture button is not offered. *)
Theorem camera_unsupported (a : App) :
  mediaDevices (window a) = false ->
  isMobile (window a) = false ->
  ImageAnalyzer.isCameraOpen (analyzer a) = false ->
  ImageAnalyzer.isCameraOpen (analyzer (apply_event CameraButton a)) = true
  /\ CameraCapture.error (camera (apply_event CameraButton a))
     = Some CameraCapture.genericMessage
  /\ CameraCapture.isLoading (camera (apply_event CameraButton a)) = false
  /\ acquiring (apply_event CameraButton a) = acquiring a
  /\ console (window (apply_event CameraButton a))
     = console (window a)
       ++ [ErrorWith (js "Error accessing camera:")
             (new_Error (js "Camera not supported by this browser."))]
  /\ forall frame, offered (Capture frame) (apply_event CameraButton a) = false.
Proof.
  intros Hm Hmob Ho. cbn [apply_event]. unfold handleCameraButtonClick, setIsCameraOpen.
  rewrite Hmob, Ho. cbn [Bool.eqb].
  set (a1 := snd (in_analyzer (ImageAnalyzer.setIsCameraOpen true) a)).
  set (a2 := snd (in_camera (CameraCapture.render true) a1)).
  assert (Hm2 : mediaDevices (window a2) = false) by exact Hm.
  rewrite (in_camera_eq (CameraCapture.effect true) a2
             (@effect_open_unsupported (camera a2) (window a2) Hm2)).
  repeat split.
Qed.

Lemma camera_unsupported_witness :
  CameraCapture.error (camera (apply_event CameraButton (mount chrome_without_camera)))
  = Some CameraCapture.genericMessage
  /\ acquiring (apply_event CameraButton (mount chrome_without_camera)) = O
  /\ offered (Capture (Some (js "data:,"))) (apply_event CameraButton
                                               (mount chrome_without_camera)) = false.
Proof.
  destruct (@camera_unsupported (mount chrome_without_camera) eq_refl eq_refl eq_refl)
    as (_ & H2 & _ & H4 & _ & H6).
  split; [exact H2|]. split; [exact H4|apply H6].
Defined.

(** X15: when [getUserMedia] rejects, loading is over and an error is
    shown: the access-denied message exactly for a DOMException named
    NotAllowedError, the no-camera message exactly for one named
    NotFoundError, the general message for anything else; the stream
    reference and the live tracks are left as they are and the capture
    button is not offered. *)
Theorem acquisition_rejected (a : App) (err : Thrown) (n : nat) :
  acquiring a = S n ->
  CameraCapture.isLoading (camera (apply_event (AcquireFailed err) a)) = false
  /\ acquiring (apply_event (AcquireFailed err) a) = n
  /\ CameraCapture.streamRef (camera (apply_event (AcquireFailed err) a))
     = CameraCapture.streamRef (camera a)
  /\ liveTracks (window (apply_event (AcquireFailed err) a)) = liveTracks (window a)
  /\ (forall frame, offered (Capture frame) (apply_event (AcquireFailed err) a) = false)
  /\ exists m,
       CameraCapture.error (camera (apply_event (AcquireFailed err) a)) = Some m
       /\ (m = CameraCapture.deniedMessage
           <-> instanceof_DOMException err = Some (js "NotAllowedError"))
       /\ (m = CameraCapture.notFoundMessage
           <-> instanceof_DOMException err = Some (js "NotFoundError"))
       /\ (m = CameraCapture.deniedMessage \/ m = CameraCapture.notFoundMessage
           \/ m = CameraCapture.genericMessage).
Proof.
  intros Ha. cbn [apply_event]. unfold getUserMedia_settles. rewrite Ha.
  unfold in_camera. cbn [camera window analyzer calls nextCall acquiring].
  rewrite startCamera_resume_run.
  cbn [snd fst camera window acquiring CameraCapture.isLoading CameraCapture.streamRef
       CameraCapture.error liveTracks offered analyzer].
  split; [reflexivity|]. split; [reflexivity|]. split; [reflexivity|].
  split; [reflexivity|].
  split; [intros frame; rewrite andb_false_r; reflexivity|].
  eexists. split; [reflexivity|].
  destruct (instanceof_DOMException err) as [name|].
  - destruct (jseq name (js "NotAllowedError")) eqn:E1.
    + apply jseq_eq in E1. subst name.
      split; [split; reflexivity|]. split; [|auto].
      split; intros H; vm_compute in H; discriminate.
    + destruct (jseq name (js "NotFoundError")) eqn:E2.
      * apply jseq_eq in E2. subst name.
        split; [|split; [split; reflexivity|auto]].
        split; intros H; vm_compute in H; discriminate.
      * split; [|split; [|auto]]; split; intros H.
        -- vm_compute in H. discriminate.
        -- injection H as ->. rewrite (proj2 (jseq_eq _ _) eq_refl) in E1. discriminate.
        -- vm_compute in H. discriminate.
        -- injection H as ->. rewrite (proj2 (jseq_eq _ _) eq_refl) in E2. discriminate.
  - split; [|split; [|auto]]; split; intros H; try discriminate;
      vm_compute in H; discriminate.
Qed.

Lemma acquisition_rejected_witness :
  acquiring (apply_event CameraButton (mount chrome)) = 1%nat
  /\ CameraCapture.error
       (camera (apply_event
                  (AcquireFailed
                     (ThrownError (mkError (DOMException (js "NotAllowedError"))
                                     (js "Permission denied"))))
                  (apply_event CameraButton (mount chrome))))
     = Some CameraCapture.deniedMessage
  /\ CameraCapture.isLoading
       (camera (apply_event
                  (AcquireFailed
                     (ThrownError (mkError (DOMException (js "NotAllowedError"))
                                     (js "Permission denied"))))
                  (apply_event CameraButton (mount chrome))))
     = false.
Proof.
  assert (Ha : acquiring (apply_event CameraButton (mount chrome)) = 1%nat) by reflexivity.
  destruct (@acquisition_rejected _
              (ThrownError (mkError (DOMException (js "NotAllowedError"))
                              (js "Permission denied"))) _ Ha)
    as (H1 & _ & _ & _ & _ & m & Hm & Hd & _).
  split; [exact Ha|]. split; [|exact H1].
  rewrite Hm. f_equal. apply Hd. reflexivity.
Defined.

(** ** The camera capture view: tracks nobody holds *)

Lemma stopped_keeps (t : nat) (stream : MediaStream) (live : list nat) :
  In t live -> ~ In t stream -> In t (stopped stream live).
Proof.
  intros Hl Hs. unfold stopped. apply filter_In. split; [exact Hl|].
  destruct (existsb (Nat.eqb t) stream) eqn:E; [|reflexivity].
  apply existsb_exists in E. destruct E as (x & Hx & Ex).
  apply Nat.eqb_eq in Ex. subst x. contradiction.
Qed.

Lemma setIsCameraOpen_orphan (t : nat) (v : bool) (a : App) :
  orphan t a -> orphan t (setIsCameraOpen v a).
Proof.
  intros [Hl Hs].
  destruct (Bool.eqb (ImageAnalyzer.isCameraOpen (analyzer a)) v) eqn:Eb.
  - apply Bool.eqb_prop in Eb.
    rewrite (proj2 (proj2 (setIsCameraOpen_window v a)) Eb). split; assumption.
  - assert (Hv : ImageAnalyzer.isCameraOpen (analyzer a) = negb v)
      by (destruct (ImageAnalyzer.isCameraOpen (analyzer a)), v; try discriminate; reflexivity).
    destruct (setIsCameraOpen_tears_down v a Hv) as [E1 E2].
    split.
    + rewrite E2. destruct (CameraCapture.streamRef (camera a)) as [stream|]; [|exact Hl].
      apply stopped_keeps; [exact Hl|]. apply Hs. reflexivity.
    + intros stream H. rewrite E1 in H. discriminate.
Qed.

Lemma processAnalysis_orphan (t : nat) (base64Data previewUrl : JsString) (a : App) :
  orphan t a -> orphan t (processAnalysis base64Data previewUrl a).
Proof.
  intros H. rewrite processAnalysis_run.
  destruct (speechSynthesis (window a)); exact H.
Qed.

(** Whatever happens next, short of a delivery that includes it, a live
    track that the view does not hold stays live and unheld. *)
Lemma apply_event_orphan (t : nat) (e : Event) (a : App) :
  delivers t e = false -> orphan t a -> orphan t (apply_event e a).
Proof.
  intros Hd Ho. destruct e as [d p|c| | | |st|err| |frame]; cbn [apply_event].
  - apply processAnalysis_orphan. exact Ho.
  - destruct (settle_frame c a) as (_ & _ & Hc & _ & _ & Hl).
    unfold orphan. rewrite Hc, Hl. exact Ho.
  - unfold in_analyzer. rewrite resetState_run. cbv zeta.
    destruct (speechSynthesis (window a)); exact Ho.
  - unfold handleCameraButtonClick. destruct (isMobile (window a)); [exact Ho|].
    apply setIsCameraOpen_orphan. exact Ho.
  - apply setIsCameraOpen_orphan. exact Ho.
  - unfold getUserMedia_settles. destruct (acquiring a); [exact Ho|].
    unfold in_camera. cbn [camera window analyzer calls nextCall acquiring].
    rewrite startCamera_resume_run. destruct Ho as [Hl Hs].
    split; cbn [snd fst window camera liveTracks set_liveTracks CameraCapture.streamRef].
    + apply in_or_app. left. exact Hl.
    + intros stream H. injection H as <-. intros Hin.
      cbn [delivers] in Hd.
      assert (He : existsb (Nat.eqb t) st = true).
      { apply existsb_exists. exists t. split; [exact Hin|apply Nat.eqb_refl]. }
      rewrite He in Hd. discriminate.
  - unfold getUserMedia_settles. destruct (acquiring a); [exact Ho|].
    unfold in_camera. cbn [camera window analyzer calls nextCall acquiring].
    rewrite startCamera_resume_run. exact Ho.
  - exact Ho.
  - unfold handleCapture, handleCameraCapture.
    destruct (ImageAnalyzer.isCameraOpen (analyzer a)); [|exact Ho].
    destruct frame as [url|]; [|exact Ho].
    apply setIsCameraOpen_orphan. apply processAnalysis_orphan. exact Ho.
Qed.

Lemma run_orphan (t : nat) (events : list Event) (a : App) :
  forallb (fun e => negb (delivers t e)) events = true ->
  orphan t a -> orphan t (run events a).
Proof.
  revert a. induction events as [|e rest IH]; intros a Hd Ho; [exact Ho|].
  cbn [forallb] in Hd. apply andb_prop in Hd. destruct Hd as [He Hd].
  cbn [run]. apply IH; [exact Hd|]. apply apply_event_orphan; [|exact Ho].
  destruct (delivers t e); [discriminate|reflexivity].
Qed.

Lemma acquired_run (stream : MediaStream) (a : App) (n : nat) :
  acquiring a = S n ->
  getUserMedia_settles (Ok stream) a
  = mkApp (analyzer a)
          (CameraCapture.mkState (Some stream)
             (if ImageAnalyzer.isCameraOpen (analyzer a) then Some stream
              else CameraCapture.srcObject (camera a))
             (CameraCapture.error (camera a)) (CameraCapture.isLoading (camera a)))
          (set_liveTracks (liveTracks (window a) ++ stream) (window a))
          (calls a) (nextCall a) n.
Proof.
  intros Ha. unfold getUserMedia_settles. rewrite Ha.
  unfold in_camera. cbn [camera window analyzer calls nextCall acquiring].
  rewrite startCamera_resume_run. reflexivity.
Qed.

(** X16: when two acquisitions are outstanding and both deliver, the
    second stream replaces the first in [streamRef] and a track of the first
    that the second does not have is never stopped: it stays live through
    every later event, closing and reopening the view included, as long as
    no later delivery brings that track again. *)
Theorem overwritten_stream_leaks
        (a : App) (n : nat) (stream1 stream2 : MediaStream) (t : nat)
        (events : list Event) :
  acquiring a = S (S n) ->
  In t stream1 ->
  ~ In t stream2 ->
  forallb (fun e => negb (delivers t e)) events = true ->
  In t (liveTracks (window (run (Acquired stream1 :: Acquired stream2 :: events) a)))
  /\ forall held,
       CameraCapture.streamRef
         (camera (run (Acquired stream1 :: Acquired stream2 :: events) a)) = Some held ->
       ~ In t held.
Proof.
  intros Ha H1 H2 Hd. cbn [run].
  apply (run_orphan _ Hd). cbn [apply_event].
  rewrite (acquired_run stream1 a Ha).
  match goal with
  | |- orphan t (getUserMedia_settles _ ?a1) =>
      rewrite (@acquired_run stream2 a1 n eq_refl)
  end.
  split; cbn [window camera liveTracks set_liveTracks CameraCapture.streamRef].
  - apply in_or_app. left. apply in_or_app. right. exact H1.
  - intros held H. injection H as <-. exact H2.
Qed.

Lemma overwritten_stream_leaks_witness :
  acquiring (run [CameraButton; CloseView; CameraButton] (mount chrome)) = 2%nat
  /\ In 1%nat
       (liveTracks
          (window (run [Acquired [1; 2]%nat; Acquired [3; 4]%nat; LoadedMetadata; CloseView;
                        CameraButton; CloseView]
                       (run [CameraButton; CloseView; CameraButton] (mount chrome))))).
Proof.
  assert (Ha : acquiring (run [CameraButton; CloseView; CameraButton] (mount chrome))
               = 2%nat) by reflexivity.
  split; [exact Ha|].
  refine (proj1 (@overwritten_stream_leaks _ 0 [1; 2]%nat [3; 4]%nat 1%nat
                   [LoadedMetadata; CloseView; CameraButton; CloseView] Ha _ _ eq_refl)).
  - left. reflexivity.
  - intros [H|[H|[]]]; discriminate.
Defined.

(** X17: [stopCamera] is idempotent: called twice, as when the view
    closes and both the clean-up and the effect run it, it does what one
    call does, and with no stream held it does nothing. *)
Theorem stopCamera_idempotent (c : CameraCapture.State) (w : Window) :
  (CameraCapture.stopCamera ;; CameraCapture.stopCamera) (c, w)
  = CameraCapture.stopCamera (c, w)
  /\ (CameraCapture.streamRef c = None -> CameraCapture.stopCamera (c, w) = (Ok tt, (c, w))).
Proof.
  split.
  - unfold bind. rewrite stopCamera_run.
    destruct (CameraCapture.streamRef c) as [stream|] eqn:E.
    + rewrite stopCamera_run. reflexivity.
    + rewrite stopCamera_run, E. reflexivity.
  - intros E. rewrite stopCamera_run, E. reflexivity.
Qed.

Lemma stopCamera_idempotent_witness :
  CameraCapture.stopCamera (CameraCapture.init, chrome) = (Ok tt, (CameraCapture.init, chrome)).
Proof.
  exact (proj2 (stopCamera_idempotent CameraCapture.init chrome) eq_refl).
Defined.

(** ** One call, from start to end *)

Lemma find_call_new (call : nat) (d : JsString) (l : list (nat * JsString)) :
  find_call call l = None ->
  find_call call (l ++ [(call, d)]) = Some d
  /\ drop_call call (l ++ [(call, d)]) = l.
Proof.
  induction l as [|[n x] l IH]; cbn [app find_call drop_call filter fst].
  - rewrite Nat.eqb_refl. split; reflexivity.
  - destruct (Nat.eqb n call) eqn:E; [discriminate|]. intros H.
    destruct (IH H) as [H1 H2]. cbn [negb]. split; [exact H1|].
    unfold drop_call in H2. rewrite H2. reflexivity.
Qed.

(** X18: one call on its own, from any state of a page with speech
    synthesis: once it has settled, status, result and error are exactly
    what its outcome produces, the preview is the one submitted and the
    calls in flight are those there were before. *)
Theorem single_call_end_to_end
        (a : App) (q : list Utterance) (base64Data previewUrl : JsString) :
  speechSynthesis (window a) = Some q ->
  find_call (nextCall a) (calls a) = None ->
  produced_by (analyzer (run [Submit base64Data previewUrl; Settle (nextCall a)] a))
              (fst (analyzeImage base64Data (window a)))
  /\ ImageAnalyzer.imagePreviewUrl
       (analyzer (run [Submit base64Data previewUrl; Settle (nextCall a)] a))
     = Some previewUrl
  /\ calls (run [Submit base64Data previewUrl; Settle (nextCall a)] a) = calls a.
Proof.
  intros Hs Hn. cbn [run apply_event]. rewrite processAnalysis_run, Hs.
  match goal with
  | |- produced_by (analyzer (settle _ ?x)) _ /\ _ => set (a1 := x)
  end.
  destruct (@find_call_new (nextCall a) base64Data (calls a) Hn) as [Hf Hdrop].
  assert (Hf1 : find_call (nextCall a) (calls a1) = Some base64Data) by exact Hf.
  assert (Hp : same_platform (window a) (window a1)) by (repeat split).
  destruct (settle_run _ _ Hf1) as (Hcalls & _ & _ & Hshow & Hother).
  rewrite <- (analyzeImage_same_platform base64Data Hp) in Hshow, Hother.
  split; [|split].
  - unfold produced_by.
    destruct (fst (analyzeImage base64Data (window a))); cbn [shows] in Hshow;
      destruct Hshow as [H1 H2]; repeat split; try assumption; rewrite Hother; reflexivity.
  - rewrite (proj1 (settle_frame _ a1)). reflexivity.
  - rewrite Hcalls. exact Hdrop.
Qed.

Lemma single_call_end_to_end_witness :
  produced_by (analyzer (run [Submit (js "cat") (js "blob:1"); Settle 0] (mount chrome)))
              (fst (analyzeImage (js "cat") chrome))
  /\ ImageAnalyzer.result
       (analyzer (run [Submit (js "cat") (js "blob:1"); Settle 0] (mount chrome)))
     = JSON_parse catJson.
Proof.
  split; [|vm_compute; reflexivity].
  exact (proj1 (@single_call_end_to_end (mount chrome) [] (js "cat") (js "blob:1")
                  eq_refl eq_refl)).
Defined.

(** ** The success panel *)






(** ** The camera capture view: from opening to the capture button *)

Lemma effect_open_supported (c : CameraCapture.State) (w : Window) :
  mediaDevices w = true ->
  CameraCapture.effect true (c, w)
  = (Ok true,
     (CameraCapture.mkState None (CameraCapture.srcObject c) None true,
      match CameraCapture.streamRef c with
      | Some stream => set_liveTracks (stopped stream (liveTracks w)) w
      | None => w
      end)).
Proof.
  intros Hm.
  assert (E : CameraCapture.effect true (c, w)
              = match CameraCapture.stopCamera (c, w) with
                | (Ok _, sw) => CameraCapture.startCamera_begin sw
                | (Threw e, sw) => (Threw e, sw)
                end) by reflexivity.
  rewrite E, stopCamera_run. clear E.
  destruct c as [[stream|] so e l], w as [a sp md mob m1 m2 m3 co t rv lt];
    cbn [mediaDevices] in Hm; subst md; reflexivity.
Qed.

(** X20: on a browser with a camera, opening the closed view starts one
    acquisition and shows the loader; the capture button is offered neither
    then nor when the stream has been delivered, but only once the video has
    its metadata, and by then the view holds the stream and its tracks are
    live. *)
Theorem capture_offered_after_metadata
        (a : App) (stream : MediaStream) (frame : option JsString) :
  isMobile (window a) = false ->
  mediaDevices (window a) = true ->
  ImageAnalyzer.isCameraOpen (analyzer a) = false ->
  acquiring a = O ->
  (acquiring (run [CameraButton] a) = 1%nat
   /\ CameraCapture.isLoading (camera (run [CameraButton] a)) = true
   /\ offered (Capture frame) (run [CameraButton] a) = false)
  /\ offered (Capture frame) (run [CameraButton; Acquired stream] a) = false
  /\ offered LoadedMetadata (run [CameraButton; Acquired stream] a) = true
  /\ offered (Capture frame) (run [CameraButton; Acquired stream; LoadedMetadata] a) = true
  /\ CameraCapture.streamRef (camera (run [CameraButton; Acquired stream; LoadedMetadata] a))
     = Some stream
  /\ (forall t, In t stream ->
        In t (liveTracks (window (run [CameraButton; Acquired stream; LoadedMetadata] a)))).
Proof.
  intros Hmob Hm Ho Ha.
  assert (E1 : apply_event CameraButton a
               = mkApp (ImageAnalyzer.mkState
                          (ImageAnalyzer.imagePreviewUrl (analyzer a))
                          (ImageAnalyzer.status (analyzer a))
                          (ImageAnalyzer.result (analyzer a))
                          (ImageAnalyzer.error (analyzer a)) true)
                       (CameraCapture.mkState None (CameraCapture.srcObject (camera a))
                          None true)
                       (match CameraCapture.streamRef (camera a) with
                        | Some held => set_liveTracks (stopped held (liveTracks (window a)))
                                         (window a)
                        | None => window a
                        end)
                       (calls a) (nextCall a) 1).
  { cbn [apply_event]. unfold handleCameraButtonClick, setIsCameraOpen.
    rewrite Hmob, Ho. cbn [Bool.eqb].
    set (a1 := snd (in_analyzer (ImageAnalyzer.setIsCameraOpen true) a)).
    set (a2 := snd (in_camera (CameraCapture.render true) a1)).
    assert (Hm2 : mediaDevices (window a2) = true) by exact Hm.
    rewrite (in_camera_eq (CameraCapture.effect true) a2
               (@effect_open_supported (camera a2) (window a2) Hm2)).
    cbn [analyzer camera window calls nextCall acquiring]. rewrite <- Ha. reflexivity. }
  cbn [run]. rewrite E1.
  split; [repeat split|].
  cbn [apply_event].
  match goal with
  | |- context [getUserMedia_settles (Ok stream) ?a1] =>
      rewrite (@acquired_run stream a1 O eq_refl)
  end.
  cbn [analyzer camera window ImageAnalyzer.isCameraOpen CameraCapture.srcObject
       CameraCapture.error CameraCapture.isLoading].
  split; [reflexivity|]. split; [reflexivity|]. split; [reflexivity|].
  split; [reflexivity|].
  intros t Ht. unfold in_camera. cbn [snd window liveTracks set_liveTracks].
  destruct (CameraCapture.streamRef (camera a));
    cbn [liveTracks set_liveTracks]; apply in_or_app; right; exact Ht.
Qed.

Lemma capture_offered_after_metadata_witness :
  offered (Capture (Some (js "data:,"))) (run [CameraButton; Acquired [1; 2]%nat] (mount chrome))
  = false
  /\ offered (Capture (Some (js "data:,")))
       (run [CameraButton; Acquired [1; 2]%nat; LoadedMetadata] (mount chrome)) = true.
Proof.
  destruct (@capture_offered_after_metadata (mount chrome) [1; 2]%nat
              (Some (js "data:,")) eq_refl eq_refl eq_refl eq_refl)
    as (_ & H2 & _ & H4 & _).
  split; [exact H2|exact H4].
Defined.
